(** * mobile-use: the control loop, the action translator and the
      stuck-pattern detector

    A shallow embedding of [TaskExecutor] (the executor), of
    [TaskAgent.detectStuckPattern] and the request built by [TaskAgent.decide]
    (the agent), of the flow documents of [MaestroClient] (maestro.ts) and of the
    records of types.ts, followed by the properties of the control loop.

    Conventions.
    - A JavaScript [number] that the program uses as a counter, a percentage or a
      duration is an integer of [Z]; NaN and fractions are not represented.
    - A JavaScript string is a [string]; the texts the program itself builds are
      ASCII, and [slice] counts characters of that representation.
    - An optional field ([x?: number]) is an [option]; [undefined] is [None].
    - A thrown [Error] is its message.
    - The device, the file system, the clock and the language model are an
      environment [Env]: a state and three operations (run a flow document, capture
      the screen, answer a decision request).  Every call the program makes to it
      is recorded, with its outcome, in a trace, together with the console output
      and the pauses. *)

From Stdlib Require Import ZArith List String Ascii Bool Lia.
From Stdlib Require Import DecimalString.
From Equations Require Import Equations.
Import ListNotations.
Local Open Scope string_scope.
Local Open Scope Z_scope.

(** ** JavaScript helpers *)

Module Js.

(** The line feed and the double quote, as one-character strings. *)
Definition nl : string := String (ascii_of_nat 10) EmptyString.
Definition dq : string := String (ascii_of_nat 34) EmptyString.

(** [`${n}`] for an integer [n]. *)
Definition string_of_Z (n : Z) : string := NilZero.string_of_int (Z.to_int n).

(** [`${v}`] for an optional value: [undefined] prints as its name. *)
Definition show_opt {A} (show : A -> string) (o : option A) : string :=
  match o with
  | Some v => show v
  | None => "undefined"
  end.

(** [v ?? d]. *)
Definition nullish {A} (o : option A) (d : A) : A :=
  match o with
  | Some v => v
  | None => d
  end.

(** Truthiness of an optional string: [undefined] and [''] are falsy. *)
Definition truthy (o : option string) : bool :=
  match o with
  | Some s => negb (String.eqb s "")
  | None => false
  end.

(** [s.startsWith(p)]. *)
Definition startsWith (s p : string) : bool := String.prefix p s.

(** [s.slice(0, n)]. *)
Definition slice0 (n : nat) (s : string) : string := String.substring 0 n s.

(** [l.slice(-n)]. *)
Definition slice_last {A} (n : nat) (l : list A) : list A :=
  skipn (List.length l - n) l.

(** [s.replace(/"/g, '\\"')]. *)
Fixpoint escape_quotes (s : string) : string :=
  match s with
  | EmptyString => EmptyString
  | String c rest =>
      if Ascii.eqb c (ascii_of_nat 34)
      then String (ascii_of_nat 92) (String c (escape_quotes rest))
      else String c (escape_quotes rest)
  end.

(** [haystack.includes(needle)], as a proposition. *)
Definition includes (haystack needle : string) : Prop :=
  exists before after, haystack = before ++ needle ++ after.

End Js.

(** ** types.ts *)

Record AgentParams := {
  x : option Z;
  y : option Z;
  text : option string;
  startX : option Z;
  startY : option Z;
  endX : option Z;
  endY : option Z;
  key : option string;
  url : option string;
  chars : option Z;
  timeout : option Z;
  appId : option string
}.

(** [decision.params || {}] substitutes the object without fields. *)
Definition empty_params : AgentParams :=
  {| x := None; y := None; text := None; startX := None; startY := None;
     endX := None; endY := None; key := None; url := None; chars := None;
     timeout := None; appId := None |}.

(** [action] is declared as a union of seventeen literals, but a decision is
    [JSON.parse(...) as AgentDecision], an unchecked cast, so at run time it is
    any string. *)
Record AgentDecision := {
  action : string;
  params : option AgentParams;
  reasoning : string;
  progress : Z;
  needsUserInput : option bool;
  userInputPrompt : option string
}.

Record IosDeviceConfig := {
  udid : string;
  teamId : string;
  appFile : string;
  driverPort : option Z
}.

Record TaskConfig := {
  bundleId : option string;
  task : string;
  maxSteps : Z;
  model : option string;
  successCriteria : option (list string);
  constraints : option (list string);
  deviceId : option string;
  iosDevice : option IosDeviceConfig
}.

Record ExecutionResult := {
  success : bool;
  reason : string;
  steps : Z
}.

Record AgentContext := {
  stepNumber : Z;
  ctxMaxSteps : Z;
  actionHistory : list string;
  ctxSuccessCriteria : option (list string);
  ctxConstraints : option (list string)
}.

(** ** agent: the stuck-pattern detector *)

Module TaskAgent.

Definition strong_hint (repeated : string) : string :=
  "WARNING: You've tried " ++ Js.dq ++ repeated ++ Js.dq ++
  " 3 times with no progress. The tap coordinates may be WRONG. Try:" ++ Js.nl ++
  "1. DIFFERENT coordinates (shift by 5-10%)" ++ Js.nl ++
  "2. tapText instead of tap (if there's visible text)" ++ Js.nl ++
  "3. scroll to reveal hidden elements" ++ Js.nl ++
  "4. A completely different approach".

Definition mild_hint : string :=
  "NOTE: Multiple tap attempts detected. If tapping isn't working, the button might be at different coordinates than expected. Try adjusting by 5-10% or use tapText if visible text exists.".

Definition detectStuckPattern (history : list string) : option string :=
  if (List.length history <? 3)%nat then None
  else
    let lastThree := Js.slice_last 3 history in
    let first := nth 0 lastThree "" in
    let allSame := forallb (fun a => String.eqb a first) lastThree in
    if allSame then Some (strong_hint first)
    else
      let tapPattern := filter (fun a => Js.startsWith a "tap(") lastThree in
      if (2 <=? List.length tapPattern)%nat then Some mild_hint
      else None.

(** The text of the user message that [decide] sends with the screenshot. *)
Definition userText (stuckWarning : option string) : string :=
  match stuckWarning with
  | Some w =>
      w ++ Js.nl ++ Js.nl ++
      "Analyze the screenshot. What DIFFERENT action should you try?"
  | None =>
      "Analyze the screenshot. What is the ONE best action to progress toward the task goal?"
  end.

End TaskAgent.

(** ** The environment and the trace *)

(** What [decide] hands to the language model: the image, the task and the
    context from which the system prompt is built, and the text of the user
    message, which carries the stuck-pattern hint when there is one. *)
Record OracleQuery := {
  qScreenshot : string;
  qTask : string;
  qContext : AgentContext;
  qUserText : string
}.

(** The world outside the program.
    - [execFlow w yaml] runs a flow document with the maestro executable:
      [None] when the command succeeds, [Some output] when [execSync] throws.
    - [captureScreen w n] is the body of [MaestroClient.screenshot]: the encoded
      image, or the message of whatever failed inside it.
    - [generate w q] is [generateText] followed by the extraction and parsing of
      the JSON object: the decision, or the message of the error raised. *)
Record Env := {
  World : Type;
  execFlow : World -> string -> World * option string;
  captureScreen : World -> Z -> World * (string + string);
  generate : World -> OracleQuery -> World * (AgentDecision + string)
}.

(** One constructor for each method of [MaestroClient] that runs a flow. *)
Inductive MaestroCall :=
| Launch
| LaunchApp (appId : string)
| StopApp (appId : string)
| Tap (x y : Z)
| TapText (text : string)
| DoubleTap (x y : Z)
| LongPress (x y : Z)
| LongPressText (text : string)
| InputText (text : string)
| EraseText (chars : Z)
| Scroll
| Swipe (startX startY endX endY : Z)
| Back
| HideKeyboard
| OpenLink (url : string)
| PressKey (key : string)
| WaitForAnimation (timeout : Z)
| IosBackGesture.

(** The lines the executor prints, without their colours and pictograms. *)
Inductive ConsoleLine :=
| LogTask (task : string)
| LogApp (bundleId : option string)
| LogIosDevice (udid : string)
| LogAppFile (appFile : string)
| LogDevice (deviceId : string)
| LogMaxSteps (maxSteps : Z)
| LogBlank
| LogSkipLaunch
| LogSeparator
| LogStep (steps maxSteps : Z)
| LogWarning (message : string)
| LogReasoning (reasoning : string)
| LogProgress (progress : Z)
| LogAction (action : string) (params : option AgentParams)
| LogCompleted
| LogTaskFailed (reasoning : string)
| LogActionFailed (message : string)
| LogUnknownAction (action : string)
| LogMaxStepsReached
| SpinnerStart (text : string)
| SpinnerSucceed (text : string)
| SpinnerFail (text : string).

(** What the program does to the world, in order.  A flow and a capture carry
    the error they threw, if any; a decision request carries its answer. *)
Inductive Event :=
| EvFlow (call : MaestroCall) (error : option string)
| EvScreenshot (stepNumber : Z) (result : string + string)
| EvDecide (query : OracleQuery) (result : AgentDecision + string)
| EvSleep (ms : Z)
| EvConsole (line : ConsoleLine).

(** ** maestro.ts: the flow documents *)

Module MaestroClient.

Definition percent (n : Z) : string := Js.string_of_Z n ++ "%".

Definition point (x y : Z) : string :=
  Js.dq ++ percent x ++ ", " ++ percent y ++ Js.dq.

Definition quoted (s : string) : string := Js.dq ++ s ++ Js.dq.

Section Client.
(** [this.bundleId], fixed by the constructor. *)
Variable bundleId : option string.

Definition hasBundleId : bool := Js.truthy bundleId.

Definition buildYamlHeader : string :=
  if Js.truthy bundleId
  then "appId: " ++ Js.show_opt (fun s => s) bundleId ++ Js.nl ++ "---" ++ Js.nl
  else "---" ++ Js.nl.

(** The document each method passes to [runFlow]. *)
Definition flow_yaml (c : MaestroCall) : string :=
  match c with
  | Launch =>
      "appId: " ++ Js.show_opt (fun s => s) bundleId ++ Js.nl ++ "---" ++ Js.nl
      ++ "- launchApp"
  | LaunchApp appId =>
      buildYamlHeader ++ "- launchApp:" ++ Js.nl ++ "    appId: " ++ quoted appId
  | StopApp appId =>
      buildYamlHeader ++ "- stopApp:" ++ Js.nl ++ "    appId: " ++ quoted appId
  | Tap x y =>
      buildYamlHeader ++ "- tapOn:" ++ Js.nl ++ "    point: " ++ point x y
  | TapText text =>
      buildYamlHeader ++ "- tapOn:" ++ Js.nl ++ "    text: "
      ++ quoted (Js.escape_quotes text)
  | DoubleTap x y =>
      buildYamlHeader ++ "- doubleTapOn:" ++ Js.nl ++ "    point: " ++ point x y
  | LongPress x y =>
      buildYamlHeader ++ "- longPressOn:" ++ Js.nl ++ "    point: " ++ point x y
  | LongPressText text =>
      buildYamlHeader ++ "- longPressOn:" ++ Js.nl ++ "    text: "
      ++ quoted (Js.escape_quotes text)
  | InputText text =>
      buildYamlHeader ++ "- inputText: " ++ quoted (Js.escape_quotes text)
  | EraseText chars =>
      buildYamlHeader ++ "- eraseText: " ++ Js.string_of_Z chars
  | Scroll => buildYamlHeader ++ "- scroll"
  | Swipe startX startY endX endY =>
      buildYamlHeader ++ "- swipe:" ++ Js.nl
      ++ "    start: " ++ point startX startY ++ Js.nl
      ++ "    end: " ++ point endX endY
  | Back => buildYamlHeader ++ "- back"
  | HideKeyboard => buildYamlHeader ++ "- hideKeyboard"
  | OpenLink url => buildYamlHeader ++ "- openLink: " ++ url
  | PressKey key => buildYamlHeader ++ "- pressKey: " ++ key
  | WaitForAnimation timeout =>
      buildYamlHeader ++ "- waitForAnimationToEnd:" ++ Js.nl
      ++ "    timeout: " ++ Js.string_of_Z timeout
  | IosBackGesture =>
      buildYamlHeader ++ "- swipe:" ++ Js.nl
      ++ "    start: " ++ Js.dq ++ "1%, 50%" ++ Js.dq ++ Js.nl
      ++ "    end: " ++ Js.dq ++ "80%, 50%" ++ Js.dq
  end.

End Client.

End MaestroClient.

(** ** The monad of the executor: state, trace and exceptions *)

Section Program.

Context (E : Env).

Record St := {
  world : World E;
  trace : list Event
}.

(** A computation returns a value or throws; the state survives a throw. *)
Definition M (A : Type) : Type := St -> (A + string) * St.

Definition ret {A} (a : A) : M A := fun st => (inl a, st).

Definition throw {A} (message : string) : M A := fun st => (inr message, st).

Definition bind {A B} (m : M A) (f : A -> M B) : M B :=
  fun st =>
    match m st with
    | (inl a, st') => f a st'
    | (inr e, st') => (inr e, st')
    end.

(** [try { m } catch (error) { handler(error.message) }]. *)
Definition try_catch {A} (m : M A) (handler : string -> M A) : M A :=
  fun st =>
    match m st with
    | (inl a, st') => (inl a, st')
    | (inr e, st') => handler e st'
    end.

Definition record (w : World E) (ev : Event) (st : St) : St :=
  {| world := w; trace := (trace st ++ [ev])%list |}.

Definition emit (ev : Event) : M unit :=
  fun st => (inl tt, record (world st) ev st).

Definition log (l : ConsoleLine) : M unit := emit (EvConsole l).

Definition sleep (ms : Z) : M unit := emit (EvSleep ms).

Notation "x <- m ;; k" := (bind m (fun x => k))
  (at level 61, m at next level, right associativity).
Notation "m ;; k" := (bind m (fun _ => k))
  (at level 61, right associativity).

(** *** MaestroClient: the methods *)

Section Maestro.
Variable bundleId : option string.

(** [runFlow], for the document of the method [c]. *)
Definition runFlow (c : MaestroCall) : M unit :=
  fun st =>
    match execFlow E (world st) (MaestroClient.flow_yaml bundleId c) with
    | (w, None) => (inl tt, record w (EvFlow c None) st)
    | (w, Some output) =>
        let message := "Maestro command failed: " ++ Js.slice0 200 output in
        (inr message, record w (EvFlow c (Some message)) st)
    end.

Definition launch : M unit :=
  if negb (Js.truthy bundleId) then ret tt else runFlow Launch.

Definition screenshot (stepNumber : Z) : M string :=
  fun st =>
    match captureScreen E (world st) stepNumber with
    | (w, inl image) =>
        (inl image, record w (EvScreenshot stepNumber (inl image)) st)
    | (w, inr cause) =>
        let message := "Screenshot failed: " ++ Js.slice0 300 cause in
        (inr message, record w (EvScreenshot stepNumber (inr message)) st)
    end.

End Maestro.

(** *** TaskAgent.decide *)

Definition decide (screenshot task : string) (context : AgentContext)
  : M AgentDecision :=
  let stuckWarning := TaskAgent.detectStuckPattern (actionHistory context) in
  let query :=
    {| qScreenshot := screenshot; qTask := task; qContext := context;
       qUserText := TaskAgent.userText stuckWarning |} in
  fun st =>
    match generate E (world st) query with
    | (w, r) => (r, record w (EvDecide query r) st)
    end.

(** *** TaskExecutor *)

(** Strict equality of two strings. *)
Notation "a === b" := (String.eqb a b) (at level 70, no associativity).

(** How a piece of [execute] ends: it falls through with the history it has
    built ([continue] inside the loop), or it executes a [return]. *)
Inductive Ctl :=
| Continue (actionHistory : list string)
| Return (result : ExecutionResult) (actionHistory : list string).

Section Executor.
Variable config : TaskConfig.

Definition spinnerStart (text : string) : M unit := log (SpinnerStart text).
Definition spinnerSucceed (text : string) : M unit := log (SpinnerSucceed text).
Definition spinnerFail (text : string) : M unit := log (SpinnerFail text).

Definition runMaestro (c : MaestroCall) : M unit := runFlow (bundleId config) c.

Definition executeAction (decision : AgentDecision) : M unit :=
  let params := Js.nullish (params decision) empty_params in
  let a := action decision in
  if a === "tap" then
    runMaestro (Tap (Js.nullish (x params) 50) (Js.nullish (y params) 50))
  else if a === "tapText" then
    runMaestro (TapText (Js.nullish (text params) ""))
  else if a === "doubleTap" then
    runMaestro (DoubleTap (Js.nullish (x params) 50) (Js.nullish (y params) 50))
  else if a === "longPress" then
    if Js.truthy (text params)
    then runMaestro (LongPressText (Js.nullish (text params) ""))
    else runMaestro (LongPress (Js.nullish (x params) 50) (Js.nullish (y params) 50))
  else if a === "inputText" then
    runMaestro (InputText (Js.nullish (text params) ""))
  else if a === "eraseText" then
    runMaestro (EraseText (Js.nullish (chars params) 50))
  else if a === "scroll" then
    runMaestro Scroll
  else if a === "swipe" then
    runMaestro (Swipe (Js.nullish (startX params) 50) (Js.nullish (startY params) 50)
                      (Js.nullish (endX params) 50) (Js.nullish (endY params) 20))
  else if a === "back" then
    try_catch (runMaestro Back) (fun _ => runMaestro IosBackGesture)
  else if a === "hideKeyboard" then
    runMaestro HideKeyboard
  else if a === "openLink" then
    runMaestro (OpenLink (Js.nullish (url params) ""))
  else if a === "pressKey" then
    runMaestro (PressKey (Js.nullish (key params) "enter"))
  else if a === "wait" then
    runMaestro (WaitForAnimation (Js.nullish (timeout params) 3000))
  else if a === "launchApp" then
    if Js.truthy (appId params)
    then runMaestro (LaunchApp (Js.nullish (appId params) ""))
    else ret tt
  else if a === "stopApp" then
    if Js.truthy (appId params)
    then runMaestro (StopApp (Js.nullish (appId params) ""))
    else ret tt
  else
    log (LogUnknownAction a).

Definition formatAction (decision : AgentDecision) : string :=
  match params decision with
  | None => action decision
  | Some params =>
      let a := action decision in
      let num := Js.show_opt Js.string_of_Z in
      let str := Js.show_opt (fun s : string => s) in
      if (a === "tap") || (a === "doubleTap") || (a === "longPress") then
        a ++ "(" ++ num (x params) ++ "," ++ num (y params) ++ ")"
      else if (a === "tapText") || (a === "inputText") then
        a ++ "(" ++ Js.dq ++ str (option_map (Js.slice0 20) (text params))
          ++ Js.dq ++ ")"
      else if a === "swipe" then
        "swipe(" ++ num (startX params) ++ "," ++ num (startY params) ++ "->"
          ++ num (endX params) ++ "," ++ num (endY params) ++ ")"
      else if (a === "launchApp") || (a === "stopApp") then
        a ++ "(" ++ Js.dq ++ str (appId params) ++ Js.dq ++ ")"
      else a
  end.

Definition timeout_reason : string := "Timeout - max steps exceeded".

(** The banner printed before anything is done. *)
Definition banner : M unit :=
  log (LogTask (task config)) ;;
  log (LogApp (if Js.truthy (bundleId config) then bundleId config else None)) ;;
  match iosDevice config with
  | Some dev => log (LogIosDevice (udid dev)) ;; log (LogAppFile (appFile dev))
  | None =>
      if Js.truthy (deviceId config)
      then log (LogDevice (Js.nullish (deviceId config) ""))
      else ret tt
  end ;;
  log (LogMaxSteps (maxSteps config)) ;;
  log LogBlank.

(** From the creation of [actionHistory] to [let steps = 0]. *)
Definition init : M Ctl :=
  if MaestroClient.hasBundleId (bundleId config) then
    spinnerStart "Launching app..." ;;
    try_catch
      (launch (bundleId config) ;;
       spinnerSucceed "App launched" ;;
       sleep 3000 ;;
       ret (Continue ["launched"]))
      (fun message =>
         spinnerFail "Failed to launch app" ;;
         ret (Return {| success := false; reason := message; steps := 0 |} []))
  else
    log LogSkipLaunch ;;
    sleep 1000 ;;
    ret (Continue ["ready"]).

(** The body of the [while], after [steps++], in its three phases; [steps]
    is the incremented counter.

    Capture: the image, or [None] when the [catch] ends in [continue]. *)
Definition observe (steps : Z) : M (option string) :=
  spinnerStart "Capturing screen..." ;;
  try_catch
    (image <- screenshot steps ;;
     spinnerSucceed "Screen captured" ;;
     ret (Some image))
    (fun message =>
       spinnerFail "Screenshot failed" ;;
       log (LogWarning message) ;;
       sleep 2000 ;;
       ret None).

(** Decide: the decision, or [None] when the [catch] ends in [continue]. *)
Definition think (steps : Z) (actionHistory : list string) (image : string)
  : M (option AgentDecision) :=
  spinnerStart "AI thinking..." ;;
  try_catch
    (decision <-
       decide image (task config)
         {| stepNumber := steps;
            ctxMaxSteps := maxSteps config;
            actionHistory := actionHistory;
            ctxSuccessCriteria := successCriteria config;
            ctxConstraints := constraints config |} ;;
     spinnerSucceed "Decision made" ;;
     ret (Some decision))
    (fun message =>
       spinnerFail "AI decision failed" ;;
       log (LogWarning message) ;;
       sleep 2000 ;;
       ret None).

(** From the three lines printed about the decision to the pause that ends
    the iteration. *)
Definition act (steps : Z) (actionHistory : list string)
  (decision : AgentDecision) : M Ctl :=
  log (LogReasoning (reasoning decision)) ;;
  log (LogProgress (progress decision)) ;;
  log (LogAction (action decision) (params decision)) ;;
  if action decision === "done" then
    log LogCompleted ;;
    ret (Return {| success := true; reason := reasoning decision;
                   steps := steps |} actionHistory)
  else if action decision === "failed" then
    log (LogTaskFailed (reasoning decision)) ;;
    ret (Return {| success := false; reason := reasoning decision;
                   steps := steps |} actionHistory)
  else
    pushed <-
      try_catch
        (executeAction decision ;;
         ret (actionHistory ++ [formatAction decision])%list)
        (fun message =>
           log (LogActionFailed message) ;;
           ret (actionHistory ++ ["error"])%list) ;;
    sleep 1500 ;;
    ret (Continue pushed).

Definition loop_body (steps : Z) (actionHistory : list string) : M Ctl :=
  log LogSeparator ;;
  log (LogStep steps (maxSteps config)) ;;
  captured <- observe steps ;;
  match captured with
  | None => ret (Continue actionHistory)
  | Some image =>
      decided <- think steps actionHistory image ;;
      match decided with
      | None => ret (Continue actionHistory)
      | Some decision => act steps actionHistory decision
      end
  end.

(** [while (steps < maxSteps) { steps++; ... }] and the two statements after
    it.  The result carries the final [actionHistory] next to the
    [ExecutionResult], so that the history at exit can be spoken of. *)
Equations? while_loop (steps : Z) (actionHistory : list string) (st : St)
  : (ExecutionResult * list string + string) * St
  by wf (Z.to_nat (maxSteps config - steps)) lt :=
  while_loop steps actionHistory st with Z_lt_dec steps (maxSteps config) => {
    | left _ with loop_body (steps + 1) actionHistory st => {
        | (inl (Continue h), st') => while_loop (steps + 1) h st';
        | (inl (Return result h), st') => (inl (result, h), st');
        | (inr message, st') => (inr message, st') };
    | right _ =>
        (log LogMaxStepsReached ;;
         ret ({| success := false; reason := timeout_reason; steps := steps |},
              actionHistory)) st }.
Proof. lia. Qed.

Definition execute : M (ExecutionResult * list string) :=
  banner ;;
  started <- init ;;
  match started with
  | Return result h => ret (result, h)
  | Continue h => while_loop 0 h
  end.

End Executor.

End Program.

(** ** Scripted environments

    A world that answers from three scripts, one per operation, consumed from
    the front.  When a script is exhausted, a flow succeeds, a capture returns
    a fixed image and a decision request fails as it does on a response
    without JSON. *)

Module Scripted.

Record Script := {
  flows : list (option string);
  captures : list (string + string);
  answers : list (AgentDecision + string)
}.

Definition env : Env := {|
  World := Script;
  execFlow w _ :=
    match flows w with
    | [] => (w, None)
    | o :: rest =>
        ({| flows := rest; captures := captures w; answers := answers w |}, o)
    end;
  captureScreen w _ :=
    match captures w with
    | [] => (w, inl "iVBORw0KGgo=")
    | c :: rest =>
        ({| flows := flows w; captures := rest; answers := answers w |}, c)
    end;
  generate w _ :=
    match answers w with
    | [] => (w, inr "No JSON found in AI response")
    | a :: rest =>
        ({| flows := flows w; captures := captures w; answers := rest |}, a)
    end
|}.

Definition start (s : Script) : St env := Build_St env s [].

Definition decision (a : string) (p : option AgentParams) (r : string) (n : Z)
  : AgentDecision :=
  {| action := a; params := p; reasoning := r; progress := n;
     needsUserInput := None; userInputPrompt := None |}.

Definition coords (px py : Z) : AgentParams :=
  {| x := Some px; y := Some py; text := None; startX := None; startY := None;
     endX := None; endY := None; key := None; url := None; chars := None;
     timeout := None; appId := None |}.

(** A configuration with no target application. *)
Definition foreground (t : string) (n : Z) : TaskConfig :=
  {| bundleId := None; task := t; maxSteps := n; model := None;
     successCriteria := None; constraints := None; deviceId := None;
     iosDevice := None |}.

Definition app (b t : string) (n : Z) : TaskConfig :=
  {| bundleId := Some b; task := t; maxSteps := n; model := None;
     successCriteria := None; constraints := None; deviceId := None;
     iosDevice := None |}.

(** The outcome of a run: the result and the history, or the escaped error. *)
Definition run (config : TaskConfig) (s : Script) :=
  execute env config (start s).

End Scripted.

(** ** Reading a trace *)

Module Trace.

Definition is_capture_failure (e : Event) : bool :=
  match e with
  | EvScreenshot _ (inr _) => true
  | _ => false
  end.

Definition is_decision_failure (e : Event) : bool :=
  match e with
  | EvDecide _ (inr _) => true
  | _ => false
  end.

Definition is_launch_failure (e : Event) : bool :=
  match e with
  | EvFlow Launch (Some _) => true
  | _ => false
  end.

Definition is_terminal_decision (e : Event) : bool :=
  match e with
  | EvDecide _ (inl d) =>
      String.eqb (action d) "done" || String.eqb (action d) "failed"
  | _ => false
  end.

(** The calls that reach the device: flows and captures. *)
Definition is_backend_call (e : Event) : bool :=
  match e with
  | EvFlow _ _ | EvScreenshot _ _ => true
  | _ => false
  end.

Definition capture_failures (tr : list Event) : nat :=
  List.length (filter is_capture_failure tr).

Definition decision_failures (tr : list Event) : nat :=
  List.length (filter is_decision_failure tr).

Definition launch_failed (tr : list Event) : bool :=
  existsb is_launch_failure tr.

Definition terminal_decision (tr : list Event) : bool :=
  existsb is_terminal_decision tr.

Definition backend_calls (tr : list Event) : list Event :=
  filter is_backend_call tr.

(** The counter shown by each [Step n/max] line, one per loop iteration. *)
Definition step_banners (tr : list Event) : list Z :=
  flat_map (fun e => match e with
                     | EvConsole (LogStep n _) => [n]
                     | _ => []
                     end) tr.

(** The step index of each capture request, and whether it succeeded. *)
Definition capture_attempts (tr : list Event) : list (Z * bool) :=
  flat_map (fun e => match e with
                     | EvScreenshot n (inl _) => [(n, true)]
                     | EvScreenshot n (inr _) => [(n, false)]
                     | _ => []
                     end) tr.

End Trace.

(** The history entries appended after the initial marker. *)
Definition appended (actionHistory : list string) : Z :=
  Z.of_nat (List.length (tl actionHistory)).

(** The detector as the specification words it: nothing below three entries;
    on the trailing three, the strong hint when they are one string, else the
    mild hint when two of them at least start with [tap(], else nothing. *)
Definition is_tap_entry (s : string) : bool := Js.startsWith s "tap(".

Definition trailing_three_hint (history : list string) : option string :=
  match rev history with
  | c :: b :: a :: _ =>
      if String.eqb a b && String.eqb b c then Some (TaskAgent.strong_hint a)
      else if (2 <=? List.length (filter is_tap_entry [a; b; c]))%nat
           then Some TaskAgent.mild_hint
           else None
  | _ => None
  end.

(** A decision whose [params] is absent. *)
Definition without_params (a r : string) (p : Z) (u : option bool)
  (v : option string) : AgentDecision :=
  {| action := a; params := None; reasoning := r; progress := p;
     needsUserInput := u; userInputPrompt := v |}.

(** A decision whose [params] is the object without fields, as the prompt
    asks for the kinds that take none. *)
Definition with_empty_params (a r : string) (p : Z) (u : option bool)
  (v : option string) : AgentDecision :=
  {| action := a; params := Some empty_params; reasoning := r; progress := p;
     needsUserInput := u; userInputPrompt := v |}.

(** The closed vocabulary of types.ts. *)
Definition vocabulary : list string :=
  ["tap"; "tapText"; "doubleTap"; "longPress"; "inputText"; "eraseText";
   "scroll"; "swipe"; "back"; "hideKeyboard"; "openLink"; "pressKey"; "wait";
   "launchApp"; "stopApp"; "done"; "failed"].

(** [st] with the events [evs] added to its trace, the world being [w]. *)
Definition extend {E : Env} (st : St E) (w : World E) (evs : list Event) : St E :=
  Build_St E w (trace E st ++ evs)%list.

Arguments world {E} s.
Arguments trace {E} s.

(** ** The events of one loop iteration *)

(** What [executeAction] may add to the trace: flows other than the launch,
    and the line about an unknown action. *)
Definition is_action_event (e : Event) : bool :=
  match e with
  | EvFlow Launch _ => false
  | EvFlow _ _ => true
  | EvConsole (LogUnknownAction _) => true
  | _ => false
  end.

Section Iteration.

Variable config : TaskConfig.

Definition context_at (steps : Z) (h : list string) : AgentContext :=
  {| stepNumber := steps;
     ctxMaxSteps := maxSteps config;
     actionHistory := h;
     ctxSuccessCriteria := successCriteria config;
     ctxConstraints := constraints config |}.

Definition query_at (steps : Z) (h : list string) (image : string)
  : OracleQuery :=
  {| qScreenshot := image; qTask := task config;
     qContext := context_at steps h;
     qUserText := TaskAgent.userText (TaskAgent.detectStuckPattern h) |}.

Definition capture_error (cause : string) : string :=
  "Screenshot failed: " ++ Js.slice0 300 cause.

Definition flow_error (output : string) : string :=
  "Maestro command failed: " ++ Js.slice0 200 output.

(** Up to the capture request. *)
Definition opening (steps : Z) : list Event :=
  [EvConsole LogSeparator; EvConsole (LogStep steps (maxSteps config));
   EvConsole (SpinnerStart "Capturing screen...")].

(** An iteration whose capture fails. *)
Definition capture_failed_events (steps : Z) (cause : string) : list Event :=
  (opening steps ++
   [EvScreenshot steps (inr (capture_error cause));
    EvConsole (SpinnerFail "Screenshot failed");
    EvConsole (LogWarning (capture_error cause));
    EvSleep 2000])%list.

(** Up to the decision request. *)
Definition captured_events (steps : Z) (image : string) : list Event :=
  (opening steps ++
   [EvScreenshot steps (inl image);
    EvConsole (SpinnerSucceed "Screen captured");
    EvConsole (SpinnerStart "AI thinking...")])%list.

(** An iteration whose decision request fails. *)
Definition decision_failed_events (steps : Z) (h : list string)
  (image message : string) : list Event :=
  (captured_events steps image ++
   [EvDecide (query_at steps h image) (inr message);
    EvConsole (SpinnerFail "AI decision failed");
    EvConsole (LogWarning message);
    EvSleep 2000])%list.

(** Up to the first line printed about a decision. *)
Definition decided_events (steps : Z) (h : list string) (image : string)
  (d : AgentDecision) : list Event :=
  (captured_events steps image ++
   [EvDecide (query_at steps h image) (inl d);
    EvConsole (SpinnerSucceed "Decision made")])%list.

(** The three lines printed about a decision. *)
Definition announced (d : AgentDecision) : list Event :=
  [EvConsole (LogReasoning (reasoning d));
   EvConsole (LogProgress (progress d));
   EvConsole (LogAction (action d) (params d))].

(** The ways one iteration can end, with the events it adds to the trace. *)
Inductive body_outcome (steps : Z) (h : list string)
  : Ctl + string -> list Event -> Prop :=
| capture_failed cause :
    body_outcome steps h (inl (Continue h)) (capture_failed_events steps cause)
| decision_failed image message :
    body_outcome steps h (inl (Continue h))
      (decision_failed_events steps h image message)
| decided_done image d :
    action d = "done" ->
    body_outcome steps h
      (inl (Return {| success := true; reason := reasoning d; steps := steps |} h))
      (decided_events steps h image d ++ announced d
       ++ [EvConsole LogCompleted])
| decided_failed image d :
    action d <> "done" -> action d = "failed" ->
    body_outcome steps h
      (inl (Return {| success := false; reason := reasoning d; steps := steps |} h))
      (decided_events steps h image d ++ announced d
       ++ [EvConsole (LogTaskFailed (reasoning d))])
| action_pushed image d evs :
    action d <> "done" -> action d <> "failed" ->
    forallb is_action_event evs = true ->
    body_outcome steps h
      (inl (Continue (h ++ [formatAction d])))
      (decided_events steps h image d ++ announced d ++ evs ++ [EvSleep 1500])
| action_error image d evs message :
    action d <> "done" -> action d <> "failed" ->
    forallb is_action_event evs = true ->
    body_outcome steps h
      (inl (Continue (h ++ ["error"])))
      (decided_events steps h image d ++ announced d ++ evs
       ++ [EvConsole (LogActionFailed message); EvSleep 1500]).

End Iteration.

(** ** The events before the loop *)

Section Prologue.

Variable config : TaskConfig.

Definition banner_events : list Event :=
  ([EvConsole (LogTask (task config));
    EvConsole (LogApp (if Js.truthy (bundleId config) then bundleId config
                       else None))]
   ++ match iosDevice config with
      | Some dev =>
          [EvConsole (LogIosDevice (udid dev)); EvConsole (LogAppFile (appFile dev))]
      | None =>
          if Js.truthy (deviceId config)
          then [EvConsole (LogDevice (Js.nullish (deviceId config) ""))]
          else []
      end
   ++ [EvConsole (LogMaxSteps (maxSteps config)); EvConsole LogBlank])%list.

Definition launched_events : list Event :=
  [EvConsole (SpinnerStart "Launching app..."); EvFlow Launch None;
   EvConsole (SpinnerSucceed "App launched"); EvSleep 3000].

Definition launch_failed_events (message : string) : list Event :=
  [EvConsole (SpinnerStart "Launching app..."); EvFlow Launch (Some message);
   EvConsole (SpinnerFail "Failed to launch app")].

Definition ready_events : list Event :=
  [EvConsole LogSkipLaunch; EvSleep 1000].

(** The ways [init] can end, with the events it adds to the trace. *)
Inductive init_outcome : Ctl + string -> list Event -> Prop :=
| init_ready :
    Js.truthy (bundleId config) = false ->
    init_outcome (inl (Continue ["ready"])) ready_events
| init_launched :
    Js.truthy (bundleId config) = true ->
    init_outcome (inl (Continue ["launched"])) launched_events
| init_launch_failed message :
    Js.truthy (bundleId config) = true ->
    init_outcome
      (inl (Return {| success := false; reason := message; steps := 0 |} []))
      (launch_failed_events message).

End Prologue.

(** The counters [1], ..., [n]. *)
Definition steps_upto (n : Z) : list Z := map Z.of_nat (seq 1 (Z.to_nat n)).

(** The result of a run that exhausts its budget with the counter at [n]. *)
Definition timed_out (n : Z) : ExecutionResult :=
  {| success := false; reason := timeout_reason; steps := n |}.

(** The three shapes of a finished run: the launch failed; a decision of kind
    [done] or [failed] ended it; the budget ran out.  [h] is the history and
    [tr] the trace when [execute] returns. *)
Inductive run_shape (config : TaskConfig) (res : ExecutionResult)
  (h : list string) (tr : list Event) : Prop :=
| run_launch_failed :
    Trace.launch_failed tr = true ->
    Trace.terminal_decision tr = false ->
    success res = false -> steps res = 0 -> h = [] ->
    Trace.step_banners tr = [] ->
    Trace.capture_failures tr = 0%nat -> Trace.decision_failures tr = 0%nat ->
    run_shape config res h tr
| run_decided :
    Trace.launch_failed tr = false ->
    Trace.terminal_decision tr = true ->
    1 <= steps res <= maxSteps config ->
    Trace.step_banners tr = steps_upto (steps res) ->
    h <> [] ->
    appended h
    = steps res - Z.of_nat (Trace.capture_failures tr)
      - Z.of_nat (Trace.decision_failures tr) - 1 ->
    run_shape config res h tr
| run_timed_out :
    Trace.launch_failed tr = false ->
    Trace.terminal_decision tr = false ->
    res = timed_out (Z.max 0 (maxSteps config)) ->
    Trace.step_banners tr = steps_upto (steps res) ->
    h <> [] ->
    appended h
    = steps res - Z.of_nat (Trace.capture_failures tr)
      - Z.of_nat (Trace.decision_failures tr) ->
    run_shape config res h tr.

(** ** The states at the head of the loop *)

(** [loop_head E config w k h st]: in the run that starts in the world [w],
    the test of the [while] is reached with the counter [k], the history [h]
    and the state [st]. *)
Inductive loop_head (E : Env) (config : TaskConfig) (w : World E)
  : Z -> list string -> St E -> Prop :=
| head_first h st :
    bind E (banner E config) (fun _ => init E config) (Build_St E w [])
    = (inl (Continue h), st) ->
    loop_head E config w 0 h st
| head_next k h st h' st' :
    loop_head E config w k h st ->
    k < maxSteps config ->
    loop_body E config (k + 1) h st = (inl (Continue h'), st') ->
    loop_head E config w (k + 1) h' st'.

(** The reading of "retry the same step index": the capture request that
    follows a failed one carries the same index. *)
Definition retries_same_index (attempts : list (Z * bool)) : Prop :=
  forall i k k' ok,
    nth_error attempts i = Some (k, false) ->
    nth_error attempts (S i) = Some (k', ok) ->
    k' = k.

(** ** Scenarios *)

Module Scenario.
Import Scripted.

Definition no_script : Script :=
  {| flows := []; captures := []; answers := [] |}.

(** The application launches; the budget is zero. *)
Definition zero_budget :=
  run (app "com.example.app" "tap button" 0) no_script.

(** The first capture fails, the second succeeds and the model says [done]. *)
Definition capture_retry :=
  run (foreground "tap button" 2)
    {| flows := []; captures := [inr "no device"];
       answers := [inl (decision "done" None "nothing to do" 100)] |}.

(** The model says [done] at the first step. *)
Definition done_at_once :=
  run (foreground "tap button" 3)
    {| flows := []; captures := [];
       answers := [inl (decision "done" None "nothing to do" 100)] |}.

(** The specification's scenario: a tap, then [done]. *)
Definition tap_then_done :=
  run (foreground "tap button" 3)
    {| flows := []; captures := [];
       answers := [inl (decision "tap" (Some (coords 80 80)) "the button" 50);
                   inl (decision "done" None "done" 100)] |} .

(** The specification's scenario: always [scroll], five steps. *)
Definition always_scroll :=
  run (foreground "scroll" 5)
    {| flows := []; captures := [];
       answers := repeat (inl (decision "scroll" None "more" 10)) 5 |}.

(** The tap flow fails at the first step; the model says [done] at the second. *)
Definition failing_tap :=
  run (foreground "tap button" 3)
    {| flows := [Some "Element not found"]; captures := [];
       answers := [inl (decision "tap" None "the button" 50);
                   inl (decision "done" None "done" 100)] |}.

(** The launch fails. *)
Definition failing_launch :=
  run (app "com.example.app" "tap button" 3)
    {| flows := [Some "App not installed"]; captures := []; answers := [] |}.

End Scenario.

(** ** Two runs whose decisions differ in rationale and progress only *)

(** Two decisions that agree on everything but [reasoning] and [progress]. *)
Definition same_control (d1 d2 : AgentDecision) : Prop :=
  action d1 = action d2 /\ params d1 = params d2
  /\ needsUserInput d1 = needsUserInput d2
  /\ userInputPrompt d1 = userInputPrompt d2.

Definition same_answer (r1 r2 : AgentDecision + string) : Prop :=
  match r1, r2 with
  | inl d1, inl d2 => same_control d1 d2
  | inr e1, inr e2 => e1 = e2
  | _, _ => False
  end.

(** Two environments, related by [R], that answer every request alike except
    for the rationale and the progress estimate of the decisions. *)
Record simulation (E1 E2 : Env) (R : World E1 -> World E2 -> Prop) : Prop := {
  sim_flow : forall w1 w2 yaml,
    R w1 w2 ->
    R (fst (execFlow E1 w1 yaml)) (fst (execFlow E2 w2 yaml))
    /\ snd (execFlow E1 w1 yaml) = snd (execFlow E2 w2 yaml);
  sim_capture : forall w1 w2 n,
    R w1 w2 ->
    R (fst (captureScreen E1 w1 n)) (fst (captureScreen E2 w2 n))
    /\ snd (captureScreen E1 w1 n) = snd (captureScreen E2 w2 n);
  sim_generate : forall w1 w2 q,
    R w1 w2 ->
    R (fst (generate E1 w1 q)) (fst (generate E2 w2 q))
    /\ same_answer (snd (generate E1 w1 q)) (snd (generate E2 w2 q))
}.

(** Two states in related worlds after the same calls to the device. *)
Definition related {E1 E2 : Env} (R : World E1 -> World E2 -> Prop)
  (st1 : St E1) (st2 : St E2) : Prop :=
  R (world st1) (world st2)
  /\ Trace.backend_calls (trace st1) = Trace.backend_calls (trace st2).

(** Two ways of ending a piece of [execute] that agree on the control flow. *)
Definition same_ctl (c1 c2 : Ctl) : Prop :=
  match c1, c2 with
  | Continue h1, Continue h2 => h1 = h2
  | Return r1 h1, Return r2 h2 =>
      success r1 = success r2 /\ steps r1 = steps r2 /\ h1 = h2
  | _, _ => False
  end.

(** Two scripts with the same flows and captures, whose answers agree on
    everything but rationale and progress. *)
Definition same_script (s1 s2 : Scripted.Script) : Prop :=
  Scripted.flows s1 = Scripted.flows s2
  /\ Scripted.captures s1 = Scripted.captures s2
  /\ Forall2 same_answer (Scripted.answers s1) (Scripted.answers s2).

(** Two scripts for the same device, whose decisions differ in rationale and
    progress only. *)
Definition terse_script : Scripted.Script :=
  {| Scripted.flows := [None; Some "Element not found"];
     Scripted.captures := [inr "no device"];
     Scripted.answers :=
       [inl (Scripted.decision "tap" (Some (Scripted.coords 80 80)) "tap" 10);
        inl (Scripted.decision "back" None "back" 20);
        inl (Scripted.decision "done" None "ok" 100)] |}.

Definition verbose_script : Scripted.Script :=
  {| Scripted.flows := [None; Some "Element not found"];
     Scripted.captures := [inr "no device"];
     Scripted.answers :=
       [inl (Scripted.decision "tap" (Some (Scripted.coords 80 80))
               "The button is in the lower right corner" 35);
        inl (Scripted.decision "back" None "Wrong screen, going back" 5);
        inl (Scripted.decision "done" None "The note is visible" 90)] |}.

(** ** The invariant of the loop *)

(** What holds each time the test of the [while] is reached: the counter is
    within the budget, the iterations so far are numbered up to it, no launch
    failure and no terminal decision is in the trace, and the history has its
    marker and one entry for each iteration that did not fail to capture or to
    decide. *)
Definition loop_invariant (E : Env) (config : TaskConfig) (k : Z)
  (h : list string) (st : St E) : Prop :=
  0 <= k <= Z.max 0 (maxSteps config)
  /\ Trace.step_banners (trace st) = steps_upto k
  /\ Trace.launch_failed (trace st) = false
  /\ Trace.terminal_decision (trace st) = false
  /\ h <> []
  /\ Z.of_nat (List.length h)
     + Z.of_nat (Trace.capture_failures (trace st))
     + Z.of_nat (Trace.decision_failures (trace st)) = k + 1.

(** The outcome of a piece of [execute] is a result, in one of the three
    shapes. *)
Definition returns_shape (E : Env) (config : TaskConfig)
  (out : (ExecutionResult * list string + string) * St E) : Prop :=
  exists res h, fst out = inl (res, h) /\ run_shape config res h (trace (snd out)).

(** ** maestro.ts: splitting a long text *)

Module JsText.

(** [s.slice(n)]. *)
Definition slice_from (n : nat) (s : string) : string :=
  String.substring n (String.length s - n) s.

(** [s.lastIndexOf(search, position)] for a non-empty [search]: the greatest
    index not above [position] at which [search] occurs in [s]; [None] is -1. *)
Fixpoint lastIndexOf (s search : string) (position : nat) : option nat :=
  if String.eqb (String.substring position (String.length search) s) search
  then Some position
  else match position with
       | O => None
       | S p => lastIndexOf s search p
       end.

(** [s.replace(/\n/g, '\\n')]. *)
Fixpoint escape_newlines (s : string) : string :=
  match s with
  | EmptyString => EmptyString
  | String c rest =>
      if Ascii.eqb c (ascii_of_nat 10)
      then String (ascii_of_nat 92) (String "n" (escape_newlines rest))
      else String c (escape_newlines rest)
  end.

End JsText.

Module Chunking.

(** [breakPoint] as the body of the loop computes it. *)
Definition breakPoint (remaining : string) (maxSize : nat) : nat :=
  match JsText.lastIndexOf remaining ". " maxSize with
  | Some i => i + 1
  | None =>
      match JsText.lastIndexOf remaining " " maxSize with
      | Some i => i + 1
      | None => maxSize
      end
  end.

(** The [while] of [smartChunk], with [chunks] the array built so far.  The
    loop of the source has no bound of its own: [fuel] counts its iterations,
    and [None] says that they did not suffice.  [maxSize] is a natural
    number. *)
Fixpoint smartChunk_loop (fuel : nat) (remaining : string) (maxSize : nat)
  (chunks : list string) : option (list string) :=
  match fuel with
  | O => None
  | S fuel' =>
      if (0 <? String.length remaining)%nat then
        if (String.length remaining <=? maxSize)%nat
        then Some (chunks ++ [remaining])%list
        else
          let bp := breakPoint remaining maxSize in
          smartChunk_loop fuel' (JsText.slice_from bp remaining) maxSize
            (chunks ++ [Js.slice0 bp remaining])%list
      else Some chunks
  end.

(** [smartChunk(text, maxSize)], with one iteration more than [text] has
    characters. *)
Definition smartChunk (text : string) (maxSize : nat) : option (list string) :=
  smartChunk_loop (S (String.length text)) text maxSize [].

End Chunking.

(** ** maestro.ts: typing a long text *)

Section LongText.

Context (E : Env).
Variable bundleId : option string.

(** The [for] of [inputLongText]: each chunk is typed, then 150 ms pass. *)
Fixpoint inputChunks (chunks : list string) : M E unit :=
  match chunks with
  | [] => ret E tt
  | chunk :: rest =>
      bind E (runFlow E bundleId (InputText chunk))
        (fun _ => bind E (sleep E 150) (fun _ => inputChunks rest))
  end.

(** [inputLongText(text, chunkSize)]; [None] when the loop of [smartChunk]
    does not end. *)
Definition inputLongText (text : string) (chunkSize : nat) : option (M E unit) :=
  if (String.length text <=? chunkSize)%nat
  then Some (runFlow E bundleId (InputText text))
  else option_map inputChunks (Chunking.smartChunk text chunkSize).

End LongText.

(** The text that the successful [inputText] flows of a trace have typed. *)
Fixpoint typed (tr : list Event) : string :=
  match tr with
  | [] => ""
  | EvFlow (InputText t) None :: rest => t ++ typed rest
  | _ :: rest => typed rest
  end.

(** ** maestro.ts: pasting a text *)

(** The document of [pasteText]. *)
Definition pasteText_line (text : string) : string :=
  "- pasteText: "
  ++ MaestroClient.quoted (JsText.escape_newlines (Js.escape_quotes text)).

Definition pasteText_yaml (bundleId : option string) (text : string) : string :=
  MaestroClient.buildYamlHeader bundleId ++ pasteText_line text.

(** The line feed. *)
Definition line_feed : ascii := ascii_of_nat 10.

(** ** More readings of a trace *)

Module Observe.

Definition is_launch (e : Event) : bool :=
  match e with
  | EvFlow Launch _ => true
  | _ => false
  end.

(** The number of launch flows. *)
Definition launches (tr : list Event) : nat := List.length (filter is_launch tr).

(** The step number given with each decision request. *)
Definition decide_steps (tr : list Event) : list Z :=
  flat_map (fun e => match e with
                     | EvDecide q _ => [stepNumber (qContext q)]
                     | _ => []
                     end) tr.

(** The history given with each decision request. *)
Definition decide_histories (tr : list Event) : list (list string) :=
  flat_map (fun e => match e with
                     | EvDecide q _ => [actionHistory (qContext q)]
                     | _ => []
                     end) tr.

(** The decisions received. *)
Definition answered (tr : list Event) : list AgentDecision :=
  flat_map (fun e => match e with
                     | EvDecide _ (inl d) => [d]
                     | _ => []
                     end) tr.

(** The pauses, in milliseconds, and their sum. *)
Definition pauses (tr : list Event) : list Z :=
  flat_map (fun e => match e with
                     | EvSleep ms => [ms]
                     | _ => []
                     end) tr.

Definition total_sleep (tr : list Event) : Z := fold_right Z.add 0 (pauses tr).

(** The indices of the captures that succeeded. *)
Definition captured_steps (tr : list Event) : list Z :=
  flat_map (fun e => match e with
                     | EvScreenshot n (inl _) => [n]
                     | _ => []
                     end) tr.

(** The indices of all capture requests. *)
Definition capture_steps (tr : list Event) : list Z :=
  flat_map (fun e => match e with
                     | EvScreenshot n _ => [n]
                     | _ => []
                     end) tr.

End Observe.

(** A decision that ends the run. *)
Definition is_terminal (d : AgentDecision) : bool :=
  String.eqb (action d) "done" || String.eqb (action d) "failed".

(** The first entry of the history of a run that got past the launch. *)
Definition marker (config : TaskConfig) : string :=
  if Js.truthy (bundleId config) then "launched" else "ready".

(** An entry that the loop may append, given the decisions received: the
    error marker, or the summary of a decision that did not end the run. *)
Definition known_entry (tr : list Event) (e : string) : Prop :=
  e = "error"
  \/ exists d, In d (Observe.answered tr) /\ is_terminal d = false
               /\ e = formatAction d.

Definition prefix_of (a b : list string) : Prop := exists suffix, b = (a ++ suffix)%list.

(** The account of a run at the head of the loop. *)
Record loop_account (E : Env) (config : TaskConfig) (k : Z) (h : list string)
  (st : St E) : Prop := {
  acc_counter : 0 <= k <= Z.max 0 (maxSteps config);
  acc_captures : Observe.capture_steps (trace st) = steps_upto k;
  acc_decides : Observe.decide_steps (trace st) = Observe.captured_steps (trace st);
  acc_launches :
    Observe.launches (trace st) = if Js.truthy (bundleId config) then 1%nat else 0%nat;
  acc_no_launch_failure : Trace.launch_failed (trace st) = false;
  acc_history :
    exists entries, h = marker config :: entries
                    /\ Forall (known_entry (trace st)) entries;
  acc_prefixes : Forall (fun asked => prefix_of asked h)
                   (Observe.decide_histories (trace st));
  acc_sleep :
    Observe.total_sleep (trace st)
    = (if Js.truthy (bundleId config) then 3000 else 1000)
      + 2000 * Z.of_nat (Trace.capture_failures (trace st)
                         + Trace.decision_failures (trace st))
      + 1500 * appended h;
  acc_no_terminal : forallb (fun d => negb (is_terminal d))
                      (Observe.answered (trace st)) = true
}.

(** What the account of a run that got past the launch says, whichever way
    the run ended. *)
Record run_account_body (config : TaskConfig) (res : ExecutionResult)
  (h : list string) (tr : list Event) : Prop := {
  body_captures : Observe.capture_steps tr = steps_upto (steps res);
  body_decides : Observe.decide_steps tr = Observe.captured_steps tr;
  body_launches :
    Observe.launches tr = if Js.truthy (bundleId config) then 1%nat else 0%nat;
  body_no_launch_failure : Trace.launch_failed tr = false;
  body_history :
    exists entries, h = marker config :: entries /\ Forall (known_entry tr) entries;
  body_prefixes :
    Forall (fun asked => prefix_of asked h) (Observe.decide_histories tr);
  body_sleep :
    Observe.total_sleep tr
    = (if Js.truthy (bundleId config) then 3000 else 1000)
      + 2000 * Z.of_nat (Trace.capture_failures tr + Trace.decision_failures tr)
      + 1500 * appended h
}.

(** The account of a finished run. *)
Inductive run_account (config : TaskConfig) (res : ExecutionResult)
  (h : list string) (tr : list Event) : Prop :=
| account_launch_failed output :
    Js.truthy (bundleId config) = true ->
    res = {| success := false; reason := flow_error output; steps := 0 |} ->
    h = [] ->
    tr = (banner_events config ++ launch_failed_events (flow_error output))%list ->
    run_account config res h tr
| account_returned ds d :
    Observe.answered tr = (ds ++ [d])%list ->
    forallb (fun d => negb (is_terminal d)) ds = true ->
    is_terminal d = true ->
    res = {| success := String.eqb (action d) "done"; reason := reasoning d;
             steps := steps res |} ->
    1 <= steps res <= maxSteps config ->
    run_account_body config res h tr ->
    run_account config res h tr
| account_timed_out :
    forallb (fun d => negb (is_terminal d)) (Observe.answered tr) = true ->
    res = timed_out (Z.max 0 (maxSteps config)) ->
    run_account_body config res h tr ->
    run_account config res h tr.

(** The outcome of a piece of [execute] is a result with its account. *)
Definition returns_account (E : Env) (config : TaskConfig)
  (out : (ExecutionResult * list string + string) * St E) : Prop :=
  exists res h, fst out = inl (res, h) /\ run_account config res h (trace (snd out)).

(** ** agent: the request of [decide] *)

Module Prompt.

(** [items.map((c, i) => `${i + 1}. ${c}`)], counting from [i]. *)
Fixpoint numbered_from (i : Z) (items : list string) : list string :=
  match items with
  | [] => []
  | c :: rest => (Js.string_of_Z (i + 1) ++ ". " ++ c) :: numbered_from (i + 1) rest
  end.

(** A titled, numbered section, or nothing when the list is absent. *)
Definition titled_section (title : string) (items : option (list string)) : string :=
  match items with
  | Some l => title ++ Js.nl ++ String.concat Js.nl (numbered_from 0 l)
  | None => ""
  end.

Definition criteriaSection (context : AgentContext) : string :=
  titled_section "SUCCESS CRITERIA:" (ctxSuccessCriteria context).

Definition constraintsSection (context : AgentContext) : string :=
  titled_section "CONSTRAINTS:" (ctxConstraints context).

(** [context.actionHistory.slice(-5).join(' -> ') || 'none']. *)
Definition recentActions (context : AgentContext) : string :=
  let joined := String.concat " -> " (Js.slice_last 5 (actionHistory context)) in
  if String.eqb joined "" then "none" else joined.

(** The lines of the system prompt. *)
Definition promptLines (task : string) (context : AgentContext) : list string :=
    ["You are an AI agent controlling a mobile app to complete a task.";
     "";
     "OBJECTIVE: " ++ task;
     "";
     criteriaSection context;
     constraintsSection context;
     "";
     "COORDINATE ESTIMATION GUIDE";
     "You see the screenshot. Estimate tap positions as PERCENTAGES (0-100):";
     "- 0% = left/top edge, 50% = center, 100% = right/bottom edge";
     "";
     "Common UI patterns:";
     "- Floating Action Button (FAB, usually " ++ Js.dq ++ "+" ++ Js.dq ++ "): typically at {x: 85, y: 85} NOT {x: 90, y: 90}";
     "- Navigation back arrow: {x: 5-10, y: 6-8}";
     "- Top-right action button: {x: 90-95, y: 6-8}";
     "- Tab bar items: y: 92-96, x varies by position";
     "- Center of screen: {x: 50, y: 50}";
     "- Text fields: estimate center of the field visually";
     "";
     "CRITICAL: Don't use exact corners (0, 100). Buttons have padding.";
     "";
     "ACTION PRIORITY";
     "1. tapText - BEST when you see readable text on a button. Use EXACT visible text.";
     "2. tap - For icons or when tapText might fail. Estimate coordinates carefully.";
     "3. inputText - ONLY after tapping a text field (you should see cursor/keyboard)";
     "4. scroll - To reveal content below the fold";
     "5. wait - After navigation actions";
     "";
     "AVAILABLE ACTIONS";
     "";
     "tap: Tap at coordinates";
     "  {" ++ Js.dq ++ "action" ++ Js.dq ++ ": " ++ Js.dq ++ "tap" ++ Js.dq ++ ", " ++ Js.dq ++ "params" ++ Js.dq ++ ": {" ++ Js.dq ++ "x" ++ Js.dq ++ ": 85, " ++ Js.dq ++ "y" ++ Js.dq ++ ": 85}, " ++ Js.dq ++ "reasoning" ++ Js.dq ++ ": " ++ Js.dq ++ "..." ++ Js.dq ++ ", " ++ Js.dq ++ "progress" ++ Js.dq ++ ": N}";
     "";
     "tapText: Tap by visible text (preferred when text is visible)";
     "  {" ++ Js.dq ++ "action" ++ Js.dq ++ ": " ++ Js.dq ++ "tapText" ++ Js.dq ++ ", " ++ Js.dq ++ "params" ++ Js.dq ++ ": {" ++ Js.dq ++ "text" ++ Js.dq ++ ": " ++ Js.dq ++ "Add Note" ++ Js.dq ++ "}, " ++ Js.dq ++ "reasoning" ++ Js.dq ++ ": " ++ Js.dq ++ "..." ++ Js.dq ++ ", " ++ Js.dq ++ "progress" ++ Js.dq ++ ": N}";
     "";
     "inputText: Type into focused field";
     "  {" ++ Js.dq ++ "action" ++ Js.dq ++ ": " ++ Js.dq ++ "inputText" ++ Js.dq ++ ", " ++ Js.dq ++ "params" ++ Js.dq ++ ": {" ++ Js.dq ++ "text" ++ Js.dq ++ ": " ++ Js.dq ++ "Your text here" ++ Js.dq ++ "}, " ++ Js.dq ++ "reasoning" ++ Js.dq ++ ": " ++ Js.dq ++ "..." ++ Js.dq ++ ", " ++ Js.dq ++ "progress" ++ Js.dq ++ ": N}";
     "  For long text (>200 chars): use multiple inputText calls";
     "";
     "scroll: Scroll down";
     "  {" ++ Js.dq ++ "action" ++ Js.dq ++ ": " ++ Js.dq ++ "scroll" ++ Js.dq ++ ", " ++ Js.dq ++ "params" ++ Js.dq ++ ": {}, " ++ Js.dq ++ "reasoning" ++ Js.dq ++ ": " ++ Js.dq ++ "..." ++ Js.dq ++ ", " ++ Js.dq ++ "progress" ++ Js.dq ++ ": N}";
     "";
     "swipe: Swipe gesture";
     "  {" ++ Js.dq ++ "action" ++ Js.dq ++ ": " ++ Js.dq ++ "swipe" ++ Js.dq ++ ", " ++ Js.dq ++ "params" ++ Js.dq ++ ": {" ++ Js.dq ++ "startX" ++ Js.dq ++ ": 50, " ++ Js.dq ++ "startY" ++ Js.dq ++ ": 80, " ++ Js.dq ++ "endX" ++ Js.dq ++ ": 50, " ++ Js.dq ++ "endY" ++ Js.dq ++ ": 20}, " ++ Js.dq ++ "reasoning" ++ Js.dq ++ ": " ++ Js.dq ++ "..." ++ Js.dq ++ ", " ++ Js.dq ++ "progress" ++ Js.dq ++ ": N}";
     "";
     "wait: Wait for animations";
     "  {" ++ Js.dq ++ "action" ++ Js.dq ++ ": " ++ Js.dq ++ "wait" ++ Js.dq ++ ", " ++ Js.dq ++ "params" ++ Js.dq ++ ": {}, " ++ Js.dq ++ "reasoning" ++ Js.dq ++ ": " ++ Js.dq ++ "..." ++ Js.dq ++ ", " ++ Js.dq ++ "progress" ++ Js.dq ++ ": N}";
     "";
     "hideKeyboard: Dismiss keyboard";
     "  {" ++ Js.dq ++ "action" ++ Js.dq ++ ": " ++ Js.dq ++ "hideKeyboard" ++ Js.dq ++ ", " ++ Js.dq ++ "params" ++ Js.dq ++ ": {}, " ++ Js.dq ++ "reasoning" ++ Js.dq ++ ": " ++ Js.dq ++ "..." ++ Js.dq ++ ", " ++ Js.dq ++ "progress" ++ Js.dq ++ ": N}";
     "";
     "launchApp: Switch to a different app (for multi-app tasks)";
     "  {" ++ Js.dq ++ "action" ++ Js.dq ++ ": " ++ Js.dq ++ "launchApp" ++ Js.dq ++ ", " ++ Js.dq ++ "params" ++ Js.dq ++ ": {" ++ Js.dq ++ "appId" ++ Js.dq ++ ": " ++ Js.dq ++ "com.example.app" ++ Js.dq ++ "}, " ++ Js.dq ++ "reasoning" ++ Js.dq ++ ": " ++ Js.dq ++ "..." ++ Js.dq ++ ", " ++ Js.dq ++ "progress" ++ Js.dq ++ ": N}";
     "";
     "stopApp: Close/stop an app";
     "  {" ++ Js.dq ++ "action" ++ Js.dq ++ ": " ++ Js.dq ++ "stopApp" ++ Js.dq ++ ", " ++ Js.dq ++ "params" ++ Js.dq ++ ": {" ++ Js.dq ++ "appId" ++ Js.dq ++ ": " ++ Js.dq ++ "com.example.app" ++ Js.dq ++ "}, " ++ Js.dq ++ "reasoning" ++ Js.dq ++ ": " ++ Js.dq ++ "..." ++ Js.dq ++ ", " ++ Js.dq ++ "progress" ++ Js.dq ++ ": N}";
     "";
     "done: Task complete (only when VERIFIED on screen)";
     "  {" ++ Js.dq ++ "action" ++ Js.dq ++ ": " ++ Js.dq ++ "done" ++ Js.dq ++ ", " ++ Js.dq ++ "params" ++ Js.dq ++ ": {}, " ++ Js.dq ++ "reasoning" ++ Js.dq ++ ": " ++ Js.dq ++ "..." ++ Js.dq ++ ", " ++ Js.dq ++ "progress" ++ Js.dq ++ ": 100}";
     "";
     "failed: Cannot complete (only after 10+ different attempts)";
     "  {" ++ Js.dq ++ "action" ++ Js.dq ++ ": " ++ Js.dq ++ "failed" ++ Js.dq ++ ", " ++ Js.dq ++ "params" ++ Js.dq ++ ": {}, " ++ Js.dq ++ "reasoning" ++ Js.dq ++ ": " ++ Js.dq ++ "..." ++ Js.dq ++ ", " ++ Js.dq ++ "progress" ++ Js.dq ++ ": N}";
     "";
     "WHEN STUCK (same action 2+ times with no change):";
     "1. Your coordinates are probably WRONG - shift by 5-10%";
     "2. Try tapText instead of tap coordinates";
     "3. Try scroll to reveal hidden elements";
     "4. Try a completely different element";
     "";
     "PROGRESS: Step " ++ Js.string_of_Z (stepNumber context) ++ "/" ++ Js.string_of_Z (ctxMaxSteps context);
     "Recent: " ++ recentActions context;
     "";
     "Respond with ONLY valid JSON (no markdown):"].

Definition buildSystemPrompt (task : string) (context : AgentContext) : string :=
  String.concat Js.nl (promptLines task context).

End Prompt.

(** ** agent: the conversation and the extraction of the answer *)

Module Conversation.

(** A message of the conversation: the user's has the image and a text, the
    assistant's is the text of the response. *)
Inductive ModelMessage :=
| UserMessage (image text : string)
| AssistantMessage (content : string).

(** The language model: [generateText] with the model name, the system prompt
    and the messages gives the text of the response, or throws. *)
Record LanguageModel := {
  LmState : Type;
  generateText :
    LmState -> string -> string -> list ModelMessage -> LmState * (string + string)
}.

(** The suffix of [s] that starts at its first opening brace. *)
Fixpoint from_first_open (s : string) : option string :=
  match s with
  | EmptyString => None
  | String c rest =>
      if Ascii.eqb c "{" then Some s else from_first_open rest
  end.

(** The longest prefix of [s] that ends with a closing brace. *)
Fixpoint upto_last_close (s : string) : option string :=
  match s with
  | EmptyString => None
  | String c rest =>
      match upto_last_close rest with
      | Some p => Some (String c p)
      | None => if Ascii.eqb c "}" then Some (String c EmptyString) else None
      end
  end.

(** [text.match(/\{[\s\S]*\}/)]: from the first opening brace to the last
    closing brace after it. *)
Definition jsonMatch (text : string) : option string :=
  match from_first_open text with
  | Some t => upto_last_close t
  | None => None
  end.

Section Agent.

Variable LM : LanguageModel.

(** [JSON.parse(...) as AgentDecision]: the decision, or the message of the
    syntax error. *)
Variable parse : string -> AgentDecision + string.

(** [this.model]. *)
Variable model : string.

Record AgentState := {
  conversationHistory : list ModelMessage;
  lm : LmState LM
}.

(** The trimming of the conversation before a request. *)
Definition trimmed (history : list ModelMessage) : list ModelMessage :=
  if (10 <? List.length history)%nat then Js.slice_last 8 history else history.

Definition userMessage (screenshot : string) (context : AgentContext) : ModelMessage :=
  UserMessage screenshot
    (TaskAgent.userText (TaskAgent.detectStuckPattern (actionHistory context))).

(** The messages sent with a request. *)
Definition requestMessages (screenshot : string) (context : AgentContext)
  (history : list ModelMessage) : list ModelMessage :=
  (trimmed history ++ [userMessage screenshot context])%list.

(** [decide], with the conversation it keeps. *)
Definition decide (screenshot task : string) (context : AgentContext)
  (a : AgentState) : (AgentDecision + string) * AgentState :=
  let systemPrompt := Prompt.buildSystemPrompt task context in
  let messages := requestMessages screenshot context (conversationHistory a) in
  match generateText LM (lm a) model systemPrompt messages with
  | (s, inr message) =>
      (inr message, {| conversationHistory := messages; lm := s |})
  | (s, inl text) =>
      let history := (messages ++ [AssistantMessage text])%list in
      match jsonMatch text with
      | None =>
          (inr "No JSON found in AI response",
           {| conversationHistory := history; lm := s |})
      | Some json => (parse json, {| conversationHistory := history; lm := s |})
      end
  end.

Definition reset (a : AgentState) : AgentState :=
  {| conversationHistory := []; lm := lm a |}.

(** A series of calls of [decide], each with its capture, task and context. *)
Fixpoint decide_all (calls : list (string * string * AgentContext))
  (a : AgentState) : AgentState :=
  match calls with
  | [] => a
  | (screenshot, task, context) :: rest =>
      decide_all rest (snd (decide screenshot task context a))
  end.

End Agent.

End Conversation.

(** ** The command line: which argument is the task *)

Module Cli.

(** The resolution of the two positional arguments and of [--task] into the
    bundle identifier and the task, as both commands do it. *)
Definition resolveTarget (bundleIdArg taskArg taskFromOption : option string)
  : option string * option string :=
  if Js.truthy taskFromOption then (bundleIdArg, taskFromOption)
  else if Js.truthy bundleIdArg && Js.truthy taskArg then (bundleIdArg, taskArg)
  else if Js.truthy bundleIdArg && negb (Js.truthy taskArg) then (None, bundleIdArg)
  else (None, None).

End Cli.

(** * Properties *)

(** ** The stuck-pattern detector *)

Lemma slice_last_three {A} (pre : list A) (a b c : A) :
  Js.slice_last 3 (pre ++ [a; b; c]) = [a; b; c].
Proof.
  unfold Js.slice_last.
  rewrite length_app. simpl List.length.
  replace (List.length pre + 3 - 3)%nat with (List.length pre + 0)%nat by lia.
  rewrite skipn_app, Nat.add_0_r, skipn_all.
  replace (List.length pre - List.length pre)%nat with 0%nat by lia.
  reflexivity.
Qed.

Lemma detect_three (pre : list string) (a b c : string) :
  TaskAgent.detectStuckPattern (pre ++ [a; b; c])
  = TaskAgent.detectStuckPattern [a; b; c].
Proof.
  unfold TaskAgent.detectStuckPattern.
  rewrite slice_last_three.
  replace (List.length (pre ++ [a; b; c]) <? 3)%nat with false.
  - reflexivity.
  - symmetry. apply Nat.ltb_ge. rewrite length_app. simpl. lia.
Qed.

Lemma detect_exactly_three (a b c : string) :
  TaskAgent.detectStuckPattern [a; b; c] = trailing_three_hint [a; b; c].
Proof.
  unfold TaskAgent.detectStuckPattern, trailing_three_hint.
  cbn [List.length Nat.ltb Nat.leb rev app Js.slice_last skipn Nat.sub nth forallb].
  rewrite String.eqb_refl. cbn [andb].
  destruct (String.eqb_spec b a) as [->|Hba].
  - rewrite String.eqb_refl. cbn [andb].
    destruct (String.eqb_spec c a) as [->|Hca].
    + rewrite String.eqb_refl. reflexivity.
    + destruct (String.eqb_spec a c) as [Hac|_]; [congruence|]. reflexivity.
  - destruct (String.eqb_spec a b) as [Hab|_]; [congruence|]. reflexivity.
Qed.

Lemma includes_intro (before needle after : string) :
  Js.includes (before ++ needle ++ after) needle.
Proof. exists before, after. reflexivity. Qed.

Lemma string_app_assoc (s1 s2 s3 : string) :
  (s1 ++ s2) ++ s3 = s1 ++ (s2 ++ s3).
Proof.
  induction s1 as [|ch s1 IH]; simpl; [reflexivity|]. now rewrite IH.
Qed.

(** C4. The detector looks only at the trailing three entries: it gives
    nothing when there are fewer than three; the strong hint, which quotes the
    repeated entry and contains [3 times], when the three are one string;
    otherwise the mild hint when at least two of them start with [tap(];
    otherwise nothing. *)
Theorem detectStuckPattern_trailing_three :
  (forall history,
      TaskAgent.detectStuckPattern history = trailing_three_hint history)
  /\ (forall a b, TaskAgent.detectStuckPattern [] = None
                  /\ TaskAgent.detectStuckPattern [a] = None
                  /\ TaskAgent.detectStuckPattern [a; b] = None)
  /\ (forall pre a b c,
         TaskAgent.detectStuckPattern (pre ++ [a; b; c])
         = TaskAgent.detectStuckPattern [a; b; c])
  /\ (forall pre a,
         TaskAgent.detectStuckPattern (pre ++ [a; a; a])
         = Some (TaskAgent.strong_hint a)
         /\ Js.includes (TaskAgent.strong_hint a) (Js.dq ++ a ++ Js.dq)
         /\ Js.includes (TaskAgent.strong_hint a) "3 times")
  /\ TaskAgent.detectStuckPattern ["tap(50,50)"; "tap(50,50)"; "tap(50,50)"]
     = Some (TaskAgent.strong_hint "tap(50,50)")
  /\ TaskAgent.detectStuckPattern ["tap(10,10)"; "scroll"; "tap(20,20)"]
     = Some TaskAgent.mild_hint
  /\ TaskAgent.detectStuckPattern
       ["scroll"; "inputText(" ++ Js.dq ++ "a" ++ Js.dq ++ ")"; "hideKeyboard"]
     = None.
Proof.
  split; [|split; [|split; [|split; [|split; [|split]]]]]; try reflexivity.
  - intros history.
    destruct (rev history) as [|c [|b [|a r]]] eqn:Hrev.
    + apply (f_equal (@rev string)) in Hrev. rewrite rev_involutive in Hrev.
      subst history. reflexivity.
    + apply (f_equal (@rev string)) in Hrev. rewrite rev_involutive in Hrev.
      subst history. reflexivity.
    + apply (f_equal (@rev string)) in Hrev. rewrite rev_involutive in Hrev.
      subst history. reflexivity.
    + assert (Hh : history = (rev r ++ [a; b; c])%list).
      { apply (f_equal (@rev string)) in Hrev. rewrite rev_involutive in Hrev.
        rewrite Hrev. simpl. rewrite <- !app_assoc. reflexivity. }
      rewrite Hh, detect_three, detect_exactly_three.
      unfold trailing_three_hint. rewrite rev_app_distr, rev_involutive.
      reflexivity.
  - intros a b. repeat split.
  - intros pre a b c. apply detect_three.
  - intros pre a. split; [|split].
    + rewrite detect_three, detect_exactly_three.
      unfold trailing_three_hint. cbn [rev app].
      rewrite String.eqb_refl. reflexivity.
    + unfold TaskAgent.strong_hint.
      exists "WARNING: You've tried ".
      eexists. rewrite !string_app_assoc. reflexivity.
    + unfold TaskAgent.strong_hint.
      exists ("WARNING: You've tried " ++ Js.dq ++ a ++ Js.dq ++ " ").
      eexists. rewrite !string_app_assoc. cbn [String.append].
      reflexivity.
Qed.

(** ** The action translator *)

Section Translator.

Context (E : Env) (config : TaskConfig).

Lemma runFlow_event (c : MaestroCall) (st : St E) :
  exists w err,
    snd (runMaestro E config c st) = extend st w [EvFlow c err]
    /\ (fst (runMaestro E config c st) = inl tt <-> err = None).
Proof.
  unfold runMaestro, runFlow.
  destruct (execFlow E (world st) _) as [w [output|]]; simpl.
  - eexists w, (Some _). split; [reflexivity|]. split; discriminate.
  - exists w, None. split; [reflexivity|]. split; reflexivity.
Qed.


(** C7. When the [back] flow fails, the translator runs the edge-swipe
    gesture once, in the same call, and does not run [back] again: the two
    flows are all it does, and the outcome of the gesture is its outcome.
    The gesture's document is that of a swipe from (1,50) to (80,50). *)
Theorem back_falls_back_once (decision : AgentDecision) (st : St E)
  (w : World E) (output : string) :
  action decision = "back" ->
  execFlow E (world st) (MaestroClient.flow_yaml (bundleId config) Back)
  = (w, Some output) ->
  let failed :=
    EvFlow Back (Some ("Maestro command failed: " ++ Js.slice0 200 output)) in
  executeAction E config decision st
  = runMaestro E config IosBackGesture (extend st w [failed])
  /\ (exists w' err,
         snd (executeAction E config decision st)
         = extend st w' [failed; EvFlow IosBackGesture err]
         /\ (fst (executeAction E config decision st) = inl tt <-> err = None))
  /\ MaestroClient.flow_yaml (bundleId config) IosBackGesture
     = MaestroClient.flow_yaml (bundleId config) (Swipe 1 50 80 50).
Proof.
  intros Hback Hfail failed.
  assert (Hrun : executeAction E config decision st
                 = runMaestro E config IosBackGesture (extend st w [failed])).
  { unfold executeAction. rewrite Hback. cbn [String.eqb Ascii.eqb Bool.eqb].
    unfold try_catch at 1. unfold runMaestro at 1, runFlow at 1.
    rewrite Hfail. reflexivity. }
  split; [exact Hrun|split; [|reflexivity]].
  rewrite Hrun.
  destruct (runFlow_event IosBackGesture (extend st w [failed]))
    as (w' & err & Htr & Hok).
  exists w', err. split; [|exact Hok].
  rewrite Htr. unfold extend. simpl. rewrite <- app_assoc. reflexivity.
Qed.

Lemma outside_vocabulary (a : string) :
  ~ In a vocabulary ->
  forallb (fun k => negb (String.eqb a k)) vocabulary = true.
Proof.
  intros Hout. apply forallb_forall. intros k Hk.
  destruct (String.eqb_spec a k) as [->|_]; [contradiction|reflexivity].
Qed.

(** C8. For a decision whose kind is outside the vocabulary the translator
    calls no flow and returns without throwing: it only prints the unknown
    action.  The step then ends as any other: the kind is appended to the
    history and the loop goes on. *)
Theorem unknown_kind_is_a_no_op (decision : AgentDecision) (st : St E)
  (steps : Z) (h : list string) :
  ~ In (action decision) vocabulary ->
  executeAction E config decision st
  = (inl tt, extend st (world st) [EvConsole (LogUnknownAction (action decision))])
  /\ Trace.backend_calls (trace (snd (executeAction E config decision st)))
     = Trace.backend_calls (trace st)
  /\ fst (act E config steps h decision st)
     = inl (Continue (h ++ [action decision])%list).
Proof.
  intros Hout. apply outside_vocabulary in Hout.
  cbn [forallb vocabulary] in Hout.
  repeat (apply andb_prop in Hout; destruct Hout as [?H Hout]).
  repeat match goal with
         | H : negb (String.eqb _ _) = true |- _ =>
             apply negb_true_iff in H
         end.
  assert (Hexec : forall s, executeAction E config decision s
    = (inl tt, extend s (world s)
                 [EvConsole (LogUnknownAction (action decision))])).
  { intros s. unfold executeAction.
    repeat match goal with
           | H : String.eqb _ _ = false |- _ => rewrite H; clear H
           end.
    reflexivity. }
  split; [exact (Hexec st)|split].
  - rewrite Hexec. unfold extend, Trace.backend_calls. simpl.
    rewrite filter_app. simpl. apply app_nil_r.
  - assert (Hfmt : formatAction decision = action decision).
    { unfold formatAction. destruct (params decision); [|reflexivity].
      repeat match goal with
             | H : String.eqb _ _ = false |- _ => rewrite H; clear H
             end.
      reflexivity. }
    unfold act.
    repeat match goal with
           | H : String.eqb (action decision) "done" = false |- _ => rewrite H
           | H : String.eqb (action decision) "failed" = false |- _ => rewrite H
           end.
    unfold bind, try_catch, log, sleep, emit, ret.
    rewrite Hexec, Hfmt. reflexivity.
Qed.

End Translator.

(** ** One iteration of the loop *)

Section LoopBody.

Context (E : Env) (config : TaskConfig).

Lemma extend_extend (st : St E) (w w' : World E) (evs evs' : list Event) :
  extend (extend st w evs) w' evs' = extend st w' (evs ++ evs').
Proof. unfold extend. simpl. now rewrite app_assoc. Qed.

Lemma record_extend (st : St E) (w : World E) (ev : Event) :
  record E w ev st = extend st w [ev].
Proof. reflexivity. Qed.

Lemma world_extend (st : St E) (w : World E) (evs : list Event) :
  world (extend st w evs) = w.
Proof. reflexivity. Qed.

Ltac run_body :=
  unfold spinnerStart, spinnerSucceed, spinnerFail;
  unfold log, sleep; unfold emit, bind, try_catch, ret;
  repeat (cbv beta iota;
          rewrite ?record_extend, ?extend_extend, ?world_extend);
  cbn [app].

Lemma loop_body_capture_fails steps h (st : St E) w cause :
  captureScreen E (world st) steps = (w, inr cause) ->
  loop_body E config steps h st
  = (inl (Continue h), extend st w (capture_failed_events config steps cause)).
Proof.
  intros Hcap. unfold loop_body, observe, screenshot. run_body.
  rewrite Hcap. run_body. reflexivity.
Qed.

Lemma loop_body_decision_fails steps h (st : St E) w image w' message :
  captureScreen E (world st) steps = (w, inl image) ->
  generate E w (query_at config steps h image) = (w', inr message) ->
  loop_body E config steps h st
  = (inl (Continue h),
     extend st w' (decision_failed_events config steps h image message)).
Proof.
  intros Hcap Hgen. unfold loop_body, observe, think, screenshot, decide. run_body.
  rewrite Hcap. run_body. cbv zeta. cbn [actionHistory].
  unfold query_at, context_at in Hgen. rewrite Hgen. run_body. reflexivity.
Qed.

Lemma loop_body_decided steps h (st : St E) w image w' d :
  captureScreen E (world st) steps = (w, inl image) ->
  generate E w (query_at config steps h image) = (w', inl d) ->
  loop_body E config steps h st
  = act E config steps h d (extend st w' (decided_events config steps h image d)).
Proof.
  intros Hcap Hgen. unfold loop_body, observe, think, screenshot, decide. run_body.
  rewrite Hcap. run_body. cbv zeta. cbn [actionHistory].
  unfold query_at, context_at in Hgen. rewrite Hgen. run_body. reflexivity.
Qed.

Lemma act_done steps h d (st : St E) :
  action d = "done" ->
  act E config steps h d st
  = (inl (Return {| success := true; reason := reasoning d; steps := steps |} h),
     extend st (world st) (announced d ++ [EvConsole LogCompleted])).
Proof.
  intros Ha. unfold act.
  replace (String.eqb (action d) "done") with true by (now rewrite Ha).
  run_body. reflexivity.
Qed.

Lemma act_failed steps h d (st : St E) :
  action d <> "done" -> action d = "failed" ->
  act E config steps h d st
  = (inl (Return {| success := false; reason := reasoning d; steps := steps |} h),
     extend st (world st)
       (announced d ++ [EvConsole (LogTaskFailed (reasoning d))])).
Proof.
  intros _ Ha. unfold act.
  replace (String.eqb (action d) "done") with false by (now rewrite Ha).
  replace (String.eqb (action d) "failed") with true by (now rewrite Ha).
  run_body. reflexivity.
Qed.

Lemma act_dispatch steps h d (st : St E) r st' :
  action d <> "done" -> action d <> "failed" ->
  executeAction E config d (extend st (world st) (announced d)) = (r, st') ->
  act E config steps h d st
  = match r with
    | inl _ =>
        (inl (Continue (h ++ [formatAction d])),
         extend st' (world st') [EvSleep 1500])
    | inr message =>
        (inl (Continue (h ++ ["error"])),
         extend st' (world st')
           [EvConsole (LogActionFailed message); EvSleep 1500])
    end.
Proof.
  intros Hd Hf Hexec. unfold act.
  destruct (String.eqb_spec (action d) "done") as [|_]; [contradiction|].
  destruct (String.eqb_spec (action d) "failed") as [|_]; [contradiction|].
  run_body. unfold announced in Hexec. rewrite Hexec.
  destruct r as [[]|message]; run_body; reflexivity.
Qed.

Lemma runMaestro_trace (c : MaestroCall) (st : St E) :
  c <> Launch ->
  exists evs,
    trace (snd (runMaestro E config c st)) = (trace st ++ evs)%list
    /\ forallb is_action_event evs = true.
Proof.
  intros Hc. destruct (runFlow_event E config c st) as (w & err & Hst & _).
  exists [EvFlow c err]. rewrite Hst. split; [reflexivity|].
  destruct c; try reflexivity. contradiction.
Qed.

Lemma executeAction_trace (d : AgentDecision) (st : St E) :
  exists evs,
    trace (snd (executeAction E config d st)) = (trace st ++ evs)%list
    /\ forallb is_action_event evs = true.
Proof.
  unfold executeAction.
  repeat match goal with
         | |- context [if ?b then _ else _] => destruct b
         end;
    try (apply runMaestro_trace; discriminate).
  - (* back *)
    unfold try_catch.
    destruct (runMaestro E config Back st) as [[[]|e] st1] eqn:Hback.
    + change st1 with (snd (@inl unit string tt, st1)). rewrite <- Hback.
      apply runMaestro_trace. discriminate.
    + destruct (runMaestro_trace Back st) as (evs1 & H1 & F1); [discriminate|].
      destruct (runMaestro_trace IosBackGesture st1) as (evs2 & H2 & F2);
        [discriminate|].
      rewrite Hback in H1. cbn [snd] in H1.
      exists (evs1 ++ evs2)%list. rewrite H2, H1, app_assoc. split; [reflexivity|].
      rewrite forallb_app, F1, F2. reflexivity.
  - exists []. cbn. now rewrite app_nil_r.
  - exists []. cbn. now rewrite app_nil_r.
  - exists [EvConsole (LogUnknownAction (action d))]. split; reflexivity.
Qed.

(** Every iteration ends in one of the six ways of [body_outcome]. *)
Lemma loop_body_outcome steps h (st : St E) :
  exists evs,
    trace (snd (loop_body E config steps h st)) = (trace st ++ evs)%list
    /\ body_outcome config steps h (fst (loop_body E config steps h st)) evs.
Proof.
  destruct (captureScreen E (world st) steps) as [w [image|cause]] eqn:Hcap.
  2:{ rewrite (loop_body_capture_fails _ _ _ _ _ Hcap).
      eexists. split; [reflexivity|]. constructor. }
  destruct (generate E w (query_at config steps h image)) as [w' [d|message]] eqn:Hgen.
  2:{ rewrite (loop_body_decision_fails _ _ _ _ _ _ _ Hcap Hgen).
      eexists. split; [reflexivity|]. constructor. }
  rewrite (loop_body_decided _ _ _ _ _ _ _ Hcap Hgen).
  destruct (string_dec (action d) "done") as [Hd|Hd].
  { rewrite (act_done _ _ _ _ Hd), extend_extend.
    eexists. split; [reflexivity|]. now constructor. }
  destruct (string_dec (action d) "failed") as [Hf|Hf].
  { rewrite (act_failed _ _ _ _ Hd Hf), extend_extend.
    eexists. split; [reflexivity|]. now constructor. }
  destruct (executeAction E config d
              (extend (extend st w' (decided_events config steps h image d))
                 w' (announced d))) as [r st'] eqn:Hexec.
  rewrite (act_dispatch steps h d _ r st' Hd Hf Hexec).
  destruct (executeAction_trace d
              (extend (extend st w' (decided_events config steps h image d))
                 w' (announced d))) as (evs & Htr & Hevs).
  rewrite Hexec in Htr. cbn [snd] in Htr.
  rewrite extend_extend in Htr. cbn [trace extend] in Htr.
  destruct r as [[]|message]; cbn [fst snd trace extend]; rewrite Htr.
  - exists (decided_events config steps h image d ++ announced d ++ evs
            ++ [EvSleep 1500])%list.
    split; [now rewrite <- !app_assoc|]. now constructor.
  - exists (decided_events config steps h image d ++ announced d ++ evs
            ++ [EvConsole (LogActionFailed message); EvSleep 1500])%list.
    split; [now rewrite <- !app_assoc|]. now constructor.
Qed.

End LoopBody.

(** ** The loop *)

Section Loop.

Context (E : Env) (config : TaskConfig).

Lemma while_loop_step (k : Z) (h : list string) (st : St E) :
  while_loop E config k h st =
  if Z_lt_dec k (maxSteps config) then
    match loop_body E config (k + 1) h st with
    | (inl (Continue h'), st') => while_loop E config (k + 1) h' st'
    | (inl (Return r h'), st') => (inl (r, h'), st')
    | (inr e, st') => (inr e, st')
    end
  else (inl (timed_out k, h), extend st (world st) [EvConsole LogMaxStepsReached]).
Proof.
  rewrite while_loop_equation_1.
  destruct (Z_lt_dec k (maxSteps config)); simpl.
  - destruct (loop_body E config (k + 1) h st) as [[[h'|r h']|e] st']; reflexivity.
  - reflexivity.
Qed.

(** The proof rule of the loop: an invariant [P] of the loop head that every
    continuing iteration preserves, and a property [Q] of the outcome that
    every returning iteration and the exit of the loop establish. *)
Lemma while_loop_rule
  (P : Z -> list string -> St E -> Prop)
  (Q : (ExecutionResult * list string + string) * St E -> Prop) :
  (forall k h st, P k h st -> k < maxSteps config ->
     match loop_body E config (k + 1) h st with
     | (inl (Continue h'), st') => P (k + 1) h' st'
     | (inl (Return r h'), st') => Q (inl (r, h'), st')
     | (inr e, st') => Q (inr e, st')
     end) ->
  (forall k h st, P k h st -> ~ k < maxSteps config ->
     Q (inl (timed_out k, h),
        extend st (world st) [EvConsole LogMaxStepsReached])) ->
  forall k h st, P k h st -> Q (while_loop E config k h st).
Proof.
  intros Hbody Hexit k.
  remember (Z.to_nat (maxSteps config - k)) as n eqn:Hn.
  revert k Hn. induction n as [n IH] using lt_wf_ind. intros k Hn h st HP.
  rewrite while_loop_step.
  destruct (Z_lt_dec k (maxSteps config)) as [Hlt|Hge].
  - specialize (Hbody k h st HP Hlt).
    destruct (loop_body E config (k + 1) h st) as [[[h'|r h']|e] st'];
      try exact Hbody.
    apply (IH (Z.to_nat (maxSteps config - (k + 1)))); [lia|reflexivity|exact Hbody].
  - apply Hexit; assumption.
Qed.

Lemma banner_run (st : St E) :
  banner E config st = (inl tt, extend st (world st) (banner_events config)).
Proof.
  unfold banner, banner_events.
  destruct (iosDevice config) as [dev|]; [|destruct (Js.truthy (deviceId config))];
    unfold log, emit, bind, ret;
    repeat (cbv beta iota; rewrite ?record_extend, ?extend_extend, ?world_extend);
    reflexivity.
Qed.

Lemma init_run (st : St E) :
  exists evs,
    trace (snd (init E config st)) = (trace st ++ evs)%list
    /\ init_outcome config (fst (init E config st)) evs.
Proof.
  unfold init, MaestroClient.hasBundleId.
  destruct (Js.truthy (bundleId config)) eqn:Hb.
  - unfold launch. rewrite Hb. cbn [negb].
    unfold spinnerStart, spinnerSucceed, spinnerFail, sleep, log, runFlow.
    unfold emit, bind, try_catch, ret.
    cbv beta iota. rewrite ?record_extend, ?world_extend.
    destruct (execFlow E (world st) _) as [w [output|]];
      repeat (cbv beta iota; rewrite ?record_extend, ?extend_extend, ?world_extend);
      cbn [fst snd].
    + exists (launch_failed_events (flow_error output)). split; [reflexivity|].
      now constructor.
    + exists launched_events. split; [reflexivity|]. now constructor.
  - unfold sleep, log, emit, bind, ret.
    repeat (cbv beta iota; rewrite ?record_extend, ?extend_extend, ?world_extend).
    exists ready_events. split; [reflexivity|]. now constructor.
Qed.

End Loop.

(** ** What an iteration adds to the trace *)

Section Observations.

Variable config : TaskConfig.

Lemma action_events_filter (f : Event -> bool) (evs : list Event) :
  (forall e, is_action_event e = true -> f e = false) ->
  forallb is_action_event evs = true ->
  filter f evs = [] /\ existsb f evs = false.
Proof.
  intros Hf. induction evs as [|e evs IH]; cbn [forallb filter existsb].
  - split; reflexivity.
  - intros H. apply andb_prop in H. destruct H as [He Hevs].
    rewrite (Hf e He). cbn [orb]. apply IH, Hevs.
Qed.

Lemma action_events_banners (evs : list Event) :
  forallb is_action_event evs = true -> Trace.step_banners evs = [].
Proof.
  induction evs as [|e evs IH]; cbn [forallb Trace.step_banners flat_map].
  - reflexivity.
  - intros H. apply andb_prop in H. destruct H as [He Hevs].
    fold (Trace.step_banners evs). rewrite (IH Hevs).
    destruct e as [c err|n r|q r|ms|[]]; try discriminate; reflexivity.
Qed.

Lemma action_events_captures (evs : list Event) :
  forallb is_action_event evs = true -> Trace.capture_attempts evs = [].
Proof.
  induction evs as [|e evs IH]; cbn [forallb Trace.capture_attempts flat_map].
  - reflexivity.
  - intros H. apply andb_prop in H. destruct H as [He Hevs].
    fold (Trace.capture_attempts evs). rewrite (IH Hevs).
    destruct e as [c err|n r|q r|ms|[]]; try discriminate; reflexivity.
Qed.

Lemma action_events_quiet (evs : list Event) :
  forallb is_action_event evs = true ->
  Trace.capture_failures evs = 0%nat /\ Trace.decision_failures evs = 0%nat
  /\ Trace.launch_failed evs = false /\ Trace.terminal_decision evs = false.
Proof.
  intros H.
  unfold Trace.capture_failures, Trace.decision_failures, Trace.launch_failed,
    Trace.terminal_decision.
  destruct (action_events_filter Trace.is_capture_failure evs) as [-> _]; auto.
  { intros [c err|n r|q r|ms|[]]; try discriminate; reflexivity. }
  destruct (action_events_filter Trace.is_decision_failure evs) as [-> _]; auto.
  { intros [c err|n r|q r|ms|[]]; try discriminate; reflexivity. }
  destruct (action_events_filter Trace.is_launch_failure evs) as [_ ->]; auto.
  { intros [[] err|n r|q r|ms|[]]; try discriminate; reflexivity. }
  destruct (action_events_filter Trace.is_terminal_decision evs) as [_ ->]; auto.
  intros [c err|n r|q r|ms|[]]; try discriminate; reflexivity.
Qed.

Lemma not_terminal (d : AgentDecision) :
  action d <> "done" -> action d <> "failed" ->
  String.eqb (action d) "done" || String.eqb (action d) "failed" = false.
Proof.
  intros Hd Hf.
  destruct (String.eqb_spec (action d) "done"); [contradiction|].
  destruct (String.eqb_spec (action d) "failed"); [contradiction|].
  reflexivity.
Qed.

Ltac observe_events :=
  unfold Trace.capture_failures, Trace.decision_failures, Trace.launch_failed,
    Trace.terminal_decision, Trace.step_banners, Trace.capture_attempts,
    capture_failed_events, decision_failed_events, decided_events,
    captured_events, opening, announced;
  rewrite ?filter_app, ?existsb_app, ?flat_map_app, ?length_app;
  cbn [filter existsb flat_map app List.length
       Trace.is_capture_failure Trace.is_decision_failure
       Trace.is_launch_failure Trace.is_terminal_decision orb].

(** What each way of ending an iteration shows in the trace and does to the
    history. *)
Lemma body_outcome_facts k h r evs :
  body_outcome config k h r evs ->
  Trace.step_banners evs = [k]
  /\ (exists ok, Trace.capture_attempts evs = [(k, ok)])
  /\ Trace.launch_failed evs = false
  /\ match r with
     | inl (Continue h') =>
         Trace.terminal_decision evs = false
         /\ (List.length h <= List.length h')%nat
         /\ (List.length h' + Trace.capture_failures evs
             + Trace.decision_failures evs = List.length h + 1)%nat
     | inl (Return res h') =>
         Trace.terminal_decision evs = true
         /\ steps res = k /\ h' = h
         /\ Trace.capture_failures evs = 0%nat
         /\ Trace.decision_failures evs = 0%nat
     | inr _ => False
     end.
Proof.
  intros H.
  destruct H as [cause|image message|image d Hd|image d Hd Hf
                |image d evs0 Hd Hf Hevs|image d evs0 message Hd Hf Hevs].
  - observe_events. repeat split; try reflexivity; try discriminate; try lia.
    now exists false.
  - observe_events. repeat split; try reflexivity; try discriminate; try lia.
    now exists true.
  - observe_events. rewrite Hd. cbn.
    repeat split; try reflexivity. now exists true.
  - observe_events. rewrite Hf. cbn.
    repeat split; try reflexivity. now exists true.
  - destruct (action_events_quiet evs0 Hevs) as (Hc & Hdf & Hl & Ht).
    pose proof (action_events_banners evs0 Hevs) as Hb.
    pose proof (action_events_captures evs0 Hevs) as Hca.
    unfold Trace.capture_failures, Trace.decision_failures, Trace.launch_failed,
      Trace.terminal_decision, Trace.step_banners, Trace.capture_attempts
      in Hc, Hdf, Hl, Ht, Hb, Hca.
    observe_events. rewrite Hb, Hca, Hl, Ht, (not_terminal d Hd Hf).
    apply length_zero_iff_nil in Hc, Hdf. rewrite Hc, Hdf. cbn.
    repeat split; try reflexivity; try discriminate; try lia.
    now exists true.
  - destruct (action_events_quiet evs0 Hevs) as (Hc & Hdf & Hl & Ht).
    pose proof (action_events_banners evs0 Hevs) as Hb.
    pose proof (action_events_captures evs0 Hevs) as Hca.
    unfold Trace.capture_failures, Trace.decision_failures, Trace.launch_failed,
      Trace.terminal_decision, Trace.step_banners, Trace.capture_attempts
      in Hc, Hdf, Hl, Ht, Hb, Hca.
    observe_events. rewrite Hb, Hca, Hl, Ht, (not_terminal d Hd Hf).
    apply length_zero_iff_nil in Hc, Hdf. rewrite Hc, Hdf. cbn.
    repeat split; try reflexivity; try discriminate; try lia.
    now exists true.
Qed.

End Observations.

(** ** The whole run *)

Section Run.

Context (E : Env) (config : TaskConfig).

Lemma steps_upto_succ (k : Z) :
  0 <= k -> steps_upto (k + 1) = (steps_upto k ++ [k + 1])%list.
Proof.
  intros Hk. unfold steps_upto.
  replace (Z.to_nat (k + 1)) with (Z.to_nat k + 1)%nat by lia.
  rewrite seq_app, map_app. cbn [seq map]. do 2 f_equal. lia.
Qed.

Lemma capture_failures_app (a b : list Event) :
  Trace.capture_failures (a ++ b)
  = (Trace.capture_failures a + Trace.capture_failures b)%nat.
Proof. unfold Trace.capture_failures. now rewrite filter_app, length_app. Qed.

Lemma decision_failures_app (a b : list Event) :
  Trace.decision_failures (a ++ b)
  = (Trace.decision_failures a + Trace.decision_failures b)%nat.
Proof. unfold Trace.decision_failures. now rewrite filter_app, length_app. Qed.

Lemma launch_failed_app (a b : list Event) :
  Trace.launch_failed (a ++ b) = Trace.launch_failed a || Trace.launch_failed b.
Proof. apply existsb_app. Qed.

Lemma terminal_decision_app (a b : list Event) :
  Trace.terminal_decision (a ++ b)
  = Trace.terminal_decision a || Trace.terminal_decision b.
Proof. apply existsb_app. Qed.

Lemma step_banners_app (a b : list Event) :
  Trace.step_banners (a ++ b) = (Trace.step_banners a ++ Trace.step_banners b)%list.
Proof. apply flat_map_app. Qed.

Lemma appended_length (h : list string) :
  h <> [] -> appended h = Z.of_nat (List.length h) - 1.
Proof.
  destruct h; [contradiction|]. intros _. unfold appended.
  cbn [tl List.length]. lia.
Qed.

Lemma loop_invariant_body k h st :
  loop_invariant E config k h st -> k < maxSteps config ->
  match loop_body E config (k + 1) h st with
  | (inl (Continue h'), st') => loop_invariant E config (k + 1) h' st'
  | (inl (Return r h'), st') => returns_shape E config (inl (r, h'), st')
  | (inr e, st') => returns_shape E config (inr e, st')
  end.
Proof.
  intros (Hk & Hb & Hl & Ht & Hne & Hh) Hlt.
  destruct (loop_body_outcome E config (k + 1) h st) as (evs & Htr & Hout).
  apply body_outcome_facts in Hout.
  destruct Hout as (Hb' & _ & Hl' & Hr).
  destruct (loop_body E config (k + 1) h st) as [[[h'|r h']|e] st'];
    cbn [fst snd] in *; [| |contradiction].
  - destruct Hr as (Ht' & Hle & Hlen).
    assert (Hne' : h' <> []).
    { destruct h'; [|discriminate]. destruct h; [contradiction|simpl in Hle; lia]. }
    unfold loop_invariant. rewrite Htr.
    rewrite step_banners_app, launch_failed_app, terminal_decision_app,
      capture_failures_app, decision_failures_app, Hb, Hb', Hl, Hl', Ht, Ht'.
    rewrite steps_upto_succ by lia.
    repeat split; try reflexivity; try assumption; lia.
  - destruct Hr as (Ht' & Hs & -> & Hc & Hd).
    exists r, h. split; [reflexivity|]. cbn [snd]. rewrite Htr.
    apply run_decided.
    + now rewrite launch_failed_app, Hl, Hl'.
    + rewrite terminal_decision_app, Ht'. apply orb_true_r.
    + lia.
    + rewrite step_banners_app, Hb, Hb', Hs. symmetry. apply steps_upto_succ. lia.
    + exact Hne.
    + rewrite (appended_length h Hne), capture_failures_app,
        decision_failures_app, Hc, Hd. lia.
Qed.

Lemma loop_invariant_exit k h st :
  loop_invariant E config k h st -> ~ k < maxSteps config ->
  returns_shape E config (inl (timed_out k, h),
                 extend st (world st) [EvConsole LogMaxStepsReached]).
Proof.
  intros (Hk & Hb & Hl & Ht & Hne & Hh) Hge.
  exists (timed_out k), h. split; [reflexivity|]. cbn [snd trace extend].
  apply run_timed_out.
  - rewrite launch_failed_app, Hl. reflexivity.
  - rewrite terminal_decision_app, Ht. reflexivity.
  - f_equal. lia.
  - rewrite step_banners_app, Hb. cbn. now rewrite app_nil_r.
  - exact Hne.
  - rewrite (appended_length h Hne), capture_failures_app, decision_failures_app.
    cbn. lia.
Qed.

Lemma banner_quiet :
  Trace.step_banners (banner_events config) = []
  /\ Trace.launch_failed (banner_events config) = false
  /\ Trace.terminal_decision (banner_events config) = false
  /\ Trace.capture_failures (banner_events config) = 0%nat
  /\ Trace.decision_failures (banner_events config) = 0%nat.
Proof.
  unfold banner_events.
  destruct (iosDevice config); [|destruct (Js.truthy (deviceId config))];
    repeat split; reflexivity.
Qed.

(** Every run returns, in one of the three shapes. *)
Lemma execute_shape (w : World E) :
  exists res h st',
    execute E config (Build_St E w []) = (inl (res, h), st')
    /\ run_shape config res h (trace st').
Proof.
  set (st0 := Build_St E w []).
  assert (Hgoal : returns_shape E config (execute E config st0)).
  { unfold execute. unfold bind at 1. rewrite banner_run.
    set (st1 := extend st0 (world st0) (banner_events config)).
    destruct banner_quiet as (Bb & Bl & Bt & Bc & Bd).
    unfold bind.
    destruct (init_run E config st1) as (evs & Htr & Hout).
    destruct (init E config st1) as [[c|e] st2]; cbn [fst snd] in *.
    2:{ inversion Hout. }
    inversion Hout as [Hb Hc Hevs|Hb Hc Hevs|message Hb Hc Hevs]; subst c evs.
    - apply while_loop_rule with (P := loop_invariant E config).
      + apply loop_invariant_body.
      + apply loop_invariant_exit.
      + unfold loop_invariant. rewrite Htr. cbn [trace st1 extend st0 app].
        rewrite step_banners_app, launch_failed_app, terminal_decision_app,
          capture_failures_app, decision_failures_app, Bb, Bl, Bt, Bc, Bd.
        cbn. repeat split; try reflexivity; try discriminate; lia.
    - apply while_loop_rule with (P := loop_invariant E config).
      + apply loop_invariant_body.
      + apply loop_invariant_exit.
      + unfold loop_invariant. rewrite Htr. cbn [trace st1 extend st0 app].
        rewrite step_banners_app, launch_failed_app, terminal_decision_app,
          capture_failures_app, decision_failures_app, Bb, Bl, Bt, Bc, Bd.
        cbn. repeat split; try reflexivity; try discriminate; lia.
    - eexists _, _. split; [reflexivity|]. cbn [snd ret]. rewrite Htr.
      cbn [trace st1 extend st0 app].
      apply run_launch_failed; try reflexivity;
        rewrite ?step_banners_app, ?launch_failed_app, ?terminal_decision_app,
          ?capture_failures_app, ?decision_failures_app, ?Bb, ?Bl, ?Bt, ?Bc, ?Bd;
        reflexivity. }
  destruct Hgoal as (res & h & Hfst & Hshape).
  destruct (execute E config st0) as [r st'] eqn:Hrun. cbn [fst snd] in *.
  subst r. exists res, h, st'. split; [reflexivity|exact Hshape].
Qed.

End Run.

(** ** The step counter *)

(** The step counter for any budget, positive or not.  A run always returns.
    The returned [steps] lies between 0 and the larger of [maxSteps] and 0; it
    is the number of loop iterations, which are numbered 1, 2, ..., [steps];
    it is 0 only when the launch failed or [maxSteps] is not positive; and a
    run in which the launch did not fail and no [done] or [failed] decision
    arrived ends with [success = false], the fixed timeout reason and [steps]
    equal to the larger of [maxSteps] and 0. *)
Theorem execute_steps (E : Env) (config : TaskConfig) (w : World E) :
  exists res h st',
    execute E config (Build_St E w []) = (inl (res, h), st')
    /\ 0 <= steps res <= Z.max 0 (maxSteps config)
    /\ Trace.step_banners (trace st') = steps_upto (steps res)
    /\ (steps res = 0 ->
        Trace.launch_failed (trace st') = true \/ maxSteps config <= 0)
    /\ (Trace.launch_failed (trace st') = false ->
        Trace.terminal_decision (trace st') = false ->
        res = timed_out (Z.max 0 (maxSteps config))).
Proof.
  destruct (execute_shape E config w) as (res & h & st' & Hrun & Hshape).
  exists res, h, st'. split; [exact Hrun|].
  destruct Hshape as [Hl Ht Hs Hz Hh Hb Hc Hd|Hl Ht Hs Hb Hh Ha|Hl Ht Hs Hb Hh Ha].
  - rewrite Hz, Hb. repeat split; try lia; try reflexivity.
    + intros _. now left.
    + congruence.
  - repeat split; try lia; try assumption. congruence.
  - rewrite Hs in *. cbn [steps timed_out] in *.
    repeat split; try lia; try assumption.
Qed.

(** A budget of 0, which the contract of a run excludes and [execute] does
    not refuse: the application launches, the loop is not entered, and the run
    returns [steps = 0] with the timeout reason. *)
Lemma zero_budget_returns_zero_steps :
  exists st',
    Scenario.zero_budget = (inl (timed_out 0, ["launched"]), st')
    /\ Trace.launch_failed (trace st') = false
    /\ ~ (steps (timed_out 0) = 0 -> Trace.launch_failed (trace st') = true).
Proof.
  eexists. split; [vm_compute; reflexivity|]. split; [reflexivity|].
  intros H. specialize (H eq_refl). discriminate H.
Qed.

Lemma execute_steps_always_scroll :
  exists res h st',
    Scenario.always_scroll = (inl (res, h), st') /\ res = timed_out 5.
Proof.
  destruct (execute_steps Scripted.env (Scripted.foreground "scroll" 5)
              {| Scripted.flows := []; Scripted.captures := [];
                 Scripted.answers :=
                   repeat (inl (Scripted.decision "scroll" None "more" 10)) 5 |})
    as (res & h & st' & Hrun & _ & _ & _ & Hto).
  exists res, h, st'. split; [exact Hrun|].
  pose proof Hrun as Hc. vm_compute in Hc.
  injection Hc as Hres Hh Hst. subst st'.
  apply Hto; reflexivity.
Defined.

(** C1. With a step budget of at least 1, as the contract of a run has it.
    A run always returns; the returned [steps] lies between 0 and [maxSteps]
    inclusive, and it is 0 only when the launch failed.  The counter increases
    by exactly 1 per loop iteration: the iteration entered with the counter at
    [k] runs its body with [k + 1], goes on with [k + 1] or returns [k + 1] as
    [steps], and the iterations of a run are numbered 1, 2, ..., [steps].  A
    run in which the launch did not fail and no [done] or [failed] decision
    arrived ends with [success = false], the fixed timeout reason and
    [steps = maxSteps]. *)
Theorem steps_stay_within_the_budget (E : Env) (config : TaskConfig) (w : World E) :
  1 <= maxSteps config ->
  (exists res h st',
      execute E config (Build_St E w []) = (inl (res, h), st')
      /\ 0 <= steps res <= maxSteps config
      /\ (steps res = 0 -> Trace.launch_failed (trace st') = true)
      /\ Trace.step_banners (trace st') = steps_upto (steps res)
      /\ (Trace.launch_failed (trace st') = false ->
          Trace.terminal_decision (trace st') = false ->
          res = {| success := false; reason := "Timeout - max steps exceeded";
                   steps := maxSteps config |}))
  /\ (forall k h (st : St E),
         k < maxSteps config ->
         while_loop E config k h st
         = match loop_body E config (k + 1) h st with
           | (inl (Continue h'), st') => while_loop E config (k + 1) h' st'
           | (inl (Return r h'), st') => (inl (r, h'), st')
           | (inr e, st') => (inr e, st')
           end)
  /\ (forall k h (st : St E) r h' st',
         loop_body E config (k + 1) h st = (inl (Return r h'), st') ->
         steps r = k + 1).
Proof.
  intros Hbudget. split; [|split].
  - destruct (execute_shape E config w) as (res & h & st' & Hrun & Hshape).
    exists res, h, st'. split; [exact Hrun|].
    destruct Hshape as [Hl Ht Hs Hz Hh Hb Hc Hd|Hl Ht Hs Hb Hh Ha|Hl Ht Hs Hb Hh Ha].
    + rewrite Hz, Hb. split; [lia|]. split; [intros _; exact Hl|].
      split; [reflexivity|]. congruence.
    + split; [lia|]. split; [intros Hz; lia|]. split; [exact Hb|]. congruence.
    + rewrite Hs in *. cbn [steps timed_out] in *.
      rewrite Z.max_r in * by lia.
      split; [lia|]. split; [intros Hz; lia|]. split; [exact Hb|].
      intros _ _. reflexivity.
  - intros k h st Hlt. rewrite (while_loop_step E config k h st).
    destruct (Z_lt_dec k (maxSteps config)); [reflexivity|contradiction].
  - intros k h st r h' st' Hbody.
    destruct (loop_body_outcome E config (k + 1) h st) as (evs & _ & Hout).
    apply body_outcome_facts in Hout. destruct Hout as (_ & _ & _ & Hr).
    rewrite Hbody in Hr. cbn [fst] in Hr. now destruct Hr as (_ & Hs & _).
Qed.

Lemma steps_stay_within_the_budget_always_scroll :
  exists res h st',
    Scenario.always_scroll = (inl (res, h), st')
    /\ res = {| success := false; reason := "Timeout - max steps exceeded";
                steps := 5 |}.
Proof.
  destruct (steps_stay_within_the_budget Scripted.env (Scripted.foreground "scroll" 5)
              {| Scripted.flows := []; Scripted.captures := [];
                 Scripted.answers :=
                   repeat (inl (Scripted.decision "scroll" None "more" 10)) 5 |})
    as ((res & h & st' & Hrun & _ & _ & _ & Hto) & _); [cbn; lia|].
  exists res, h, st'. split; [exact Hrun|].
  pose proof Hrun as Hc. vm_compute in Hc.
  injection Hc as Hres Hh Hst. subst st'.
  apply Hto; reflexivity.
Defined.

(** ** A failed capture *)

(** C2, as the code has it.  When the capture of the iteration that runs with
    the counter [c + 1] fails, the iteration prints the warning, pauses 2000 ms
    and ends with the history unchanged; the loop goes back to its test with
    the counter at [c + 1]; if the budget allows another iteration, that one
    requests the capture with the next index, [c + 2]; otherwise the run times
    out with [steps = c + 1]. *)
Theorem capture_failure_moves_on (E : Env) (config : TaskConfig) (c : Z)
  (h : list string) (st : St E) (w : World E) (cause : string) :
  captureScreen E (world st) (c + 1) = (w, inr cause) ->
  c < maxSteps config ->
  let message := capture_error cause in
  let st1 := extend st w (capture_failed_events config (c + 1) cause) in
  capture_failed_events config (c + 1) cause
  = [EvConsole LogSeparator; EvConsole (LogStep (c + 1) (maxSteps config));
     EvConsole (SpinnerStart "Capturing screen...");
     EvScreenshot (c + 1) (inr message);
     EvConsole (SpinnerFail "Screenshot failed");
     EvConsole (LogWarning message); EvSleep 2000]
  /\ loop_body E config (c + 1) h st = (inl (Continue h), st1)
  /\ while_loop E config c h st = while_loop E config (c + 1) h st1
  /\ (c + 1 < maxSteps config ->
      exists ok evs,
        trace (snd (loop_body E config (c + 1 + 1) h st1)) = (trace st1 ++ evs)%list
        /\ Trace.capture_attempts evs = [(c + 1 + 1, ok)]
        /\ while_loop E config (c + 1) h st1
           = match loop_body E config (c + 1 + 1) h st1 with
             | (inl (Continue h'), st') => while_loop E config (c + 1 + 1) h' st'
             | (inl (Return r h'), st') => (inl (r, h'), st')
             | (inr e, st') => (inr e, st')
             end)
  /\ (~ c + 1 < maxSteps config ->
      while_loop E config c h st
      = (inl (timed_out (c + 1), h),
         extend st1 (world st1) [EvConsole LogMaxStepsReached])).
Proof.
  intros Hcap Hlt message st1.
  pose proof (loop_body_capture_fails E config (c + 1) h st w cause Hcap) as Hbody.
  fold st1 in Hbody.
  assert (Hloop : while_loop E config c h st = while_loop E config (c + 1) h st1).
  { rewrite (while_loop_step E config c h st).
    destruct (Z_lt_dec c (maxSteps config)); [|contradiction].
    now rewrite Hbody. }
  split; [reflexivity|]. split; [exact Hbody|]. split; [exact Hloop|]. split.
  - intros Hlt'.
    destruct (loop_body_outcome E config (c + 1 + 1) h st1) as (evs & Htr & Hout).
    apply body_outcome_facts in Hout. destruct Hout as (_ & (ok & Hcapt) & _).
    exists ok, evs. split; [exact Htr|]. split; [exact Hcapt|].
    rewrite (while_loop_step E config (c + 1) h st1).
    destruct (Z_lt_dec (c + 1) (maxSteps config)); [reflexivity|contradiction].
  - intros Hge. rewrite Hloop, (while_loop_step E config (c + 1) h st1).
    destruct (Z_lt_dec (c + 1) (maxSteps config)); [contradiction|reflexivity].
Qed.

Lemma capture_failure_moves_on_first_step :
  Trace.capture_attempts
    [EvScreenshot 1 (inr (capture_error "no device"))] = [(1, false)]
  /\ exists ok evs,
       Trace.capture_attempts evs = [(2, ok)]
       /\ loop_body Scripted.env (Scripted.foreground "tap button" 2) 1 ["ready"]
            (Scripted.start
               {| Scripted.flows := []; Scripted.captures := [inr "no device"];
                  Scripted.answers := [] |})
          = (inl (Continue ["ready"]),
             extend (Scripted.start
                       {| Scripted.flows := []; Scripted.captures := [inr "no device"];
                          Scripted.answers := [] |})
               Scenario.no_script
               (capture_failed_events (Scripted.foreground "tap button" 2) 1
                  "no device")).
Proof.
  split; [reflexivity|].
  destruct (capture_failure_moves_on Scripted.env
              (Scripted.foreground "tap button" 2) 0 ["ready"]
              (Scripted.start
                 {| Scripted.flows := []; Scripted.captures := [inr "no device"];
                    Scripted.answers := [] |})
              Scenario.no_script "no device" eq_refl eq_refl)
    as (_ & Hbody & _ & Hnext & _).
  destruct (Hnext eq_refl) as (ok & evs & _ & Hatt & _).
  exists ok, evs. split; [exact Hatt|exact Hbody].
Defined.

(** C2, as stated, fails: after the failed capture of step 1 the next capture
    is requested for step 2. *)
Lemma capture_retry_uses_next_index :
  Trace.capture_attempts (trace (snd Scenario.capture_retry))
  = [(1, false); (2, true)]
  /\ ~ retries_same_index (Trace.capture_attempts (trace (snd Scenario.capture_retry))).
Proof.
  assert (H : Trace.capture_attempts (trace (snd Scenario.capture_retry))
              = [(1, false); (2, true)]) by (vm_compute; reflexivity).
  split; [exact H|]. rewrite H. intros Hsame.
  specialize (Hsame 0%nat 1 2 true eq_refl eq_refl). discriminate Hsame.
Qed.

(** ** History and step counter *)

Lemma loop_head_invariant (E : Env) (config : TaskConfig) (w : World E)
  (k : Z) (h : list string) (st : St E) :
  loop_head E config w k h st -> loop_invariant E config k h st.
Proof.
  induction 1 as [h st Hstart|k h st h' st' Hhead IH Hlt Hbody].
  - unfold bind in Hstart. rewrite banner_run in Hstart.
    destruct (banner_quiet config) as (Bb & Bl & Bt & Bc & Bd).
    set (st1 := extend (Build_St E w []) w (banner_events config)) in *.
    destruct (init_run E config st1) as (evs & Htr & Hout).
    cbn [world] in Hstart. fold st1 in Hstart.
    rewrite Hstart in Htr, Hout. cbn [fst snd] in Htr, Hout.
    unfold loop_invariant. rewrite Htr. cbn [trace st1 extend app].
    rewrite step_banners_app, launch_failed_app, terminal_decision_app,
      capture_failures_app, decision_failures_app, Bb, Bl, Bt, Bc, Bd.
    inversion Hout; subst; cbn; repeat split; try reflexivity; try discriminate; lia.
  - pose proof (loop_invariant_body E config k h st IH Hlt) as Hnext.
    now rewrite Hbody in Hnext.
Qed.

(** C3, as the code has it.  At the head of the loop the number of entries
    appended after the initial marker is at most the counter and equals the
    counter minus the capture failures and the decision failures so far.  When
    the run returns it is again at most [steps]; it equals [steps] minus those
    failures when the run timed out or the launch failed, and one less when a
    [done] or [failed] decision ended the run, whose step is counted and
    appends nothing. *)
Theorem history_step_correspondence (E : Env) (config : TaskConfig) (w : World E) :
  (forall k h st,
      loop_head E config w k h st ->
      appended h <= k
      /\ appended h
         = k - Z.of_nat (Trace.capture_failures (trace st))
           - Z.of_nat (Trace.decision_failures (trace st)))
  /\ exists res h st',
       execute E config (Build_St E w []) = (inl (res, h), st')
       /\ appended h <= steps res
       /\ appended h
          = steps res - Z.of_nat (Trace.capture_failures (trace st'))
            - Z.of_nat (Trace.decision_failures (trace st'))
            - (if Trace.terminal_decision (trace st') then 1 else 0).
Proof.
  split.
  - intros k h st Hhead.
    destruct (loop_head_invariant E config w k h st Hhead)
      as (Hk & _ & _ & _ & Hne & Hlen).
    rewrite (appended_length h Hne). lia.
  - destruct (execute_shape E config w) as (res & h & st' & Hrun & Hshape).
    exists res, h, st'. split; [exact Hrun|].
    destruct Hshape as [Hl Ht Hs Hz Hh Hb Hc Hd|Hl Ht Hs Hb Hh Ha|Hl Ht Hs Hb Hh Ha];
      rewrite Ht.
    + subst h. rewrite Hz, Hc, Hd. cbn. lia.
    + lia.
    + lia.
Qed.

Lemma history_step_correspondence_later_head :
  exists st,
    loop_head Scripted.env (Scripted.foreground "tap button" 3)
      {| Scripted.flows := []; Scripted.captures := [inr "no device"];
         Scripted.answers :=
           [inl (Scripted.decision "tap" (Some (Scripted.coords 80 80))
                   "the button" 50)] |}
      2 ["ready"; "tap(80,80)"] st
    /\ Trace.capture_failures (trace st) = 1%nat
    /\ appended ["ready"; "tap(80,80)"]
       = 2 - Z.of_nat (Trace.capture_failures (trace st))
         - Z.of_nat (Trace.decision_failures (trace st)).
Proof.
  set (cfg := Scripted.foreground "tap button" 3).
  set (sc := {| Scripted.flows := []; Scripted.captures := [inr "no device"];
                Scripted.answers :=
                  [inl (Scripted.decision "tap" (Some (Scripted.coords 80 80))
                          "the button" 50)] |}).
  set (st0 := snd (bind Scripted.env (banner Scripted.env cfg)
                     (fun _ => init Scripted.env cfg)
                     (Build_St Scripted.env sc []))).
  set (st1 := snd (loop_body Scripted.env cfg (0 + 1) ["ready"] st0)).
  set (st2 := snd (loop_body Scripted.env cfg (0 + 1 + 1) ["ready"] st1)).
  assert (H0 : loop_head Scripted.env cfg sc 0 ["ready"] st0)
    by (apply head_first; vm_compute; reflexivity).
  assert (H1 : loop_head Scripted.env cfg sc (0 + 1) ["ready"] st1)
    by (apply (head_next Scripted.env cfg sc 0 ["ready"] st0);
        [exact H0|reflexivity|vm_compute; reflexivity]).
  assert (H2 : loop_head Scripted.env cfg sc (0 + 1 + 1) ["ready"; "tap(80,80)"] st2)
    by (apply (head_next Scripted.env cfg sc (0 + 1) ["ready"] st1);
        [exact H1|reflexivity|vm_compute; reflexivity]).
  exists st2. split; [exact H2|]. split; [vm_compute; reflexivity|].
  exact (proj2 (proj1 (history_step_correspondence Scripted.env cfg sc)
                  (0 + 1 + 1) ["ready"; "tap(80,80)"] st2 H2)).
Defined.

(** C3, as stated, fails at the exit through a [done] decision: the run
    returns [steps = 1] with no capture or decision failure and nothing
    appended after the marker. *)
Lemma done_at_once_appends_nothing :
  exists st',
    Scenario.done_at_once
    = (inl ({| success := true; reason := "nothing to do"; steps := 1 |}, ["ready"]),
       st')
    /\ Trace.capture_failures (trace st') = 0%nat
    /\ Trace.decision_failures (trace st') = 0%nat
    /\ appended ["ready"]
       <> 1 - Z.of_nat (Trace.capture_failures (trace st'))
          - Z.of_nat (Trace.decision_failures (trace st')).
Proof.
  eexists. split; [vm_compute; reflexivity|].
  split; [reflexivity|]. split; [reflexivity|]. discriminate.
Qed.

(** ** Failures that do not end the run *)

(** C6. When the translator throws for a decision that is neither [done] nor
    [failed], the iteration prints the warning, appends ["error"] to the
    history, pauses and ends normally, and the loop goes on to its test with
    that history.  No iteration throws and [execute] always returns a result:
    the run ends by timeout unless the launch failed, in which case it returns
    [success = false] with [steps = 0], or a [done] or [failed] decision
    arrived. *)
Theorem dispatch_failure_is_not_fatal (E : Env) (config : TaskConfig) :
  (forall k h d (st : St E) message st',
      action d <> "done" -> action d <> "failed" ->
      executeAction E config d (extend st (world st) (announced d))
      = (inr message, st') ->
      act E config k h d st
      = (inl (Continue (h ++ ["error"])),
         extend st' (world st')
           [EvConsole (LogActionFailed message); EvSleep 1500]))
  /\ (forall k h (st : St E), exists c st', loop_body E config k h st = (inl c, st'))
  /\ (forall c h (st : St E) h' st',
         c < maxSteps config ->
         loop_body E config (c + 1) h st = (inl (Continue h'), st') ->
         while_loop E config c h st = while_loop E config (c + 1) h' st')
  /\ (forall w, exists res h st',
         execute E config (Build_St E w []) = (inl (res, h), st')
         /\ (res = timed_out (Z.max 0 (maxSteps config))
             \/ Trace.launch_failed (trace st') = true
             \/ Trace.terminal_decision (trace st') = true)
         /\ (Trace.launch_failed (trace st') = true ->
             success res = false /\ steps res = 0)).
Proof.
  split; [|split; [|split]].
  - intros k h d st message st' Hd Hf Hexec.
    exact (act_dispatch E config k h d st (inr message) st' Hd Hf Hexec).
  - intros k h st.
    destruct (loop_body_outcome E config k h st) as (evs & _ & Hout).
    apply body_outcome_facts in Hout. destruct Hout as (_ & _ & _ & Hr).
    destruct (loop_body E config k h st) as [[c|e] st']; [|contradiction].
    now exists c, st'.
  - intros c h st h' st' Hlt Hbody.
    rewrite (while_loop_step E config c h st).
    destruct (Z_lt_dec c (maxSteps config)); [|contradiction].
    now rewrite Hbody.
  - intros w.
    destruct (execute_shape E config w) as (res & h & st' & Hrun & Hshape).
    exists res, h, st'. split; [exact Hrun|].
    destruct Hshape as [Hl Ht Hs Hz Hh Hb Hc Hd|Hl Ht Hs Hb Hh Ha|Hl Ht Hs Hb Hh Ha].
    + split; [now right; left|]. intros _. now split.
    + split; [now right; right|]. congruence.
    + split; [now left|]. congruence.
Qed.

Lemma dispatch_failure_is_not_fatal_failing_tap :
  fst (act Scripted.env (Scripted.foreground "tap button" 3) 1 ["ready"]
         (Scripted.decision "tap" None "the button" 50)
         (Scripted.start
            {| Scripted.flows := [Some "Element not found"];
               Scripted.captures := []; Scripted.answers := [] |}))
  = inl (Continue ["ready"; "error"]).
Proof.
  set (st := Scripted.start
               {| Scripted.flows := [Some "Element not found"];
                  Scripted.captures := []; Scripted.answers := [] |}).
  set (d := Scripted.decision "tap" None "the button" 50).
  destruct (dispatch_failure_is_not_fatal Scripted.env
              (Scripted.foreground "tap button" 3)) as (Hact & _).
  rewrite (Hact 1 ["ready"] d st
             (flow_error "Element not found")
             (extend st Scenario.no_script
                (announced d
                 ++ [EvFlow (Tap 50 50) (Some (flow_error "Element not found"))]))).
  - reflexivity.
  - discriminate.
  - discriminate.
  - reflexivity.
Defined.

(** ** Rationale and progress do not steer the run *)

Section NonInterference.

Context (E1 E2 : Env) (R : World E1 -> World E2 -> Prop) (config : TaskConfig).
Hypothesis Hsim : simulation E1 E2 R.

Lemma related_extend (st1 : St E1) (st2 : St E2) w1 w2 evs1 evs2 :
  related R st1 st2 -> R w1 w2 ->
  Trace.backend_calls evs1 = Trace.backend_calls evs2 ->
  related R (extend st1 w1 evs1) (extend st2 w2 evs2).
Proof.
  intros [_ Htr] Hw Hevs. split; [exact Hw|].
  cbn [trace extend]. unfold Trace.backend_calls in *.
  now rewrite !filter_app, Htr, Hevs.
Qed.

Lemma related_refresh (st1 : St E1) (st2 : St E2) evs1 evs2 :
  related R st1 st2 ->
  Trace.backend_calls evs1 = Trace.backend_calls evs2 ->
  related R (extend st1 (world st1) evs1) (extend st2 (world st2) evs2).
Proof. intros H. apply related_extend; [exact H|apply H]. Qed.

Lemma runMaestro_sim (c : MaestroCall) (st1 : St E1) (st2 : St E2) :
  related R st1 st2 ->
  exists r st1' st2',
    runMaestro E1 config c st1 = (r, st1')
    /\ runMaestro E2 config c st2 = (r, st2')
    /\ related R st1' st2'.
Proof.
  intros Hrel. unfold runMaestro, runFlow.
  destruct (sim_flow E1 E2 R Hsim (world st1) (world st2)
              (MaestroClient.flow_yaml (bundleId config) c) (proj1 Hrel))
    as [Hw Ho].
  destruct (execFlow E1 (world st1) _) as [w1 o1].
  destruct (execFlow E2 (world st2) _) as [w2 o2].
  cbn [fst snd] in Hw, Ho. subst o2.
  destruct o1 as [output|]; eexists _, _, _;
    (split; [reflexivity|split; [reflexivity|]]);
    rewrite !record_extend; now apply related_extend.
Qed.

Lemma executeAction_sim (d1 d2 : AgentDecision) (st1 : St E1) (st2 : St E2) :
  related R st1 st2 -> action d1 = action d2 -> params d1 = params d2 ->
  exists r st1' st2',
    executeAction E1 config d1 st1 = (r, st1')
    /\ executeAction E2 config d2 st2 = (r, st2')
    /\ related R st1' st2'.
Proof.
  intros Hrel Ha Hp. unfold executeAction. rewrite <- Ha, <- Hp.
  repeat match goal with
         | |- context [if ?b then _ else _] => destruct b
         end;
    try (now apply runMaestro_sim).
  - (* back *)
    unfold try_catch.
    destruct (runMaestro_sim Back st1 st2 Hrel) as (r & s1 & s2 & H1 & H2 & Hrel').
    rewrite H1, H2. destruct r as [[]|e].
    + now exists (inl tt), s1, s2.
    + now apply runMaestro_sim.
  - now exists (inl tt), st1, st2.
  - now exists (inl tt), st1, st2.
  - unfold log, emit. eexists _, _, _.
    split; [reflexivity|split; [reflexivity|]].
    rewrite !record_extend. now apply related_refresh.
Qed.

Lemma formatAction_same (d1 d2 : AgentDecision) :
  action d1 = action d2 -> params d1 = params d2 ->
  formatAction d1 = formatAction d2.
Proof. intros Ha Hp. unfold formatAction. now rewrite Ha, Hp. Qed.

Lemma act_sim k h (d1 d2 : AgentDecision) (st1 : St E1) (st2 : St E2) :
  related R st1 st2 -> same_control d1 d2 ->
  exists c1 c2 st1' st2',
    act E1 config k h d1 st1 = (inl c1, st1')
    /\ act E2 config k h d2 st2 = (inl c2, st2')
    /\ same_ctl c1 c2 /\ related R st1' st2'.
Proof.
  intros Hrel (Ha & Hp & _ & _).
  destruct (string_dec (action d1) "done") as [Hd|Hd].
  { rewrite (act_done E1 config k h d1 st1 Hd).
    rewrite (act_done E2 config k h d2 st2) by congruence.
    eexists _, _, _, _. split; [reflexivity|split; [reflexivity|]].
    split; [now cbn|]. now apply related_refresh. }
  destruct (string_dec (action d1) "failed") as [Hf|Hf].
  { rewrite (act_failed E1 config k h d1 st1 Hd Hf).
    rewrite (act_failed E2 config k h d2 st2) by congruence.
    eexists _, _, _, _. split; [reflexivity|split; [reflexivity|]].
    split; [now cbn|]. now apply related_refresh. }
  assert (Hrel0 : related R (extend st1 (world st1) (announced d1))
                            (extend st2 (world st2) (announced d2)))
    by now apply related_refresh.
  destruct (executeAction_sim d1 d2 _ _ Hrel0 Ha Hp)
    as (r & s1 & s2 & H1 & H2 & Hrel').
  rewrite (act_dispatch E1 config k h d1 st1 r s1 Hd Hf H1).
  rewrite (act_dispatch E2 config k h d2 st2 r s2) by congruence.
  destruct r as [[]|message]; eexists _, _, _, _;
    (split; [reflexivity|split; [reflexivity|]]).
  - split; [cbn; now rewrite (formatAction_same d1 d2 Ha Hp)|].
    now apply related_refresh.
  - split; [reflexivity|]. now apply related_refresh.
Qed.

Lemma loop_body_sim k h (st1 : St E1) (st2 : St E2) :
  related R st1 st2 ->
  exists c1 c2 st1' st2',
    loop_body E1 config k h st1 = (inl c1, st1')
    /\ loop_body E2 config k h st2 = (inl c2, st2')
    /\ same_ctl c1 c2 /\ related R st1' st2'.
Proof.
  intros Hrel.
  destruct (sim_capture E1 E2 R Hsim (world st1) (world st2) k (proj1 Hrel))
    as [Hw Hc].
  destruct (captureScreen E1 (world st1) k) as [w1 c1] eqn:Hcap1.
  destruct (captureScreen E2 (world st2) k) as [w2 c2] eqn:Hcap2.
  cbn [fst snd] in Hw, Hc. subst c2.
  destruct c1 as [image|cause].
  2:{ rewrite (loop_body_capture_fails E1 config k h st1 w1 cause Hcap1).
      rewrite (loop_body_capture_fails E2 config k h st2 w2 cause Hcap2).
      eexists _, _, _, _. split; [reflexivity|split; [reflexivity|]].
      split; [reflexivity|]. now apply related_extend. }
  destruct (sim_generate E1 E2 R Hsim w1 w2 (query_at config k h image) Hw)
    as [Hw' Hg].
  destruct (generate E1 w1 (query_at config k h image)) as [w1' g1] eqn:Hgen1.
  destruct (generate E2 w2 (query_at config k h image)) as [w2' g2] eqn:Hgen2.
  cbn [fst snd] in Hw', Hg.
  destruct g1 as [d1|m1], g2 as [d2|m2]; cbn in Hg; try contradiction.
  - rewrite (loop_body_decided E1 config k h st1 w1 image w1' d1 Hcap1 Hgen1).
    rewrite (loop_body_decided E2 config k h st2 w2 image w2' d2 Hcap2 Hgen2).
    apply act_sim; [|exact Hg]. now apply related_extend.
  - subst m2.
    rewrite (loop_body_decision_fails E1 config k h st1 w1 image w1' m1 Hcap1 Hgen1).
    rewrite (loop_body_decision_fails E2 config k h st2 w2 image w2' m1 Hcap2 Hgen2).
    eexists _, _, _, _. split; [reflexivity|split; [reflexivity|]].
    split; [reflexivity|]. now apply related_extend.
Qed.

Lemma while_loop_sim k h (st1 : St E1) (st2 : St E2) :
  related R st1 st2 ->
  exists res1 res2 h' st1' st2',
    while_loop E1 config k h st1 = (inl (res1, h'), st1')
    /\ while_loop E2 config k h st2 = (inl (res2, h'), st2')
    /\ success res1 = success res2 /\ steps res1 = steps res2
    /\ related R st1' st2'.
Proof.
  remember (Z.to_nat (maxSteps config - k)) as n eqn:Hn.
  revert k Hn h st1 st2. induction n as [n IH] using lt_wf_ind.
  intros k Hn h st1 st2 Hrel.
  rewrite (while_loop_step E1 config k h st1), (while_loop_step E2 config k h st2).
  destruct (Z_lt_dec k (maxSteps config)) as [Hlt|Hge].
  - destruct (loop_body_sim (k + 1) h st1 st2 Hrel)
      as (c1 & c2 & s1 & s2 & H1 & H2 & Hc & Hrel').
    rewrite H1, H2.
    destruct c1 as [h1|r1 h1], c2 as [h2|r2 h2]; cbn in Hc; try contradiction.
    + subst h2.
      apply (IH (Z.to_nat (maxSteps config - (k + 1)))); [lia|reflexivity|exact Hrel'].
    + destruct Hc as (Hs & Hk & ->).
      now exists r1, r2, h2, s1, s2.
  - eexists _, _, _, _, _. split; [reflexivity|split; [reflexivity|]].
    split; [reflexivity|split; [reflexivity|]]. now apply related_refresh.
Qed.

Lemma init_sim (st1 : St E1) (st2 : St E2) :
  related R st1 st2 ->
  exists c st1' st2',
    init E1 config st1 = (inl c, st1')
    /\ init E2 config st2 = (inl c, st2')
    /\ related R st1' st2'.
Proof.
  intros Hrel. unfold init, MaestroClient.hasBundleId.
  destruct (Js.truthy (bundleId config)) eqn:Hb.
  - unfold launch. rewrite Hb. cbn [negb].
    unfold spinnerStart, spinnerSucceed, spinnerFail, sleep, log.
    unfold emit, bind, try_catch, ret.
    cbv beta iota. rewrite ?record_extend.
    assert (Hrel0 : related R
              (extend st1 (world st1) [EvConsole (SpinnerStart "Launching app...")])
              (extend st2 (world st2) [EvConsole (SpinnerStart "Launching app...")]))
      by now apply related_refresh.
    destruct (runMaestro_sim Launch _ _ Hrel0) as (r & s1 & s2 & H1 & H2 & Hrel').
    unfold runMaestro in H1, H2. rewrite H1, H2.
    destruct r as [[]|message]; cbv beta iota;
      rewrite ?record_extend, ?extend_extend, ?world_extend;
      eexists _, _, _; (split; [reflexivity|split; [reflexivity|]]);
      now apply related_refresh.
  - unfold sleep, log, emit, bind, ret.
    repeat (cbv beta iota; rewrite ?record_extend, ?extend_extend, ?world_extend).
    eexists _, _, _. split; [reflexivity|split; [reflexivity|]].
    now apply related_refresh.
Qed.

Lemma execute_sim (w1 : World E1) (w2 : World E2) :
  R w1 w2 ->
  exists res1 res2 h st1 st2,
    execute E1 config (Build_St E1 w1 []) = (inl (res1, h), st1)
    /\ execute E2 config (Build_St E2 w2 []) = (inl (res2, h), st2)
    /\ success res1 = success res2 /\ steps res1 = steps res2
    /\ related R st1 st2.
Proof.
  intros Hw. unfold execute. unfold bind at 1 3. rewrite !banner_run.
  assert (Hrel0 : related R
            (extend (Build_St E1 w1 []) w1 (banner_events config))
            (extend (Build_St E2 w2 []) w2 (banner_events config))).
  { split; [exact Hw|reflexivity]. }
  cbn [world]. unfold bind.
  destruct (init_sim _ _ Hrel0) as (c & s1 & s2 & H1 & H2 & Hrel).
  rewrite H1, H2. destruct c as [h|r h].
  - now apply while_loop_sim.
  - now exists r, r, h, s1, s2.
Qed.

End NonInterference.

(** C9. Two runs of the same configuration, in environments that answer alike
    except for the rationale and the progress estimate of the decisions,
    issue the same calls to the device with the same outcomes, consume the
    same number of steps, return the same success flag and build the same
    history. *)
Theorem rationale_and_progress_do_not_steer (E1 E2 : Env)
  (R : World E1 -> World E2 -> Prop) (config : TaskConfig)
  (w1 : World E1) (w2 : World E2) :
  simulation E1 E2 R -> R w1 w2 ->
  exists res1 res2 h st1 st2,
    execute E1 config (Build_St E1 w1 []) = (inl (res1, h), st1)
    /\ execute E2 config (Build_St E2 w2 []) = (inl (res2, h), st2)
    /\ Trace.backend_calls (trace st1) = Trace.backend_calls (trace st2)
    /\ steps res1 = steps res2
    /\ success res1 = success res2.
Proof.
  intros Hsim Hw.
  destruct (execute_sim E1 E2 R config Hsim w1 w2 Hw)
    as (res1 & res2 & h & st1 & st2 & H1 & H2 & Hs & Hk & _ & Htr).
  exists res1, res2, h, st1, st2. auto.
Qed.

Lemma same_script_simulation : simulation Scripted.env Scripted.env same_script.
Proof.
  split.
  - intros [f1 c1 a1] [f2 c2 a2] yaml (Hf & Hc & Ha). cbn in *. subst f2 c2.
    destruct f1 as [|o f1]; cbn; (split; [|reflexivity]); now repeat split.
  - intros [f1 c1 a1] [f2 c2 a2] n (Hf & Hc & Ha). cbn in *. subst f2 c2.
    destruct c1 as [|o c1]; cbn; (split; [|reflexivity]); now repeat split.
  - intros [f1 c1 a1] [f2 c2 a2] q (Hf & Hc & Ha). cbn in *. subst f2 c2.
    destruct Ha as [|r1 r2 a1 a2 Hr Ha]; cbn.
    + split; [|reflexivity]. repeat split. constructor.
    + split; [|exact Hr]. now repeat split.
Qed.

Lemma terse_and_verbose_runs_agree :
  exists res1 res2 h st1 st2,
    Scripted.run (Scripted.foreground "add a note" 6) terse_script
    = (inl (res1, h), st1)
    /\ Scripted.run (Scripted.foreground "add a note" 6) verbose_script
       = (inl (res2, h), st2)
    /\ Trace.backend_calls (trace st1) = Trace.backend_calls (trace st2)
    /\ steps res1 = steps res2
    /\ success res1 = success res2.
Proof.
  apply (rationale_and_progress_do_not_steer Scripted.env Scripted.env same_script
           (Scripted.foreground "add a note" 6) terse_script verbose_script).
  - exact same_script_simulation.
  - split; [reflexivity|]. split; [reflexivity|].
    repeat constructor.
Defined.

(** ** The summary of a decision without parameters *)

(** C10. A decision whose [params] is absent is summarised by its bare kind:
    when the translator returns, that name is what the iteration appends to
    the history.  A [tap] without parameters is dispatched at (50,50) and
    recorded as [tap], which differs from [tap(50,50)] and does not start with
    [tap(], so the detector's mild rule does not count it. *)
Theorem absent_params_bare_summary (E : Env) (config : TaskConfig) :
  (forall a r p u v, formatAction (without_params a r p u v) = a)
  /\ (forall k h a r p u v (st st' : St E),
         a <> "done" -> a <> "failed" ->
         executeAction E config (without_params a r p u v)
           (extend st (world st) (announced (without_params a r p u v)))
         = (inl tt, st') ->
         act E config k h (without_params a r p u v) st
         = (inl (Continue (h ++ [a])), extend st' (world st') [EvSleep 1500]))
  /\ (forall r p u v,
         executeAction E config (without_params "tap" r p u v)
         = runMaestro E config (Tap 50 50))
  /\ "tap" <> "tap(50,50)"
  /\ is_tap_entry "tap" = false
  /\ is_tap_entry "tap(50,50)" = true
  /\ TaskAgent.detectStuckPattern ["tap"; "scroll"; "tap"] = None
  /\ TaskAgent.detectStuckPattern ["tap(50,50)"; "scroll"; "tap(50,50)"]
     = Some TaskAgent.mild_hint.
Proof.
  split; [reflexivity|]. split.
  - intros k h a r p u v st st' Hd Hf Hexec.
    exact (act_dispatch E config k h (without_params a r p u v) st (inl tt) st'
             Hd Hf Hexec).
  - repeat split; try reflexivity. discriminate.
Qed.

Lemma absent_params_bare_summary_tap :
  fst (act Scripted.env (Scripted.foreground "tap button" 3) 1 ["ready"]
         (without_params "tap" "the button" 50 None None)
         (Scripted.start Scenario.no_script))
  = inl (Continue ["ready"; "tap"]).
Proof.
  set (st := Scripted.start Scenario.no_script).
  set (d := without_params "tap" "the button" 50 None None).
  destruct (absent_params_bare_summary Scripted.env
              (Scripted.foreground "tap button" 3)) as (_ & Hact & _).
  unfold d.
  rewrite (Hact 1 ["ready"] "tap" "the button" 50 None None st
             (extend st Scenario.no_script
                (announced d ++ [EvFlow (Tap 50 50) None]))).
  - reflexivity.
  - discriminate.
  - discriminate.
  - reflexivity.
Defined.

(** ** The translator on concrete decisions *)

Lemma back_falls_back_once_on_failure :
  exists w' err,
    snd (executeAction Scripted.env (Scripted.foreground "go back" 3)
           (Scripted.decision "back" None "wrong screen" 10)
           (Scripted.start
              {| Scripted.flows := [Some "back is not supported"];
                 Scripted.captures := []; Scripted.answers := [] |}))
    = extend (Scripted.start
                {| Scripted.flows := [Some "back is not supported"];
                   Scripted.captures := []; Scripted.answers := [] |})
        w'
        [EvFlow Back (Some (flow_error "back is not supported"));
         EvFlow IosBackGesture err].
Proof.
  destruct (back_falls_back_once Scripted.env (Scripted.foreground "go back" 3)
              (Scripted.decision "back" None "wrong screen" 10)
              (Scripted.start
                 {| Scripted.flows := [Some "back is not supported"];
                    Scripted.captures := []; Scripted.answers := [] |})
              Scenario.no_script "back is not supported" eq_refl eq_refl)
    as (_ & (w' & err & Htr & _) & _).
  exists w', err. exact Htr.
Defined.

Lemma unknown_kind_is_a_no_op_teleport :
  Trace.backend_calls
    (trace (snd (executeAction Scripted.env (Scripted.foreground "go" 3)
                   (Scripted.decision "teleport" None "why not" 10)
                   (Scripted.start Scenario.no_script))))
  = [].
Proof.
  refine (proj1 (proj2
    (unknown_kind_is_a_no_op Scripted.env (Scripted.foreground "go" 3)
       (Scripted.decision "teleport" None "why not" 10)
       (Scripted.start Scenario.no_script) 1 ["ready"] _))).
  cbn. intros H.
  repeat (destruct H as [H|H]; [discriminate H|]). exact H.
Defined.

(** ** The scenarios of the specification *)

Example tap_then_done_result :
  fst Scenario.tap_then_done
  = inl ({| success := true; reason := "done"; steps := 2 |},
         ["ready"; "tap(80,80)"]).
Proof. vm_compute. reflexivity. Qed.

Example always_scroll_result :
  fst Scenario.always_scroll
  = inl (timed_out 5, ["ready"; "scroll"; "scroll"; "scroll"; "scroll"; "scroll"]).
Proof. vm_compute. reflexivity. Qed.

Example failing_tap_result :
  fst Scenario.failing_tap
  = inl ({| success := true; reason := "done"; steps := 2 |}, ["ready"; "error"]).
Proof. vm_compute. reflexivity. Qed.

Example failing_launch_result :
  fst Scenario.failing_launch
  = inl ({| success := false; reason := flow_error "App not installed"; steps := 0 |},
         []).
Proof. vm_compute. reflexivity. Qed.

(** * Further properties *)

(** ** Splitting a long text *)

Lemma slice0_length (n : nat) (s : string) :
  String.length (Js.slice0 n s) = Nat.min n (String.length s).
Proof.
  unfold Js.slice0. revert n.
  induction s as [|c s IH]; intros [|n]; cbn; try reflexivity.
  now rewrite IH.
Qed.

Lemma substring_all (s : string) : String.substring 0 (String.length s) s = s.
Proof. induction s as [|c s IH]; cbn; [reflexivity|]. now rewrite IH. Qed.

Lemma slice_from_length (n : nat) (s : string) :
  String.length (JsText.slice_from n s) = (String.length s - n)%nat.
Proof.
  unfold JsText.slice_from. revert n.
  induction s as [|c s IH]; intros [|n]; cbn [String.length String.substring Nat.sub];
    try reflexivity.
  - rewrite substring_all. reflexivity.
  - apply IH.
Qed.

Lemma slice_split (n : nat) (s : string) :
  Js.slice0 n s ++ JsText.slice_from n s = s.
Proof.
  unfold Js.slice0, JsText.slice_from. revert n.
  induction s as [|c s IH]; intros [|n]; cbn [String.length String.substring Nat.sub];
    try reflexivity.
  - cbn. now rewrite substring_all.
  - cbn. now rewrite IH.
Qed.

Lemma lastIndexOf_le (s search : string) (position i : nat) :
  JsText.lastIndexOf s search position = Some i -> (i <= position)%nat.
Proof.
  induction position as [|p IH]; cbn.
  - destruct (String.eqb _ _); [|discriminate]. intros [= <-]. lia.
  - destruct (String.eqb _ _); [intros [= <-]; lia|].
    intros H. specialize (IH H). lia.
Qed.

Lemma breakPoint_le (remaining : string) (maxSize : nat) :
  (Chunking.breakPoint remaining maxSize <= maxSize + 1)%nat.
Proof.
  unfold Chunking.breakPoint.
  destruct (JsText.lastIndexOf remaining ". " maxSize) as [i|] eqn:H1.
  - apply lastIndexOf_le in H1. lia.
  - destruct (JsText.lastIndexOf remaining " " maxSize) as [i|] eqn:H2.
    + apply lastIndexOf_le in H2. lia.
    + lia.
Qed.

Lemma breakPoint_pos (remaining : string) (maxSize : nat) :
  (1 <= maxSize)%nat -> (1 <= Chunking.breakPoint remaining maxSize)%nat.
Proof.
  intros Hm. unfold Chunking.breakPoint.
  destruct (JsText.lastIndexOf remaining ". " maxSize); [lia|].
  destruct (JsText.lastIndexOf remaining " " maxSize); lia.
Qed.

Lemma concat_empty_app (a b : list string) :
  String.concat "" (a ++ b) = String.concat "" a ++ String.concat "" b.
Proof.
  induction a as [|x a IH]; [reflexivity|].
  destruct a as [|y a].
  - cbn [app String.concat]. destruct b as [|z b]; cbn.
    + induction x; cbn; congruence.
    + reflexivity.
  - cbn [app String.concat] in *. rewrite IH.
    cbn [String.append]. now rewrite !string_app_assoc.
Qed.

Lemma smartChunk_loop_spec (maxSize : nat) :
  (1 <= maxSize)%nat ->
  forall fuel remaining chunks,
    (String.length remaining < fuel)%nat ->
    exists rest,
      Chunking.smartChunk_loop fuel remaining maxSize chunks = Some (chunks ++ rest)%list
      /\ String.concat "" rest = remaining
      /\ Forall (fun c => (1 <= String.length c <= maxSize + 1)%nat) rest
      /\ ((String.length remaining <= maxSize)%nat ->
          rest = if (0 <? String.length remaining)%nat then [remaining] else []).
Proof.
  intros Hm. induction fuel as [|fuel IH]; intros remaining chunks Hfuel; [lia|].
  cbn [Chunking.smartChunk_loop].
  destruct (0 <? String.length remaining)%nat eqn:Hpos.
  2:{ exists []. rewrite app_nil_r. apply Nat.ltb_ge in Hpos.
      destruct remaining; [|cbn in Hpos; lia].
      repeat split; auto. }
  apply Nat.ltb_lt in Hpos.
  destruct (String.length remaining <=? maxSize)%nat eqn:Hshort.
  { exists [remaining]. apply Nat.leb_le in Hshort.
    repeat split; auto. constructor; [lia|constructor]. }
  apply Nat.leb_gt in Hshort.
  pose proof (breakPoint_le remaining maxSize) as Hle.
  pose proof (breakPoint_pos remaining maxSize Hm) as Hge.
  set (bp := Chunking.breakPoint remaining maxSize) in *.
  destruct (IH (JsText.slice_from bp remaining)
              (chunks ++ [Js.slice0 bp remaining])%list)
    as (rest & Hrun & Hcat & Hall & _).
  { rewrite slice_from_length. lia. }
  exists (Js.slice0 bp remaining :: rest).
  rewrite Hrun, <- app_assoc. split; [reflexivity|]. split; [|split].
  - change (Js.slice0 bp remaining :: rest)
      with ([Js.slice0 bp remaining] ++ rest)%list.
    rewrite concat_empty_app, Hcat. cbn [String.concat]. apply slice_split.
  - constructor; [|exact Hall]. rewrite slice0_length. lia.
  - intros Hcontra. lia.
Qed.

(** X1. With a chunk size of at least 1, [smartChunk] ends and loses nothing:
    the chunks, joined without a separator, are the text.  No chunk is empty,
    and a chunk has at most [maxSize + 1] characters: the break after a blank
    found at index [maxSize] makes it one longer than the size asked for.  A
    text that fits is one chunk, and the empty text gives no chunk. *)
Theorem smartChunk_lossless (text : string) (maxSize : nat) :
  (1 <= maxSize)%nat ->
  exists chunks,
    Chunking.smartChunk text maxSize = Some chunks
    /\ String.concat "" chunks = text
    /\ Forall (fun c => (1 <= String.length c <= maxSize + 1)%nat) chunks
    /\ ((String.length text <= maxSize)%nat ->
        chunks = if (0 <? String.length text)%nat then [text] else [])
    /\ Chunking.smartChunk "abc def" 3 = Some ["abc "; "def"].
Proof.
  intros Hm.
  destruct (smartChunk_loop_spec maxSize Hm (S (String.length text)) text [])
    as (rest & Hrun & Hcat & Hall & Hfit); [lia|].
  exists rest. repeat split; auto.
Qed.

Lemma smartChunk_lossless_sentence :
  exists chunks,
    Chunking.smartChunk "Buy milk. Call mum. Pay rent" 12 = Some chunks
    /\ String.concat "" chunks = "Buy milk. Call mum. Pay rent".
Proof.
  destruct (smartChunk_lossless "Buy milk. Call mum. Pay rent" 12)
    as (chunks & Hrun & Hcat & _); [lia|].
  exists chunks. split; assumption.
Defined.

(** ** Typing a long text *)

Section LongTextProperties.

Context (E : Env) (bundleId : option string).

Lemma typed_app (a b : list Event) : typed (a ++ b) = typed a ++ typed b.
Proof.
  induction a as [|e a IH]; [reflexivity|].
  destruct e as [[] [m|]|n r|q r|ms|l]; cbn [app typed]; try exact IH.
  rewrite IH. symmetry. apply string_app_assoc.
Qed.

Lemma string_app_nil_r (s : string) : s ++ "" = s.
Proof. induction s as [|c s IH]; cbn; congruence. Qed.

Lemma runFlow_inputText (t : string) (st : St E) :
  (exists w,
      runFlow E bundleId (InputText t) st
      = (inl tt, extend st w [EvFlow (InputText t) None]))
  \/ (exists w message,
         runFlow E bundleId (InputText t) st
         = (inr message, extend st w [EvFlow (InputText t) (Some message)])).
Proof.
  unfold runFlow.
  destruct (execFlow E (world st) _) as [w [output|]].
  - right. eexists w, _. reflexivity.
  - left. exists w. reflexivity.
Qed.

Lemma inputChunks_spec (chunks : list string) (st : St E) :
  exists evs sent unsent,
    trace (snd (inputChunks E bundleId chunks st)) = (trace st ++ evs)%list
    /\ chunks = (sent ++ unsent)%list
    /\ typed evs = String.concat "" sent
    /\ match fst (inputChunks E bundleId chunks st) with
       | inl _ => unsent = []
       | inr message =>
           exists t before,
             evs = (before ++ [EvFlow (InputText t) (Some message)])%list
       end.
Proof.
  revert st. induction chunks as [|chunk rest IH]; intros st.
  - exists [], [], []. cbn. rewrite app_nil_r. auto.
  - destruct (runFlow_inputText chunk st) as [(w & Hrun)|(w & message & Hrun)].
    + set (st1 := extend st w [EvFlow (InputText chunk) None; EvSleep 150]).
      assert (Heq : inputChunks E bundleId (chunk :: rest) st
                    = inputChunks E bundleId rest st1).
      { cbn [inputChunks]. unfold bind at 1. rewrite Hrun.
        unfold bind at 1. unfold sleep, emit.
        now rewrite record_extend, extend_extend. }
      rewrite Heq.
      destruct (IH st1) as (evs & sent & unsent & Htr & Hsplit & Htyped & Hres).
      exists ([EvFlow (InputText chunk) None; EvSleep 150] ++ evs)%list,
        (chunk :: sent), unsent.
      split; [rewrite Htr; cbn [trace st1 extend]; now rewrite <- app_assoc|].
      split; [cbn; now rewrite Hsplit|]. split.
      * rewrite typed_app. cbn [typed]. rewrite Htyped.
        change (chunk :: sent) with ([chunk] ++ sent)%list.
        rewrite concat_empty_app. cbn [String.concat].
        rewrite string_app_nil_r. reflexivity.
      * destruct (fst (inputChunks E bundleId rest st1)) as [[]|m]; [exact Hres|].
        destruct Hres as (t & before & Hevs). subst evs.
        exists t, ([EvFlow (InputText chunk) None; EvSleep 150] ++ before)%list.
        now rewrite <- app_assoc.
    + assert (Heq : inputChunks E bundleId (chunk :: rest) st
                    = (inr message,
                       extend st w [EvFlow (InputText chunk) (Some message)])).
      { cbn [inputChunks]. unfold bind at 1. now rewrite Hrun. }
      rewrite Heq.
      exists [EvFlow (InputText chunk) (Some message)], [], (chunk :: rest).
      cbn [fst snd trace extend]. repeat split. now exists chunk, [].
Qed.

(** X3. With a chunk size of at least 1, [inputLongText] types the text in
    order and never beyond it: what its successful flows have typed is a
    prefix of the text, and the whole text when it returns.  When it throws,
    the failed flow is the last thing it did: no later chunk is sent. *)
Theorem inputLongText_types_a_prefix (text : string) (chunkSize : nat) :
  (1 <= chunkSize)%nat ->
  exists m,
    inputLongText E bundleId text chunkSize = Some m
    /\ forall st, exists evs,
         trace (snd (m st)) = (trace st ++ evs)%list
         /\ (exists rest, text = typed evs ++ rest)
         /\ match fst (m st) with
            | inl _ => typed evs = text
            | inr message =>
                exists t before,
                  evs = (before ++ [EvFlow (InputText t) (Some message)])%list
            end.
Proof.
  intros Hsize. unfold inputLongText.
  destruct (String.length text <=? chunkSize)%nat.
  - eexists. split; [reflexivity|]. intros st.
    destruct (runFlow_inputText text st) as [(w & Hrun)|(w & message & Hrun)];
      rewrite Hrun; cbn [fst snd trace extend].
    + exists [EvFlow (InputText text) None]. split; [reflexivity|].
      cbn [typed]. rewrite string_app_nil_r.
      split; [exists ""; now rewrite string_app_nil_r|reflexivity].
    + exists [EvFlow (InputText text) (Some message)]. split; [reflexivity|].
      split; [now exists text|]. now exists text, [].
  - destruct (smartChunk_loop_spec chunkSize Hsize (S (String.length text)) text [])
      as (chunks & Hchunks & Hcat & _); [lia|].
    cbn [app] in Hchunks. unfold Chunking.smartChunk. rewrite Hchunks. eexists. split; [reflexivity|]. intros st.
    destruct (inputChunks_spec chunks st)
      as (evs & sent & unsent & Htr & Hsplit & Htyped & Hres).
    exists evs. split; [exact Htr|]. split.
    + exists (String.concat "" unsent).
      rewrite Htyped, <- concat_empty_app, <- Hsplit. now symmetry.
    + destruct (fst (inputChunks E bundleId chunks st)) as [[]|message];
        [|exact Hres].
      subst unsent. rewrite app_nil_r in Hsplit. subst sent.
      now rewrite Htyped.
Qed.

End LongTextProperties.

Lemma inputLongText_types_a_prefix_two_chunks :
  exists m,
    inputLongText Scripted.env None "Buy milk. Call mum" 10 = Some m
    /\ typed (trace (snd (m (Scripted.start Scenario.no_script))))
       = "Buy milk. Call mum".
Proof.
  destruct (inputLongText_types_a_prefix Scripted.env None "Buy milk. Call mum" 10)
    as (m & Hm & Hspec); [lia|].
  exists m. split; [exact Hm|].
  vm_compute in Hm. injection Hm as <-. reflexivity.
Defined.



(** ** Escaping *)

Lemma string_length_app (s t : string) :
  String.length (s ++ t) = (String.length s + String.length t)%nat.
Proof. induction s as [|c s IH]; cbn; [reflexivity|]. now rewrite IH. Qed.

Lemma string_app_inv_head (p s t : string) : p ++ s = p ++ t -> s = t.
Proof. induction p as [|c p IH]; cbn; [auto|]. intros [= H]. auto. Qed.

Lemma string_app_inv_tail (s1 s2 t : string) : s1 ++ t = s2 ++ t -> s1 = s2.
Proof.
  revert s2. induction s1 as [|c s1 IH]; intros [|d s2] H; cbn in H.
  - reflexivity.
  - apply (f_equal String.length) in H. cbn in H. rewrite string_length_app in H. lia.
  - apply (f_equal String.length) in H. cbn in H. rewrite string_length_app in H. lia.
  - injection H as -> H. f_equal. now apply IH.
Qed.

Lemma escape_quotes_head (s rest : string) :
  Js.escape_quotes s <> String (ascii_of_nat 34) rest.
Proof.
  destruct s as [|c s]; cbn [Js.escape_quotes]; [discriminate|].
  destruct (Ascii.eqb_spec c (ascii_of_nat 34)) as [->|Hc].
  - discriminate.
  - intros [= H _]. contradiction.
Qed.

Lemma escape_quotes_injective (s1 s2 : string) :
  Js.escape_quotes s1 = Js.escape_quotes s2 -> s1 = s2.
Proof.
  revert s2. induction s1 as [|c1 s1 IH]; intros [|c2 s2]; cbn [Js.escape_quotes].
  - reflexivity.
  - destruct (Ascii.eqb c2 (ascii_of_nat 34)); discriminate.
  - destruct (Ascii.eqb c1 (ascii_of_nat 34)); discriminate.
  - destruct (Ascii.eqb_spec c1 (ascii_of_nat 34)) as [->|H1],
             (Ascii.eqb_spec c2 (ascii_of_nat 34)) as [->|H2].
    + intros [= H]. f_equal. now apply IH.
    + intros [= <- H]. symmetry in H. now apply escape_quotes_head in H.
    + intros [= -> H]. now apply escape_quotes_head in H.
    + intros [= -> H]. f_equal. now apply IH.
Qed.

(** X4. Escaping the quotes of a text loses nothing: two texts with the same
    [inputText] document, or the same [tapText] document, are the same text. *)
Theorem text_documents_are_injective (bundleId : option string) (t1 t2 : string) :
  (MaestroClient.flow_yaml bundleId (InputText t1)
   = MaestroClient.flow_yaml bundleId (InputText t2) -> t1 = t2)
  /\ (MaestroClient.flow_yaml bundleId (TapText t1)
      = MaestroClient.flow_yaml bundleId (TapText t2) -> t1 = t2).
Proof.
  split; intros H; cbn [MaestroClient.flow_yaml] in H;
    unfold MaestroClient.quoted in H;
    repeat (apply string_app_inv_head in H);
    apply string_app_inv_tail in H; now apply escape_quotes_injective.
Qed.

Lemma text_documents_are_injective_same_text :
  "say " ++ Js.dq ++ "hi" ++ Js.dq = "say " ++ Js.dq ++ "hi" ++ Js.dq.
Proof.
  exact (proj1 (text_documents_are_injective None
                  ("say " ++ Js.dq ++ "hi" ++ Js.dq)
                  ("say " ++ Js.dq ++ "hi" ++ Js.dq)) eq_refl).
Defined.

Lemma in_chars_app (c : ascii) (s t : string) :
  In c (list_ascii_of_string (s ++ t))
  <-> In c (list_ascii_of_string s) \/ In c (list_ascii_of_string t).
Proof.
  induction s as [|d s IH]; cbn.
  - tauto.
  - rewrite IH. tauto.
Qed.

Lemma escape_newlines_no_line_feed (s : string) :
  ~ In line_feed (list_ascii_of_string (JsText.escape_newlines s)).
Proof.
  induction s as [|c s IH]; cbn [JsText.escape_newlines list_ascii_of_string];
    [cbn; tauto|].
  destruct (Ascii.eqb_spec c (ascii_of_nat 10)) as [->|Hc];
    cbn [list_ascii_of_string In].
  - intros [H|[H|H]]; [discriminate H|discriminate H|contradiction].
  - intros [H|H]; [|contradiction]. apply Hc. exact H.
Qed.

(** X5. Whatever the text, the part of the [pasteText] document that follows
    the header is a single line: no line feed of the text reaches it. *)
Theorem pasteText_is_one_line (bundleId : option string) (text : string) :
  pasteText_yaml bundleId text
  = MaestroClient.buildYamlHeader bundleId ++ pasteText_line text
  /\ ~ In line_feed (list_ascii_of_string (pasteText_line text)).
Proof.
  split; [reflexivity|].
  unfold pasteText_line, MaestroClient.quoted.
  rewrite !in_chars_app. intros [H|[H|[H|H]]].
  - cbn in H. repeat (destruct H as [H|H]; [discriminate H|]). exact H.
  - cbn in H. destruct H as [H|H]; [discriminate H|exact H].
  - now apply escape_newlines_no_line_feed in H.
  - cbn in H. destruct H as [H|H]; [discriminate H|exact H].
Qed.

(** ** The account of a run *)

Section Account.

Variable config : TaskConfig.

Lemma action_events_flat_map {A} (f : Event -> list A) (evs : list Event) :
  (forall e, is_action_event e = true -> f e = []) ->
  forallb is_action_event evs = true -> flat_map f evs = [].
Proof.
  intros Hf. induction evs as [|e evs IH]; cbn [forallb flat_map]; [reflexivity|].
  intros H. apply andb_prop in H. destruct H as [He Hevs].
  now rewrite (Hf e He), (IH Hevs).
Qed.

Lemma action_events_silent (evs : list Event) :
  forallb is_action_event evs = true ->
  Observe.launches evs = 0%nat
  /\ Observe.capture_steps evs = []
  /\ Observe.captured_steps evs = []
  /\ Observe.decide_steps evs = []
  /\ Observe.decide_histories evs = []
  /\ Observe.answered evs = []
  /\ Observe.pauses evs = [].
Proof.
  intros H. split.
  { unfold Observe.launches.
    destruct (action_events_filter Observe.is_launch evs) as [-> _]; auto.
    intros [[] err|n r|q r|ms|[]]; try discriminate; reflexivity. }
  repeat split; apply action_events_flat_map; auto;
    intros [c err|n r|q r|ms|[]]; try discriminate; reflexivity.
Qed.

Lemma total_sleep_app (a b : list Event) :
  Observe.total_sleep (a ++ b) = Observe.total_sleep a + Observe.total_sleep b.
Proof.
  unfold Observe.total_sleep, Observe.pauses. rewrite flat_map_app.
  induction (flat_map _ a) as [|x l IH]; cbn [app fold_right]; lia.
Qed.

Lemma is_terminal_false (d : AgentDecision) :
  action d <> "done" -> action d <> "failed" -> is_terminal d = false.
Proof. apply not_terminal. Qed.

Ltac account_events :=
  unfold Observe.launches, Observe.capture_steps, Observe.captured_steps,
    Observe.decide_steps, Observe.decide_histories, Observe.answered,
    Observe.total_sleep, Observe.pauses,
    Trace.capture_failures, Trace.decision_failures, Trace.launch_failed,
    capture_failed_events, decision_failed_events, decided_events,
    captured_events, opening, announced, query_at, context_at;
  rewrite ?filter_app, ?existsb_app, ?flat_map_app, ?length_app;
  cbn [filter existsb flat_map app List.length fold_right
       Observe.is_launch Trace.is_capture_failure Trace.is_decision_failure
       Trace.is_launch_failure orb
       qContext stepNumber actionHistory].

Lemma body_account k h r evs :
  body_outcome config k h r evs ->
  Observe.launches evs = 0%nat
  /\ Trace.launch_failed evs = false
  /\ Observe.capture_steps evs = [k]
  /\ Observe.decide_steps evs = Observe.captured_steps evs
  /\ Forall (fun asked => asked = h) (Observe.decide_histories evs)
  /\ match r with
     | inl (Continue h') =>
         forallb (fun d => negb (is_terminal d)) (Observe.answered evs) = true
         /\ (h' = h \/ exists e, h' = (h ++ [e])%list /\ known_entry evs e)
         /\ Observe.total_sleep evs
            = 2000 * Z.of_nat (Trace.capture_failures evs
                               + Trace.decision_failures evs)
              + 1500 * (Z.of_nat (List.length h') - Z.of_nat (List.length h))
     | inl (Return res h') =>
         h' = h /\ Observe.total_sleep evs = 0
         /\ Trace.capture_failures evs = 0%nat
         /\ Trace.decision_failures evs = 0%nat
         /\ exists d,
              Observe.answered evs = [d] /\ is_terminal d = true
              /\ res = {| success := String.eqb (action d) "done";
                          reason := reasoning d; steps := k |}
     | inr _ => False
     end.
Proof.
  intros H.
  destruct H as [cause|image message|image d Hd|image d Hd Hf
                |image d evs0 Hd Hf Hevs|image d evs0 message Hd Hf Hevs].
  - account_events. repeat split; try reflexivity; auto. lia.
  - account_events. repeat split; try reflexivity; auto. lia.
  - account_events. repeat split; try reflexivity; auto.
    exists d. unfold is_terminal. rewrite Hd. repeat split.
  - account_events. repeat split; try reflexivity; auto.
    exists d. unfold is_terminal. rewrite Hf.
    destruct (String.eqb_spec (action d) "done"); [contradiction|]. repeat split.
  - destruct (action_events_silent evs0 Hevs) as (Hl & Hc & Hcd & Hds & Hdh & Ha & Hp).
    destruct (action_events_quiet evs0 Hevs) as (Hcf & Hdf & Hlf & _).
    assert (Hknown : known_entry
              (decided_events config k h image d ++ announced d ++ evs0
               ++ [EvSleep 1500]) (formatAction d)).
    { right. exists d. split; [|split; [now apply is_terminal_false|reflexivity]].
      unfold Observe.answered, decided_events. rewrite !flat_map_app.
      apply in_or_app. left. apply in_or_app. right. cbn. now left. }
    revert Hknown.
    unfold Observe.launches, Observe.capture_steps, Observe.captured_steps,
      Observe.decide_steps, Observe.decide_histories, Observe.answered,
      Observe.pauses, Trace.capture_failures, Trace.decision_failures,
      Trace.launch_failed in Hl, Hc, Hcd, Hds, Hdh, Ha, Hp, Hcf, Hdf, Hlf.
    intros Hknown. account_events.
    apply length_zero_iff_nil in Hcf, Hdf.
    rewrite ?Hc, ?Hcd, ?Hds, ?Hdh, ?Ha, ?Hp, ?Hcf, ?Hdf, ?Hlf, ?Hl.
    cbn [app List.length fold_right forallb andb orb].
    rewrite (is_terminal_false d Hd Hf).
    repeat split; try reflexivity; auto.
    + right. exists (formatAction d). split; [reflexivity|exact Hknown].
    + lia.
  - destruct (action_events_silent evs0 Hevs) as (Hl & Hc & Hcd & Hds & Hdh & Ha & Hp).
    destruct (action_events_quiet evs0 Hevs) as (Hcf & Hdf & Hlf & _).
    unfold Observe.launches, Observe.capture_steps, Observe.captured_steps,
      Observe.decide_steps, Observe.decide_histories, Observe.answered,
      Observe.pauses, Trace.capture_failures, Trace.decision_failures,
      Trace.launch_failed in Hl, Hc, Hcd, Hds, Hdh, Ha, Hp, Hcf, Hdf, Hlf.
    account_events.
    apply length_zero_iff_nil in Hcf, Hdf.
    rewrite ?Hc, ?Hcd, ?Hds, ?Hdh, ?Ha, ?Hp, ?Hcf, ?Hdf, ?Hlf, ?Hl.
    cbn [app List.length fold_right forallb andb orb].
    rewrite (is_terminal_false d Hd Hf).
    repeat split; try reflexivity; auto.
    + right. exists "error". split; [reflexivity|now left].
    + lia.
Qed.

End Account.

Section RunAccount.

Context (E : Env) (config : TaskConfig).

Lemma launches_app (a b : list Event) :
  Observe.launches (a ++ b) = (Observe.launches a + Observe.launches b)%nat.
Proof. unfold Observe.launches. now rewrite filter_app, length_app. Qed.

Lemma known_entry_app_l (a b : list Event) (e : string) :
  known_entry a e -> known_entry (a ++ b) e.
Proof.
  intros [->|(d & Hin & Ht & ->)]; [now left|]. right. exists d.
  split; [|now split]. unfold Observe.answered in *. rewrite flat_map_app.
  apply in_or_app. now left.
Qed.

Lemma known_entry_app_r (a b : list Event) (e : string) :
  known_entry b e -> known_entry (a ++ b) e.
Proof.
  intros [->|(d & Hin & Ht & ->)]; [now left|]. right. exists d.
  split; [|now split]. unfold Observe.answered in *. rewrite flat_map_app.
  apply in_or_app. now right.
Qed.

Lemma prefix_of_refl (h : list string) : prefix_of h h.
Proof. exists []. now rewrite app_nil_r. Qed.

Lemma prefix_of_snoc (a h : list string) (e : string) :
  prefix_of a h -> prefix_of a (h ++ [e]).
Proof. intros (suffix & ->). exists (suffix ++ [e])%list. now rewrite app_assoc. Qed.

Lemma init_cases (st : St E) :
  (Js.truthy (bundleId config) = false
   /\ init E config st
      = (inl (Continue ["ready"]), extend st (world st) ready_events))
  \/ (Js.truthy (bundleId config) = true
      /\ exists w,
           init E config st
           = (inl (Continue ["launched"]), extend st w launched_events))
  \/ (Js.truthy (bundleId config) = true
      /\ exists w output,
           init E config st
           = (inl (Return {| success := false; reason := flow_error output;
                             steps := 0 |} []),
              extend st w (launch_failed_events (flow_error output)))).
Proof.
  unfold init, MaestroClient.hasBundleId.
  destruct (Js.truthy (bundleId config)) eqn:Hb.
  - right. unfold launch. rewrite Hb. cbn [negb].
    unfold spinnerStart, spinnerSucceed, spinnerFail, sleep, log, runFlow.
    unfold emit, bind, try_catch, ret.
    cbv beta iota. rewrite ?record_extend, ?world_extend.
    destruct (execFlow E (world st) _) as [w [output|]];
      repeat (cbv beta iota; rewrite ?record_extend, ?extend_extend, ?world_extend).
    + right. split; [reflexivity|]. now exists w, output.
    + left. split; [reflexivity|]. now exists w.
  - left. split; [reflexivity|].
    unfold sleep, log, emit, bind, ret.
    now repeat (cbv beta iota; rewrite ?record_extend, ?extend_extend, ?world_extend).
Qed.

Lemma banner_silent :
  Observe.launches (banner_events config) = 0%nat
  /\ Observe.capture_steps (banner_events config) = []
  /\ Observe.captured_steps (banner_events config) = []
  /\ Observe.decide_steps (banner_events config) = []
  /\ Observe.decide_histories (banner_events config) = []
  /\ Observe.answered (banner_events config) = []
  /\ Observe.total_sleep (banner_events config) = 0.
Proof.
  unfold banner_events.
  destruct (iosDevice config); [|destruct (Js.truthy (deviceId config))];
    repeat split; reflexivity.
Qed.

Lemma loop_account_start (w w' : World E) (evs : list Event) :
  (Js.truthy (bundleId config) = false /\ evs = ready_events
   \/ Js.truthy (bundleId config) = true /\ evs = launched_events) ->
  loop_account E config 0 [marker config]
    (extend (extend (Build_St E w []) w (banner_events config)) w' evs).
Proof.
  intros Hevs.
  destruct banner_silent as (Bl & Bc & Bcd & Bds & Bdh & Ba & Bs).
  destruct (banner_quiet config) as (_ & Blf & _ & Bcf & Bdf).
  rewrite extend_extend.
  destruct Hevs as [[Hb ->]|[Hb ->]];
    (split; cbn [trace extend app];
     unfold Observe.capture_steps, Observe.captured_steps, Observe.decide_steps,
       Observe.decide_histories, Observe.answered in *;
     rewrite ?launches_app, ?flat_map_app, ?launch_failed_app, ?total_sleep_app,
       ?capture_failures_app, ?decision_failures_app,
       ?Bl, ?Bc, ?Bcd, ?Bds, ?Bdh, ?Ba, ?Bs, ?Blf, ?Bcf, ?Bdf, ?Hb;
     unfold marker; rewrite ?Hb;
     try reflexivity; try (cbn; lia);
     try (exists []; split; [reflexivity|constructor]);
     try constructor).
Qed.

Lemma loop_account_body k h (st : St E) :
  loop_account E config k h st -> k < maxSteps config ->
  match loop_body E config (k + 1) h st with
  | (inl (Continue h'), st') => loop_account E config (k + 1) h' st'
  | (inl (Return r h'), st') => returns_account E config (inl (r, h'), st')
  | (inr e, st') => returns_account E config (inr e, st')
  end.
Proof.
  intros [Hk Hc Hd Hl Hlf (entries & Hh & Hentries) Hp Hs Hnt] Hlt.
  destruct (loop_body_outcome E config (k + 1) h st) as (evs & Htr & Hout).
  pose proof (body_outcome_facts config _ _ _ _ Hout) as (_ & _ & _ & Hfacts).
  apply body_account in Hout.
  destruct Hout as (Bl & Blf & Bc & Bd & Bh & Hr).
  assert (Hcaps : Observe.capture_steps (trace st ++ evs) = steps_upto (k + 1)).
  { unfold Observe.capture_steps in *. rewrite flat_map_app, Hc, Bc.
    symmetry. apply steps_upto_succ. lia. }
  assert (Hdecs : Observe.decide_steps (trace st ++ evs)
                  = Observe.captured_steps (trace st ++ evs)).
  { unfold Observe.decide_steps, Observe.captured_steps in *.
    now rewrite !flat_map_app, Hd, Bd. }
  assert (Hlaunch : Observe.launches (trace st ++ evs)
                    = if Js.truthy (bundleId config) then 1%nat else 0%nat).
  { rewrite launches_app, Hl, Bl. lia. }
  assert (Hnofail : Trace.launch_failed (trace st ++ evs) = false).
  { now rewrite launch_failed_app, Hlf, Blf. }
  destruct (loop_body E config (k + 1) h st) as [[[h'|r h']|e] st'];
    cbn [fst snd] in *; [| |contradiction].
  - destruct Hr as (Hnt' & Hgrow & Hsleep).
    destruct Hfacts as (_ & Hle & Hlen).
    split; rewrite ?Htr; auto.
    + lia.
    + destruct Hgrow as [->|(e & -> & Hknown)].
      * exists entries. split; [exact Hh|].
        eapply Forall_impl; [|exact Hentries]. intros a. apply known_entry_app_l.
      * exists (entries ++ [e])%list. split; [now rewrite Hh|].
        apply Forall_app. split.
        -- eapply Forall_impl; [|exact Hentries]. intros a. apply known_entry_app_l.
        -- constructor; [now apply known_entry_app_r|constructor].
    + unfold Observe.decide_histories in *. rewrite flat_map_app.
      apply Forall_app. split.
      * eapply Forall_impl; [|exact Hp]. intros a Ha.
        destruct Hgrow as [->|(e & -> & _)]; [exact Ha|now apply prefix_of_snoc].
      * eapply Forall_impl; [|exact Bh]. intros a ->.
        destruct Hgrow as [->|(e & -> & _)]; [apply prefix_of_refl|].
        apply prefix_of_snoc, prefix_of_refl.
    + rewrite total_sleep_app, Hs, Hsleep, capture_failures_app,
        decision_failures_app.
      assert (Hne : h <> []) by (rewrite Hh; discriminate).
      assert (Hne' : h' <> []).
      { destruct Hgrow as [->|(e & -> & _)]; [exact Hne|].
        destruct h; [contradiction|discriminate]. }
      rewrite (appended_length h Hne), (appended_length h' Hne'). lia.
    + unfold Observe.answered in *. rewrite flat_map_app, forallb_app, Hnt.
      exact Hnt'.
  - destruct Hr as (-> & Hsleep & Hcf & Hdf & d & Ha & Hterm & ->).
    exists {| success := String.eqb (action d) "done"; reason := reasoning d;
              steps := k + 1 |}, h.
    split; [reflexivity|]. cbn [snd]. rewrite Htr.
    apply (account_returned _ _ _ _ (Observe.answered (trace st)) d); auto.
    + unfold Observe.answered in *. now rewrite flat_map_app, Ha.
    + cbn [steps]. lia.
    + split; auto.
      * now exists entries; split;
          [|eapply Forall_impl; [|exact Hentries]; intros a;
            apply known_entry_app_l].
      * unfold Observe.decide_histories in *. rewrite flat_map_app.
        apply Forall_app. split; [exact Hp|].
        eapply Forall_impl; [|exact Bh]. intros a ->. apply prefix_of_refl.
      * rewrite total_sleep_app, Hs, Hsleep, capture_failures_app,
          decision_failures_app, Hcf, Hdf. lia.
Qed.

Lemma loop_account_exit k h (st : St E) :
  loop_account E config k h st -> ~ k < maxSteps config ->
  returns_account E config
    (inl (timed_out k, h), extend st (world st) [EvConsole LogMaxStepsReached]).
Proof.
  intros [Hk Hc Hd Hl Hlf (entries & Hh & Hentries) Hp Hs Hnt] Hge.
  exists (timed_out k), h. split; [reflexivity|]. cbn [snd trace extend].
  apply account_timed_out.
  - unfold Observe.answered in *. rewrite flat_map_app, forallb_app, Hnt.
    reflexivity.
  - f_equal. lia.
  - split; cbn [steps timed_out].
    + unfold Observe.capture_steps in *. rewrite flat_map_app, Hc. cbn.
      apply app_nil_r.
    + unfold Observe.decide_steps, Observe.captured_steps in *.
      now rewrite !flat_map_app, Hd.
    + rewrite launches_app, Hl. cbn. lia.
    + now rewrite launch_failed_app, Hlf.
    + exists entries. split; [exact Hh|].
      eapply Forall_impl; [|exact Hentries]. intros a. apply known_entry_app_l.
    + unfold Observe.decide_histories in *. rewrite flat_map_app.
      apply Forall_app. split; [exact Hp|constructor].
    + rewrite total_sleep_app, Hs, capture_failures_app, decision_failures_app.
      change (Observe.total_sleep [EvConsole LogMaxStepsReached]) with 0.
      change (Trace.capture_failures [EvConsole LogMaxStepsReached]) with 0%nat.
      change (Trace.decision_failures [EvConsole LogMaxStepsReached]) with 0%nat.
      lia.
Qed.

(** Every run returns, with its account. *)
Lemma execute_account (w : World E) :
  exists res h st',
    execute E config (Build_St E w []) = (inl (res, h), st')
    /\ run_account config res h (trace st').
Proof.
  set (st0 := Build_St E w []).
  assert (Hgoal : returns_account E config (execute E config st0)).
  { unfold execute. unfold bind at 1. rewrite banner_run. unfold bind.
    cbn [world st0].
    destruct (init_cases (extend st0 w (banner_events config)))
      as [(Hb & Hinit)|[(Hb & w' & Hinit)|(Hb & w' & output & Hinit)]];
      rewrite Hinit.
    - apply while_loop_rule with (P := loop_account E config).
      + apply loop_account_body.
      + apply loop_account_exit.
      + replace ["ready"] with [marker config] by (unfold marker; now rewrite Hb).
        apply loop_account_start. now left.
    - apply while_loop_rule with (P := loop_account E config).
      + apply loop_account_body.
      + apply loop_account_exit.
      + replace ["launched"] with [marker config] by (unfold marker; now rewrite Hb).
        apply loop_account_start. now right.
    - eexists _, _. split; [reflexivity|]. cbn [snd ret].
      apply (account_launch_failed _ _ _ _ output); auto. }
  destruct Hgoal as (res & h & Hfst & Hacc).
  destruct (execute E config st0) as [r st'] eqn:Hrun. cbn [fst snd] in *.
  subst r. now exists res, h, st'.
Qed.

End RunAccount.

(** ** What a finished run shows *)

Lemma answered_last (ds1 ds2 ds : list AgentDecision) (d d0 : AgentDecision) :
  (ds1 ++ d :: ds2 = ds ++ [d0])%list ->
  forallb (fun d => negb (is_terminal d)) ds = true ->
  is_terminal d = true ->
  ds2 = [] /\ ds1 = ds /\ d = d0.
Proof.
  intros Heq Hds Hd.
  destruct ds2 as [|x ds2 _] using rev_ind.
  - apply app_inj_tail in Heq. destruct Heq as [-> ->]. auto.
  - rewrite app_comm_cons, app_assoc in Heq.
    apply app_inj_tail in Heq. destruct Heq as [<- _].
    rewrite forallb_app in Hds. apply andb_prop in Hds. destruct Hds as [_ Hds].
    cbn in Hds. rewrite Hd in Hds. discriminate.
Qed.

Lemma nonterminal_all (ds : list AgentDecision) (d : AgentDecision) :
  forallb (fun d => negb (is_terminal d)) ds = true -> In d ds ->
  is_terminal d = false.
Proof.
  intros Hds Hin. rewrite forallb_forall in Hds. apply Hds in Hin.
  now apply negb_true_iff in Hin.
Qed.

Lemma done_is_terminal (d : AgentDecision) : action d = "done" -> is_terminal d = true.
Proof. intros H. unfold is_terminal. now rewrite H. Qed.




(** X6. A run returns [success = true] exactly when a decision of kind [done]
    was received.  A run receives at most one decision of kind [done] or
    [failed]: such a decision is the last one received, every earlier one is
    of another kind, and its rationale is the reason of the result. *)
Theorem result_follows_the_terminal_decision (E : Env) (config : TaskConfig)
  (w : World E) :
  exists res h st',
    execute E config (Build_St E w []) = (inl (res, h), st')
    /\ (success res = true
        <-> exists d, In d (Observe.answered (trace st')) /\ action d = "done")
    /\ (forall ds1 d ds2,
           Observe.answered (trace st') = (ds1 ++ d :: ds2)%list ->
           is_terminal d = true ->
           ds2 = []
           /\ forallb (fun d => negb (is_terminal d)) ds1 = true
           /\ reason res = reasoning d
           /\ success res = String.eqb (action d) "done").
Proof.
  destruct (execute_account E config w) as (res & h & st' & Hrun & Hacc).
  exists res, h, st'. split; [exact Hrun|].
  destruct Hacc as [output Hb -> -> Htr|ds d0 Ha Hds Hd0 Hres Hk _|Hnt -> _].
  - assert (Hnone : Observe.answered (trace st') = []).
    { rewrite Htr. unfold Observe.answered. rewrite flat_map_app.
      destruct (banner_silent config) as (_ & _ & _ & _ & _ & Hb0 & _).
      unfold Observe.answered in Hb0. now rewrite Hb0. }
    rewrite Hnone. split.
    + split; [discriminate|]. intros (d & [] & _).
    + intros ds1 d ds2 Heq. destruct ds1; discriminate Heq.
  - rewrite Ha, Hres. cbn [success reason]. split.
    + split.
      * intros Hs. exists d0. split; [apply in_or_app; right; now left|].
        now apply String.eqb_eq.
      * intros (d & Hin & Hdone). apply in_app_or in Hin.
        destruct Hin as [Hin|[<-|[]]].
        -- pose proof (nonterminal_all ds d Hds Hin) as Hn.
           rewrite (done_is_terminal d Hdone) in Hn. discriminate.
        -- now apply String.eqb_eq.
    + intros ds1 d ds2 Heq Hd.
      destruct (answered_last ds1 ds2 ds d d0 (eq_sym Heq) Hds Hd) as (-> & -> & ->).
      auto.
  - cbn [success reason timed_out]. split.
    + split; [discriminate|]. intros (d & Hin & Hdone).
      pose proof (nonterminal_all _ d Hnt Hin) as Hn.
      rewrite (done_is_terminal d Hdone) in Hn. discriminate.
    + intros ds1 d ds2 Heq Hd.
      assert (Hin : In d (Observe.answered (trace st'))).
      { rewrite Heq. apply in_or_app. right. now left. }
      pose proof (nonterminal_all _ d Hnt Hin) as Hn. congruence.
Qed.

Lemma result_follows_the_terminal_decision_tap_then_done :
  exists res h st',
    Scenario.tap_then_done = (inl (res, h), st') /\ success res = true.
Proof.
  destruct (result_follows_the_terminal_decision Scripted.env
              (Scripted.foreground "tap button" 3)
              {| Scripted.flows := []; Scripted.captures := [];
                 Scripted.answers :=
                   [inl (Scripted.decision "tap" (Some (Scripted.coords 80 80))
                           "the button" 50);
                    inl (Scripted.decision "done" None "done" 100)] |})
    as (res & h & st' & Hrun & Hsuccess & _).
  exists res, h, st'. split; [exact Hrun|].
  apply Hsuccess.
  pose proof Hrun as Hc. vm_compute in Hc. injection Hc as _ _ <-.
  exists (Scripted.decision "done" None "done" 100).
  split; [|reflexivity]. cbn. right. now left.
Defined.



(** X8. Every loop iteration requests one capture, with the counter as its
    index: the capture requests of a run carry the indices 1, 2, ..., [steps].
    A decision is requested exactly after each capture that succeeded, with
    the same step number. *)
Theorem captures_are_numbered (E : Env) (config : TaskConfig) (w : World E) :
  exists res h st',
    execute E config (Build_St E w []) = (inl (res, h), st')
    /\ Observe.capture_steps (trace st') = steps_upto (steps res)
    /\ Observe.decide_steps (trace st') = Observe.captured_steps (trace st').
Proof.
  destruct (execute_account E config w) as (res & h & st' & Hrun & Hacc).
  exists res, h, st'. split; [exact Hrun|].
  destruct Hacc as [output Hb -> -> Htr|ds d0 Ha Hds Hd0 Hres Hk Hbody|Hnt Hres Hbody].
  - rewrite Htr.
    destruct (banner_silent config) as (_ & Bc & Bcd & Bds & _).
    unfold Observe.capture_steps, Observe.captured_steps, Observe.decide_steps in *.
    rewrite !flat_map_app, Bc, Bcd, Bds. split; reflexivity.
  - destruct Hbody. now split.
  - destruct Hbody. now split.
Qed.

(** X9. The history of a run whose launch failed is empty.  Otherwise it
    begins with [launched] when an application is configured and with [ready]
    when none is, and every later entry is [error] or the summary of a
    received decision that was not [done] or [failed].  The history is only
    ever extended: the history sent with each decision request is a prefix of
    the final one. *)
Theorem history_is_append_only (E : Env) (config : TaskConfig) (w : World E) :
  exists res h st',
    execute E config (Build_St E w []) = (inl (res, h), st')
    /\ (if Trace.launch_failed (trace st')
        then h = []
        else exists entries,
               h = marker config :: entries
               /\ Forall (known_entry (trace st')) entries)
    /\ Forall (fun asked => prefix_of asked h)
         (Observe.decide_histories (trace st')).
Proof.
  destruct (execute_account E config w) as (res & h & st' & Hrun & Hacc).
  exists res, h, st'. split; [exact Hrun|].
  destruct Hacc as [output Hb -> -> Htr|ds d0 Ha Hds Hd0 Hres Hk Hbody|Hnt Hres Hbody].
  - rewrite Htr.
    destruct (banner_silent config) as (_ & _ & _ & _ & Bdh & _).
    destruct (banner_quiet config) as (_ & Blf & _).
    unfold Observe.decide_histories in *.
    rewrite launch_failed_app, Blf, flat_map_app, Bdh. cbn. split; constructor.
  - destruct Hbody as [_ _ _ Hlf Hh Hp _]. rewrite Hlf. now split.
  - destruct Hbody as [_ _ _ Hlf Hh Hp _]. rewrite Hlf. now split.
Qed.

(** X10. The pauses of a run add up to the settle delay (3000 ms after a
    launch, 1000 ms without one), 2000 ms for each failed capture and each
    failed decision request, and 1500 ms for each entry appended to the
    history; a run whose launch failed does not pause. *)
Theorem pauses_add_up (E : Env) (config : TaskConfig) (w : World E) :
  exists res h st',
    execute E config (Build_St E w []) = (inl (res, h), st')
    /\ Observe.total_sleep (trace st')
       = if Trace.launch_failed (trace st') then 0
         else (if Js.truthy (bundleId config) then 3000 else 1000)
              + 2000 * Z.of_nat (Trace.capture_failures (trace st')
                                 + Trace.decision_failures (trace st'))
              + 1500 * appended h.
Proof.
  destruct (execute_account E config w) as (res & h & st' & Hrun & Hacc).
  exists res, h, st'. split; [exact Hrun|].
  destruct Hacc as [output Hb -> -> Htr|ds d0 Ha Hds Hd0 Hres Hk Hbody|Hnt Hres Hbody].
  - rewrite Htr.
    destruct (banner_silent config) as (_ & _ & _ & _ & _ & _ & Bs).
    destruct (banner_quiet config) as (_ & Blf & _).
    rewrite launch_failed_app, Blf, total_sleep_app, Bs. reflexivity.
  - destruct Hbody as [_ _ _ Hlf _ _ Hs]. now rewrite Hlf.
  - destruct Hbody as [_ _ _ Hlf _ _ Hs]. now rewrite Hlf.
Qed.

(** ** More on the translator and the summaries *)

Section TranslatorAccount.

Context (E : Env) (config : TaskConfig).

Lemma runMaestro_cases (c : MaestroCall) (st : St E) :
  (exists w, runMaestro E config c st = (inl tt, extend st w [EvFlow c None]))
  \/ (exists w message,
         runMaestro E config c st
         = (inr message, extend st w [EvFlow c (Some message)])).
Proof.
  unfold runMaestro, runFlow.
  destruct (execFlow E (world st) _) as [w [output|]].
  - right. eexists w, _. reflexivity.
  - left. exists w. reflexivity.
Qed.

Ltac one_flow c st :=
  destruct (runMaestro_cases c st) as [(w & ->)|(w & message & ->)];
  cbn [fst snd trace extend];
  [eexists; split; [reflexivity|]; right; left; now exists c
  |eexists; split; [reflexivity|]; left; exists c; split; [reflexivity|discriminate]].

(** X11. What [executeAction] does to the device, for any decision: nothing,
    or one flow, or, for [back] only, the failed [back] flow followed by the
    edge swipe.  It throws exactly when the last flow it ran failed, with that
    flow's message: when [back] and the swipe both fail, the error of the
    swipe is the one thrown. *)
Theorem executeAction_flows (d : AgentDecision) (st : St E) :
  exists evs,
    trace (snd (executeAction E config d st)) = (trace st ++ evs)%list
    /\ match fst (executeAction E config d st) with
       | inr message =>
           (exists c, evs = [EvFlow c (Some message)] /\ c <> Back)
           \/ (exists m, action d = "back"
                         /\ evs = [EvFlow Back (Some m);
                                   EvFlow IosBackGesture (Some message)])
       | inl _ =>
           evs = [] /\ (action d = "launchApp" \/ action d = "stopApp")
           \/ (exists c, evs = [EvFlow c None])
           \/ (exists m, action d = "back"
                         /\ evs = [EvFlow Back (Some m); EvFlow IosBackGesture None])
           \/ evs = [EvConsole (LogUnknownAction (action d))]
              /\ ~ In (action d)
                   ["tap"; "tapText"; "doubleTap"; "longPress"; "inputText";
                    "eraseText"; "scroll"; "swipe"; "back"; "hideKeyboard";
                    "openLink"; "pressKey"; "wait"; "launchApp"; "stopApp"]
       end.
Proof.
  unfold executeAction.
  repeat match goal with
         | |- context [if String.eqb ?a ?b then _ else _] =>
             destruct (String.eqb_spec a b)
         | |- context [if Js.truthy ?o then _ else _] => destruct (Js.truthy o)
         end;
    try match goal with
        | |- context [runMaestro E config ?c st] =>
            lazymatch c with
            | Back => fail
            | _ => one_flow c st
            end
        end.
  - (* back *)
    unfold try_catch.
    destruct (runMaestro_cases Back st) as [(w & ->)|(w & m & ->)].
    + cbn [fst snd trace extend]. eexists. split; [reflexivity|].
      right. left. now exists Back.
    + destruct (runMaestro_cases IosBackGesture
                  (extend st w [EvFlow Back (Some m)]))
        as [(w' & ->)|(w' & message & ->)];
        rewrite extend_extend; cbn [fst snd trace extend app];
        (eexists; split; [reflexivity|]).
      * right. right. left. now exists m.
      * right. now exists m.
  - exists []. cbn. rewrite app_nil_r. split; [reflexivity|]. left. auto.
  - exists []. cbn. rewrite app_nil_r. split; [reflexivity|]. left. auto.
  - eexists. split; [reflexivity|]. right. right. right. split; [reflexivity|].
    cbn. intuition congruence.
Qed.

(** X12. A [launchApp] or [stopApp] decision whose [appId] is missing or empty
    reaches the device with nothing, yet the iteration ends normally and
    appends its summary to the history, as it does for an action that was
    carried out: with an empty identifier the entry is the kind followed by
    an empty pair of quotes. *)
Theorem app_switch_without_id_is_recorded (k : Z) (h : list string)
  (d : AgentDecision) (st : St E) :
  action d = "launchApp" \/ action d = "stopApp" ->
  Js.truthy (appId (Js.nullish (params d) empty_params)) = false ->
  act E config k h d st
  = (inl (Continue (h ++ [formatAction d])),
     extend st (world st) (announced d ++ [EvSleep 1500]))
  /\ (forall p, params d = Some p -> appId p = Some "" ->
      formatAction d = action d ++ "(" ++ Js.dq ++ Js.dq ++ ")").
Proof.
  intros Hkind Hid.
  assert (Hexec : forall s, executeAction E config d s = (inl tt, s)).
  { intros s. unfold executeAction.
    destruct Hkind as [Ha|Ha]; rewrite Ha; cbn [String.eqb Ascii.eqb Bool.eqb];
      rewrite Hid; reflexivity. }
  split.
  - rewrite (act_dispatch E config k h d st (inl tt)
               (extend st (world st) (announced d))); [| | |apply Hexec].
    + now rewrite extend_extend.
    + destruct Hkind as [Ha|Ha]; rewrite Ha; discriminate.
    + destruct Hkind as [Ha|Ha]; rewrite Ha; discriminate.
  - intros p Hp Hempty. unfold formatAction. rewrite Hp, Hempty.
    destruct Hkind as [Ha|Ha]; rewrite Ha; reflexivity.
Qed.

End TranslatorAccount.

Lemma app_switch_without_id_is_recorded_launchApp :
  fst (act Scripted.env (Scripted.foreground "open mail" 3) 1 ["ready"]
         (with_empty_params "launchApp" "open the mail app" 10 None None)
         (Scripted.start Scenario.no_script))
  = inl (Continue ["ready";
                   "launchApp(" ++ Js.dq ++ "undefined" ++ Js.dq ++ ")"]).
Proof.
  rewrite (proj1 (app_switch_without_id_is_recorded Scripted.env
                    (Scripted.foreground "open mail" 3) 1 ["ready"]
                    (with_empty_params "launchApp" "open the mail app" 10 None None)
                    (Scripted.start Scenario.no_script)
                    (or_introl eq_refl) eq_refl)).
  reflexivity.
Defined.

Lemma prefix_empty (s : string) : String.prefix "" s = true.
Proof. now destruct s. Qed.

(** X13. Among the kinds of the vocabulary, the summaries that the detector's
    mild rule counts as taps are exactly those of a [tap] with a [params]
    object: [doubleTap], [longPress] and [tapText] are never counted, and
    neither is a [tap] without [params]. *)
Theorem tap_entries_are_taps_with_params (d : AgentDecision) :
  In (action d) vocabulary ->
  (is_tap_entry (formatAction d) = true
   <-> action d = "tap" /\ params d <> None).
Proof.
  intros Hin. unfold is_tap_entry, Js.startsWith, formatAction.
  cbn [In vocabulary] in Hin.
  repeat (destruct Hin as [Ha|Hin]; [symmetry in Ha|]); try contradiction;
    rewrite Ha; destruct (params d) as [p|];
    cbn [String.eqb Ascii.eqb Bool.eqb orb String.append String.prefix];
    repeat match goal with
           | |- context [ascii_dec ?a ?b] => destruct (ascii_dec a b); try discriminate
           end;
    rewrite ?prefix_empty;
    split; try discriminate; try (intros [H1 H2]; congruence);
    try (intros _; split; [reflexivity|discriminate]).
Qed.

Lemma tap_entries_are_taps_with_params_double_tap :
  is_tap_entry
    (formatAction (Scripted.decision "doubleTap" (Some (Scripted.coords 10 20))
                     "zoom" 10)) = true
  <-> "doubleTap" = "tap" /\ Some (Scripted.coords 10 20) <> None.
Proof.
  apply (tap_entries_are_taps_with_params
           (Scripted.decision "doubleTap" (Some (Scripted.coords 10 20)) "zoom" 10)).
  cbn. tauto.
Defined.

(** X14. The summary of a [tapText] or [inputText] decision keeps 20
    characters of the text.  Three such decisions in a row whose texts agree
    on their first 20 characters therefore have the same summary, and the
    detector reports them as one action tried 3 times. *)
Theorem long_texts_look_repeated (a : string) (pre : list string)
  (d1 d2 d3 : AgentDecision) (p1 p2 p3 : AgentParams) :
  a = "tapText" \/ a = "inputText" ->
  action d1 = a -> action d2 = a -> action d3 = a ->
  params d1 = Some p1 -> params d2 = Some p2 -> params d3 = Some p3 ->
  option_map (Js.slice0 20) (text p1) = option_map (Js.slice0 20) (text p2) ->
  option_map (Js.slice0 20) (text p2) = option_map (Js.slice0 20) (text p3) ->
  formatAction d1 = formatAction d2
  /\ formatAction d2 = formatAction d3
  /\ TaskAgent.detectStuckPattern
       (pre ++ [formatAction d1; formatAction d2; formatAction d3])
     = Some (TaskAgent.strong_hint (formatAction d1)).
Proof.
  intros Ha H1 H2 H3 P1 P2 P3 T12 T23.
  assert (F12 : formatAction d1 = formatAction d2).
  { unfold formatAction. rewrite H1, H2, P1, P2.
    destruct Ha as [-> | ->]; cbn [String.eqb Ascii.eqb Bool.eqb orb];
      now rewrite T12. }
  assert (F23 : formatAction d2 = formatAction d3).
  { unfold formatAction. rewrite H2, H3, P2, P3.
    destruct Ha as [-> | ->]; cbn [String.eqb Ascii.eqb Bool.eqb orb];
      now rewrite T23. }
  split; [exact F12|]. split; [exact F23|].
  rewrite <- F23, <- F12, detect_three, detect_exactly_three.
  unfold trailing_three_hint. cbn [rev app].
  now rewrite String.eqb_refl.
Qed.

Lemma long_texts_look_repeated_notes :
  TaskAgent.detectStuckPattern
    ["ready";
     "inputText(" ++ Js.dq ++ "Remember to buy milk" ++ Js.dq ++ ")";
     "inputText(" ++ Js.dq ++ "Remember to buy milk" ++ Js.dq ++ ")";
     "inputText(" ++ Js.dq ++ "Remember to buy milk" ++ Js.dq ++ ")"]
  = Some (TaskAgent.strong_hint
            ("inputText(" ++ Js.dq ++ "Remember to buy milk" ++ Js.dq ++ ")")).
Proof.
  set (p := fun t : string =>
              {| x := None; y := None; text := Some t; startX := None;
                 startY := None; endX := None; endY := None; key := None;
                 url := None; chars := None; timeout := None; appId := None |}).
  set (d := fun t : string => Scripted.decision "inputText" (Some (p t)) "type" 10).
  exact (proj2 (proj2
    (long_texts_look_repeated "inputText" ["ready"]
       (d "Remember to buy milk") (d "Remember to buy milk and eggs")
       (d "Remember to buy milk, eggs and bread")
       (p "Remember to buy milk") (p "Remember to buy milk and eggs")
       (p "Remember to buy milk, eggs and bread")
       (or_intror eq_refl) eq_refl eq_refl eq_refl eq_refl eq_refl eq_refl
       eq_refl eq_refl))).
Defined.

(** ** The request of [decide] and the extraction of its answer *)

Lemma from_first_open_skips (pre rest : string) :
  ~ In "{"%char (list_ascii_of_string pre) ->
  Conversation.from_first_open (pre ++ String "{" rest) = Some (String "{" rest).
Proof.
  induction pre as [|c pre IH]; intros Hno.
  - reflexivity.
  - cbn [String.append Conversation.from_first_open].
    destruct (Ascii.eqb_spec c "{") as [->|Hc].
    + exfalso. apply Hno. now left.
    + apply IH. intros Hin. apply Hno. now right.
Qed.

Lemma upto_last_close_none (s : string) :
  ~ In "}"%char (list_ascii_of_string s) ->
  Conversation.upto_last_close s = None.
Proof.
  induction s as [|c s IH]; intros Hno; [reflexivity|].
  cbn [Conversation.upto_last_close].
  rewrite IH by (intros Hin; apply Hno; now right).
  destruct (Ascii.eqb_spec c "}") as [->|Hc]; [|reflexivity].
  exfalso. apply Hno. now left.
Qed.

Lemma upto_last_close_keeps (s post : string) :
  ~ In "}"%char (list_ascii_of_string post) ->
  Conversation.upto_last_close (s ++ String "}" post) = Some (s ++ "}").
Proof.
  intros Hno. induction s as [|c s IH].
  - cbn [String.append Conversation.upto_last_close].
    now rewrite (upto_last_close_none post Hno).
  - cbn [String.append Conversation.upto_last_close]. now rewrite IH.
Qed.

Lemma from_first_open_none (s : string) :
  ~ In "{"%char (list_ascii_of_string s) -> Conversation.from_first_open s = None.
Proof.
  induction s as [|c s IH]; intros Hno; [reflexivity|].
  cbn [Conversation.from_first_open].
  destruct (Ascii.eqb_spec c "{") as [->|Hc].
  - exfalso. apply Hno. now left.
  - apply IH. intros Hin. apply Hno. now right.
Qed.

(** X15. What [decide] takes out of the response of the model: when the
    response is an object in braces, preceded by a text without an opening
    brace and followed by a text without a closing brace, the object is what
    is parsed, whatever stands between its braces.  A response without an
    opening brace, or without a closing brace, has no match. *)
Theorem jsonMatch_extracts_the_object (pre body post : string) :
  ~ In "{"%char (list_ascii_of_string pre) ->
  ~ In "}"%char (list_ascii_of_string post) ->
  Conversation.jsonMatch (pre ++ "{" ++ body ++ "}" ++ post)
  = Some ("{" ++ body ++ "}")
  /\ Conversation.jsonMatch pre = None
  /\ Conversation.jsonMatch post = None.
Proof.
  intros Hpre Hpost. split; [|split].
  - unfold Conversation.jsonMatch. cbn [String.append].
    rewrite (from_first_open_skips pre _ Hpre).
    exact (upto_last_close_keeps (String "{" body) post Hpost).
  - unfold Conversation.jsonMatch. now rewrite (from_first_open_none pre Hpre).
  - unfold Conversation.jsonMatch.
    destruct (Conversation.from_first_open post) as [t|] eqn:Ht; [|reflexivity].
    apply upto_last_close_none. intros Hin. apply Hpost.
    clear Hpre. revert t Ht Hin. induction post as [|c post IH]; intros t Ht Hin.
    + discriminate Ht.
    + cbn [Conversation.from_first_open] in Ht.
      destruct (Ascii.eqb c "{").
      * injection Ht as <-. exact Hin.
      * right. apply (IH (fun H => Hpost (or_intror H)) t Ht Hin).
Qed.

Lemma jsonMatch_extracts_the_object_fenced :
  Conversation.jsonMatch
    ("Here you go: " ++ "{" ++ "action: done" ++ "}" ++ " Good luck!")
  = Some ("{" ++ "action: done" ++ "}").
Proof.
  refine (proj1 (jsonMatch_extracts_the_object "Here you go: " "action: done"
                   " Good luck!" _ _));
    cbn; intros H; repeat (destruct H as [H|H]; [discriminate H|]); exact H.
Defined.

Section ConversationProperties.

Variable LM : Conversation.LanguageModel.
Variable parse : string -> AgentDecision + string.
Variable model : string.

Lemma slice_last_length {A} (n : nat) (l : list A) :
  List.length (Js.slice_last n l) = Nat.min n (List.length l).
Proof. unfold Js.slice_last. rewrite length_skipn. lia. Qed.

Lemma trimmed_length (history : list Conversation.ModelMessage) :
  (List.length (Conversation.trimmed history) <= 10)%nat
  /\ (List.length (Conversation.trimmed history) <= List.length history)%nat.
Proof.
  unfold Conversation.trimmed.
  destruct (10 <? List.length history)%nat eqn:H.
  - rewrite slice_last_length. apply Nat.ltb_lt in H. lia.
  - apply Nat.ltb_ge in H. lia.
Qed.

Lemma decide_history (screenshot task : string) (context : AgentContext)
  (a : Conversation.AgentState LM) :
  let request :=
    Conversation.requestMessages screenshot context
      (Conversation.conversationHistory LM a) in
  let after :=
    Conversation.conversationHistory LM
      (snd (Conversation.decide LM parse model screenshot task context a)) in
  after = request
  \/ exists text, after = (request ++ [Conversation.AssistantMessage text])%list.
Proof.
  cbv zeta. unfold Conversation.decide.
  destruct (Conversation.generateText LM _ _ _ _) as [s [text|message]].
  - right. exists text. destruct (Conversation.jsonMatch text); reflexivity.
  - left. reflexivity.
Qed.

(** X16. The conversation kept by the agent is bounded: whatever its length
    before, a request carries at most 11 messages, the last of which is the
    user message of the current step, and after [decide] the conversation
    holds the request, followed by the response when there was one, so at
    most 12 messages.  This holds after any series of calls as well. *)
Theorem conversation_is_bounded (screenshot task : string) (context : AgentContext)
  (a : Conversation.AgentState LM) :
  let request :=
    Conversation.requestMessages screenshot context
      (Conversation.conversationHistory LM a) in
  let after :=
    Conversation.conversationHistory LM
      (snd (Conversation.decide LM parse model screenshot task context a)) in
  (List.length request <= 11)%nat
  /\ last request (Conversation.AssistantMessage "")
     = Conversation.userMessage screenshot context
  /\ (after = request
      \/ exists text, after = (request ++ [Conversation.AssistantMessage text])%list)
  /\ (List.length after <= 12)%nat
  /\ forall calls,
       (List.length
          (Conversation.conversationHistory LM
             (Conversation.decide_all LM parse model calls a))
        <= Nat.max 12 (List.length (Conversation.conversationHistory LM a)))%nat.
Proof.
  cbv zeta.
  assert (Hreq : forall s c h,
             (List.length (Conversation.requestMessages s c h) <= 11)%nat).
  { intros s c h. unfold Conversation.requestMessages. rewrite length_app.
    destruct (trimmed_length h). cbn [List.length]. lia. }
  assert (Hafter : forall s t c b,
             (List.length
                (Conversation.conversationHistory LM
                   (snd (Conversation.decide LM parse model s t c b))) <= 12)%nat).
  { intros s t c b. pose proof (Hreq s c (Conversation.conversationHistory LM b)).
    destruct (decide_history s t c b) as [->|(text & ->)];
      rewrite ?length_app; cbn [List.length]; lia. }
  split; [apply Hreq|]. split.
  { unfold Conversation.requestMessages. apply last_last. }
  split; [apply decide_history|]. split; [apply Hafter|].
  intros calls. revert a. induction calls as [|[[s t] c] calls IH]; intros a.
  - cbn [Conversation.decide_all]. lia.
  - cbn [Conversation.decide_all].
    specialize (IH (snd (Conversation.decide LM parse model s t c a))).
    pose proof (Hafter s t c a). lia.
Qed.

Lemma slice_last_five {A} (pre : list A) (e1 e2 e3 e4 e5 : A) :
  Js.slice_last 5 (pre ++ [e1; e2; e3; e4; e5]) = [e1; e2; e3; e4; e5].
Proof.
  unfold Js.slice_last. rewrite length_app. cbn [List.length].
  replace (List.length pre + 5 - 5)%nat with (List.length pre + 0)%nat by lia.
  rewrite skipn_app, Nat.add_0_r, skipn_all.
  replace (List.length pre - List.length pre)%nat with 0%nat by lia.
  reflexivity.
Qed.

(** X17. Of the action history, the model is shown the last five entries and
    nothing older: with a history of five entries or more, [decide] sends the
    same system prompt and the same messages, and so does the same, as with
    its last five entries alone. *)
Theorem older_entries_never_reach_the_model (screenshot task : string)
  (k m : Z) (criteria limits : option (list string))
  (pre : list string) (e1 e2 e3 e4 e5 : string)
  (a : Conversation.AgentState LM) :
  let context h :=
    {| stepNumber := k; ctxMaxSteps := m; actionHistory := h;
       ctxSuccessCriteria := criteria; ctxConstraints := limits |} in
  Prompt.buildSystemPrompt task (context (pre ++ [e1; e2; e3; e4; e5])%list)
  = Prompt.buildSystemPrompt task (context [e1; e2; e3; e4; e5])
  /\ Conversation.userMessage screenshot (context (pre ++ [e1; e2; e3; e4; e5])%list)
     = Conversation.userMessage screenshot (context [e1; e2; e3; e4; e5])
  /\ Conversation.decide LM parse model screenshot task
       (context (pre ++ [e1; e2; e3; e4; e5])%list) a
     = Conversation.decide LM parse model screenshot task
         (context [e1; e2; e3; e4; e5]) a.
Proof.
  cbv zeta.
  assert (Hprompt :
    Prompt.buildSystemPrompt task
      {| stepNumber := k; ctxMaxSteps := m;
         actionHistory := (pre ++ [e1; e2; e3; e4; e5])%list;
         ctxSuccessCriteria := criteria; ctxConstraints := limits |}
    = Prompt.buildSystemPrompt task
        {| stepNumber := k; ctxMaxSteps := m; actionHistory := [e1; e2; e3; e4; e5];
           ctxSuccessCriteria := criteria; ctxConstraints := limits |}).
  { unfold Prompt.buildSystemPrompt, Prompt.promptLines, Prompt.recentActions,
      Prompt.criteriaSection, Prompt.constraintsSection.
    cbn [actionHistory stepNumber ctxMaxSteps ctxSuccessCriteria ctxConstraints].
    rewrite slice_last_five.
    replace (Js.slice_last 5 [e1; e2; e3; e4; e5]) with [e1; e2; e3; e4; e5]
      by reflexivity.
    reflexivity. }
  assert (Huser :
    Conversation.userMessage screenshot
      {| stepNumber := k; ctxMaxSteps := m;
         actionHistory := (pre ++ [e1; e2; e3; e4; e5])%list;
         ctxSuccessCriteria := criteria; ctxConstraints := limits |}
    = Conversation.userMessage screenshot
        {| stepNumber := k; ctxMaxSteps := m; actionHistory := [e1; e2; e3; e4; e5];
           ctxSuccessCriteria := criteria; ctxConstraints := limits |}).
  { unfold Conversation.userMessage. cbn [actionHistory].
    change (pre ++ [e1; e2; e3; e4; e5])%list
      with (pre ++ ([e1; e2] ++ [e3; e4; e5]))%list.
    rewrite app_assoc, detect_three.
    change [e1; e2; e3; e4; e5] with ([e1; e2] ++ [e3; e4; e5])%list.
    now rewrite detect_three. }
  split; [exact Hprompt|]. split; [exact Huser|].
  unfold Conversation.decide, Conversation.requestMessages.
  now rewrite Hprompt, Huser.
Qed.

End ConversationProperties.

(** ** The command line *)

(** X18. The command line yields a task exactly when [--task] or the first
    positional argument is given and not empty, and the task it yields is
    never empty.  A first positional argument given alone is the task, not an
    application: the run then launches nothing. *)
Theorem lone_argument_is_the_task (bundleIdArg taskArg taskFromOption : option string) :
  (snd (Cli.resolveTarget bundleIdArg taskArg taskFromOption) = None
   <-> Js.truthy taskFromOption = false /\ Js.truthy bundleIdArg = false)
  /\ Js.truthy (snd (Cli.resolveTarget bundleIdArg taskArg taskFromOption))
     = Js.truthy taskFromOption || Js.truthy bundleIdArg
  /\ (Js.truthy taskFromOption = false -> Js.truthy taskArg = false ->
      Cli.resolveTarget bundleIdArg taskArg taskFromOption
      = (None, if Js.truthy bundleIdArg then bundleIdArg else None)
      /\ forall (E : Env) (config : TaskConfig) (w : World E),
           bundleId config
           = fst (Cli.resolveTarget bundleIdArg taskArg taskFromOption) ->
           exists res h st',
             execute E config (Build_St E w []) = (inl (res, h), st')
             /\ Observe.launches (trace st') = 0%nat).
Proof.
  unfold Cli.resolveTarget.
  destruct (Js.truthy taskFromOption) eqn:Ho, (Js.truthy bundleIdArg) eqn:Hb,
    (Js.truthy taskArg) eqn:Ht; cbn [andb negb orb fst snd];
    rewrite ?Ho, ?Hb, ?Ht;
    (split; [split; [intros H; try (rewrite H in *; discriminate); auto
                    |intros [H1 H2]; try discriminate; reflexivity]
            |split; [reflexivity|]]);
    try (intros H; discriminate H); try (intros _ H; discriminate H);
    intros _ _; (split; [reflexivity|]);
    intros E config w Hcfg;
    destruct (execute_account E config w) as (res & h & st' & Hrun & Hacc);
    exists res, h, st'; (split; [exact Hrun|]);
    (destruct Hacc as [output Hbt _ _ _|ds d0 _ _ _ _ _ [_ _ Hl _ _ _ _]
                      |_ _ [_ _ Hl _ _ _ _]];
     [rewrite Hcfg in Hbt; discriminate Hbt
     |rewrite Hl, Hcfg; reflexivity
     |rewrite Hl, Hcfg; reflexivity]).
Qed.

Lemma lone_argument_is_the_task_example :
  Cli.resolveTarget (Some "open the settings") None None
  = (None, Some "open the settings").
Proof.
  exact (proj1 (proj2 (proj2 (lone_argument_is_the_task
                                (Some "open the settings") None None))
                  eq_refl eq_refl)).
Defined.

Lemma executeAction_flows_back_twice :
  fst (executeAction Scripted.env (Scripted.foreground "go back" 3)
         (Scripted.decision "back" None "wrong screen" 10)
         (Scripted.start
            {| Scripted.flows := [Some "back is not supported"; Some "no device"];
               Scripted.captures := []; Scripted.answers := [] |}))
  = inr (flow_error "no device").
Proof.
  destruct (executeAction_flows Scripted.env (Scripted.foreground "go back" 3)
              (Scripted.decision "back" None "wrong screen" 10)
              (Scripted.start
                 {| Scripted.flows := [Some "back is not supported"; Some "no device"];
                    Scripted.captures := []; Scripted.answers := [] |}))
    as (evs & _ & _).
  reflexivity.
Defined.
